(** * Portsmith: a shallow embedding of the forwarding daemon and its helper

    The development follows the Go sources of the repository:
    - [config.go]      : [HostConfig], [ForwardConfig], [NewForwardConfig],
                         [LoadConfig] (defaulting), [ExpandPorts];
    - [helper/main.go] : the privileged helper ([addAlias], [addHost],
                         [removeHost], [removeAliasesDarwin], pf redirects);
    - [network.go]     : [NetworkSetup] and its undo closures;
    - [ssh.go]         : [SSHClientPool];
    - [forwarder.go]   : [DynamicForwarder] ([Start], [Stop], [Close],
                         [recordError], [clearErrors], [forwardConnection]).

    Go [int] is a 64-bit two's complement integer, modelled as [Z] with the
    wrap-around written out.  Go strings are byte strings, modelled as
    [string] (a list of 8-bit characters). *)

From Stdlib Require Import ZArith String Ascii List Lia Bool.
From Stdlib Require Import Decimal DecimalString DecimalPos DecimalZ.
From stdpp Require Import base gmap strings list.
Import ListNotations.

Local Open Scope string_scope.
Local Open Scope list_scope.
Local Open Scope Z_scope.

(* ===================================================================== *)
(** * Part I: definitions                                                  *)
(* ===================================================================== *)

(** ** Go machine integers *)

Definition int_min : Z := - 2 ^ 63.
Definition int_max : Z := 2 ^ 63 - 1.

(** The values a Go [int] can hold. *)
Definition is_int (z : Z) : Prop := int_min <= z <= int_max.

Definition is_intb (z : Z) : bool := (int_min <=? z) && (z <=? int_max).

(** Two's complement wrap-around of an arithmetic result. *)
Definition wrap (z : Z) : Z := (z + 2 ^ 63) mod 2 ^ 64 - 2 ^ 63.

(** ** The parts of Go's standard library the sources call *)

Module Go.

(** A string given by its bytes. *)
Definition bytes (l : list nat) : string :=
  string_of_list_ascii (map ascii_of_nat l).

Definition newline : ascii := "010"%char.

(** [strings.HasPrefix] *)
Definition HasPrefix (s pre : string) : bool := String.prefix pre s.

Fixpoint drop_string (n : nat) (s : string) : string :=
  match n, s with
  | O, _ => s
  | S _, EmptyString => EmptyString
  | S n', String _ s' => drop_string n' s'
  end.

(** [strings.HasSuffix]:
    [len(s) >= len(suffix) && s[len(s)-len(suffix):] == suffix] *)
Definition HasSuffix (s suffix : string) : bool :=
  (String.length suffix <=? String.length s)%nat &&
  String.eqb (drop_string (String.length s - String.length suffix) s) suffix.

(** [strings.Contains]: [substr] occurs somewhere in [s]. *)
Fixpoint Contains (s substr : string) : bool :=
  String.prefix substr s ||
  match s with
  | EmptyString => false
  | String _ s' => Contains s' substr
  end.

Fixpoint mem_ascii (c : ascii) (chars : string) : bool :=
  match chars with
  | EmptyString => false
  | String d chars' => Ascii.eqb c d || mem_ascii c chars'
  end.

(** [strings.ContainsAny], for [chars] made of ASCII characters. *)
Fixpoint ContainsAny (s chars : string) : bool :=
  match s with
  | EmptyString => false
  | String c s' => mem_ascii c chars || ContainsAny s' chars
  end.

(** [strings.Split(s, sep)] for a separator of one byte: the pieces between
    the separators; at least one piece, also for the empty string. *)
Fixpoint Split (s : string) (sep : ascii) : list string :=
  match s with
  | EmptyString => [EmptyString]
  | String c s' =>
      if Ascii.eqb c sep then EmptyString :: Split s' sep
      else match Split s' sep with
           | piece :: pieces => String c piece :: pieces
           | [] => [String c EmptyString]
           end
  end.

(** [strings.Join] *)
Definition Join (elems : list string) (sep : string) : string :=
  String.concat sep elems.

(** The UTF-8 encodings of the code points [unicode.IsSpace] accepts, the
    line feed apart: U+0009, U+000B..U+000D, U+0020, U+0085, U+00A0, U+1680,
    U+2000..U+200A, U+2028, U+2029, U+202F, U+205F, U+3000. *)
Definition blank_seqs : list string :=
  [ bytes [9%nat]; bytes [11%nat]; bytes [12%nat]; bytes [13%nat];
    bytes [32%nat];
    bytes [194; 133]%nat; bytes [194; 160]%nat;
    bytes [225; 154; 128]%nat;
    bytes [226; 128; 128]%nat; bytes [226; 128; 129]%nat;
    bytes [226; 128; 130]%nat; bytes [226; 128; 131]%nat;
    bytes [226; 128; 132]%nat; bytes [226; 128; 133]%nat;
    bytes [226; 128; 134]%nat; bytes [226; 128; 135]%nat;
    bytes [226; 128; 136]%nat; bytes [226; 128; 137]%nat;
    bytes [226; 128; 138]%nat;
    bytes [226; 128; 168]%nat; bytes [226; 128; 169]%nat;
    bytes [226; 128; 175]%nat;
    bytes [226; 129; 159]%nat;
    bytes [227; 128; 128]%nat ].

Definition space_seqs : list string := bytes [10%nat] :: blank_seqs.

(** The rest of [s] after one of [seqs] at its start, if any. *)
Fixpoint strip_one (seqs : list string) (s : string) : option string :=
  match seqs with
  | [] => None
  | q :: seqs' =>
      if String.prefix q s then Some (drop_string (String.length q) s)
      else strip_one seqs' s
  end.

Fixpoint trim_left (fuel : nat) (seqs : list string) (s : string) : string :=
  match fuel with
  | O => s
  | S fuel' =>
      match strip_one seqs s with
      | Some rest => trim_left fuel' seqs rest
      | None => s
      end
  end.

(** [strings.TrimSpace]: leading and trailing white space removed. *)
Definition TrimSpace (s : string) : string :=
  let s1 := trim_left (String.length s) space_seqs s in
  String.rev
    (trim_left (String.length s1) (map String.rev space_seqs) (String.rev s1)).

(** The loop of [strings.Fields]: [cur] is the field being read. *)
Fixpoint fields_from (fuel : nat) (cur : string) (s : string) : list string :=
  let flush := match cur with EmptyString => [] | _ => [cur] end in
  match fuel with
  | O => flush
  | S fuel' =>
      match s with
      | EmptyString => flush
      | String c s' =>
          match strip_one space_seqs s with
          | Some rest => flush ++ fields_from fuel' EmptyString rest
          | None => fields_from fuel' (cur ++ String c EmptyString) s'
          end
      end
  end.

(** [strings.Fields]: the pieces between runs of white space. *)
Definition Fields (s : string) : list string :=
  fields_from (String.length s) EmptyString s.

(** [fmt.Sprintf("%d", z)] *)
Definition Itoa (z : Z) : string := NilZero.string_of_int (Z.to_int z).

(** *** [fmt.Sscanf] with the format ["%d-%d"] *)

Definition is_digit (c : ascii) : bool :=
  let n := nat_of_ascii c in (48 <=? n)%nat && (n <=? 57)%nat.

(** [ss.SkipSpace] of a scanner whose [nlIsSpace] is false: white space is
    skipped; a line feed is an error. *)
Fixpoint SkipSpace (fuel : nat) (s : string) : option string :=
  match fuel with
  | O => Some s
  | S fuel' =>
      match s with
      | EmptyString => Some s
      | String c _ =>
          if Ascii.eqb c newline then None
          else match strip_one blank_seqs s with
               | Some rest => SkipSpace fuel' rest
               | None => Some s
               end
      end
  end.

(** [ss.accept(sign)]: an optional ["+"] or ["-"]. *)
Definition accept_sign (s : string) : bool * string :=
  match s with
  | String c s' =>
      if Ascii.eqb c "-" then (true, s')
      else if Ascii.eqb c "+" then (false, s')
      else (false, s)
  | EmptyString => (false, s)
  end.

(** The longest prefix of decimal digits, and the rest. *)
Fixpoint span_digits (s : string) : string * string :=
  match s with
  | String c s' =>
      if is_digit c then
        let '(ds, rest) := span_digits s' in (String c ds, rest)
      else (EmptyString, s)
  | EmptyString => (EmptyString, EmptyString)
  end.

(** [ss.scanInt('d', 64)]: skip white space, read a sign and at least one
    digit, convert with [strconv.ParseInt(tok, 10, 64)], which rejects a
    value outside the 64-bit range. *)
Definition scanInt (s : string) : option (Z * string) :=
  match SkipSpace (String.length s) s with
  | None => None
  | Some s1 =>
      let '(neg, s2) := accept_sign s1 in
      let '(ds, s3) := span_digits s2 in
      match ds with
      | EmptyString => None
      | String _ _ =>
          match NilEmpty.uint_of_string ds with
          | None => None
          | Some u =>
              let v := if neg : bool then - Z.of_uint u else Z.of_uint u in
              if is_intb v then Some (v, s3) else None
          end
      end
  end.

(** [fmt.Sscanf(v, "%d-%d", &start, &end)]: [Some (start, end)] when it
    returns [n = 2] and no error.  Input after the second number is not
    looked at. *)
Definition Sscanf_d_dash_d (v : string) : option (Z * Z) :=
  match scanInt v with
  | Some (start, String c rest) =>
      if Ascii.eqb c "-" then
        match scanInt rest with
        | Some (end_, _) => Some (start, end_)
        | None => None
        end
      else None
  | _ => None
  end.

(** [fmt.Sscanf(v, "%d", &n)] *)
Definition Sscanf_d (v : string) : option Z :=
  match scanInt v with
  | Some (n, _) => Some n
  | None => None
  end.

End Go.

(** Go [error] values: [None] is [nil], [Some msg] an error with that text. *)
Definition error : Type := option string.

(** What the sources take from the platform they run on. *)
Class Platform := {
  (** [net.ParseIP]: the 16-byte form of an IP literal, [None] for [nil]. *)
  net_ParseIP : string -> option (list Z);
  (** The order in which [for k := range m] visits the keys of a map: some
      order, not specified. *)
  map_order : list Z -> list Z;
  map_order_perm : forall keys, Permutation (map_order keys) keys;
}.

(** ** config.go *)

Definition DefaultKeyPath : string := "~/.ssh/id_rsa".
Definition SSHDefaultPort : Z := 22.

(** An element of the [ports] list ([interface{}]): an [int], a [string], or
    a value of another dynamic type (named as [%T] prints it). *)
Inductive PortSpec : Type :=
| PortInt (v : Z)
| PortString (v : string)
| PortOther (goType : string).

Module HostConfig.
Record t : Type := mk {
  LocalIP : string;
  Hostnames : list string;
  RemoteHost : string;
  JumpHost : string;
  JumpPort : Z;
  KeyPath : string;
  IdentityAgent : string;
  Ports : list PortSpec;
}.
End HostConfig.

Module ForwardConfig.
Record t : Type := mk {
  LocalIP : string;
  RemoteHost : string;
  Port : Z;
  ListenPort : Z;
  JumpHost : string;
  JumpPort : Z;
  KeyPath : string;
  IdentityAgent : string;
}.
End ForwardConfig.

Definition NewForwardConfig (host : HostConfig.t) (port : Z) : ForwardConfig.t :=
  let listenPort := if port <? 1024 then wrap (10000 + port) else port in
  {| ForwardConfig.LocalIP := HostConfig.LocalIP host;
     ForwardConfig.RemoteHost := HostConfig.RemoteHost host;
     ForwardConfig.Port := port;
     ForwardConfig.ListenPort := listenPort;
     ForwardConfig.JumpHost := HostConfig.JumpHost host;
     ForwardConfig.JumpPort := HostConfig.JumpPort host;
     ForwardConfig.KeyPath := HostConfig.KeyPath host;
     ForwardConfig.IdentityAgent := HostConfig.IdentityAgent host |}.

Definition NeedsPFRedirect (fc : ForwardConfig.t) : bool :=
  negb (ForwardConfig.Port fc =? ForwardConfig.ListenPort fc).

(** The line [LoadConfig] logs for a host that gets no host name. *)
Definition no_hostnames_warning (h : HostConfig.t) : string :=
  ("Warning: Host with remote_host=" ++ HostConfig.RemoteHost h ++
   " has no hostnames. Access via local IP " ++ HostConfig.LocalIP h ++
   " only.")%string.

Section Config.
Context {platform : Platform}.

Definition isIPAddress (s : string) : bool :=
  match net_ParseIP s with Some _ => true | None => false end.

(** The defaults [LoadConfig] sets on one host, and the lines it logs. *)
Definition host_defaults (h : HostConfig.t) : HostConfig.t * list string :=
  let jumpPort := if HostConfig.JumpPort h =? 0 then SSHDefaultPort
                  else HostConfig.JumpPort h in
  let keyPath := if String.eqb (HostConfig.KeyPath h) EmptyString
                 then DefaultKeyPath
                 else HostConfig.KeyPath h in
  let '(hostnames, logged) :=
    if (length (HostConfig.Hostnames h) =? 0)%nat then
      if isIPAddress (HostConfig.RemoteHost h) then
        (HostConfig.Hostnames h, [no_hostnames_warning h])
      else ([HostConfig.RemoteHost h], [])
    else (HostConfig.Hostnames h, []) in
  ({| HostConfig.LocalIP := HostConfig.LocalIP h;
      HostConfig.Hostnames := hostnames;
      HostConfig.RemoteHost := HostConfig.RemoteHost h;
      HostConfig.JumpHost := HostConfig.JumpHost h;
      HostConfig.JumpPort := jumpPort;
      HostConfig.KeyPath := keyPath;
      HostConfig.IdentityAgent := HostConfig.IdentityAgent h;
      HostConfig.Ports := HostConfig.Ports h |}, logged).

(** What [os.ReadFile] followed by [yaml.Unmarshal] gives for the
    configuration file. *)
Inductive ConfigSource : Type :=
| ReadFails (msg : string)
| ParseFails (msg : string)
| Parsed (hosts : list HostConfig.t).

(** [LoadConfig]: the hosts with their defaults set (or the error), and the
    lines written to the log. *)
Definition LoadConfig (src : ConfigSource)
  : (string + list HostConfig.t) * list string :=
  match src with
  | ReadFails msg => (inl ("failed to read config file: " ++ msg)%string, [])
  | ParseFails msg => (inl ("failed to parse config: " ++ msg)%string, [])
  | Parsed hosts =>
      let done := map host_defaults hosts in
      (inr (map fst done), concat (map snd done))
  end.

(** The errors of [ExpandPorts]. *)
Inductive ConfigError : Type :=
| InvalidRangeFormat (v : string)
| ReversedRange (v : string) (start end_ : Z)
| InvalidPortSpec (goType : string).

(** [for p := start; p <= end; p++ { portsMap[p] = true }].  [None]: the
    loop has not finished within [fuel] iterations. *)
Fixpoint range_loop (fuel : nat) (p end_ : Z) (portsMap : gmap Z bool)
  : option (gmap Z bool) :=
  match fuel with
  | O => None
  | S fuel' =>
      if p <=? end_ then
        range_loop fuel' (wrap (p + 1)) end_ (<[p := true]> portsMap)
      else Some portsMap
  end.

(** The loop of [ExpandPorts] over the port specifications. *)
Fixpoint expand_loop (fuel : nat) (specs : list PortSpec)
  (portsMap : gmap Z bool) : option (ConfigError + gmap Z bool) :=
  match specs with
  | [] => Some (inr portsMap)
  | PortInt v :: rest => expand_loop fuel rest (<[v := true]> portsMap)
  | PortString v :: rest =>
      match Go.Sscanf_d_dash_d v with
      | None => Some (inl (InvalidRangeFormat v))
      | Some (start, end_) =>
          if end_ <? start then Some (inl (ReversedRange v start end_))
          else match range_loop fuel start end_ portsMap with
               | None => None
               | Some portsMap' => expand_loop fuel rest portsMap'
               end
      end
  | PortOther goType :: _ => Some (inl (InvalidPortSpec goType))
  end.

(** The keys of the map, in the order the final [range] visits them. *)
Definition map_keys (portsMap : gmap Z bool) : list Z :=
  map_order (map fst (map_to_list portsMap)).

(** [ExpandPorts]: [None] when a range loop does not finish within [fuel]
    iterations. *)
Definition ExpandPorts (fuel : nat) (config : HostConfig.t)
  : option (ConfigError + list Z) :=
  match expand_loop fuel (HostConfig.Ports config) ∅ with
  | None => None
  | Some (inl e) => Some (inl e)
  | Some (inr portsMap) => Some (inr (map_keys portsMap))
  end.

End Config.

(** ** helper/main.go: the privileged helper

    The helper is modelled on the state of the host it changes.  It runs as
    root: reading and writing [/etc/hosts], [/etc/pf.conf] and the anchor
    file does not fail, and a write of the registry fails only when its
    directory is missing; [ifconfig] and [pfctl] behave as said where they
    are defined; what the helper prints is left out. *)

Definition nl : string := String Go.newline EmptyString.
Definition tab : string := Go.bytes [9%nat].
Definition dquote : string := Go.bytes [34%nat].

(** The state of the host the helper changes. *)
Record World : Type := mkWorld {
  (** the [inet] addresses of the loopback interface, as [ifconfig lo0]
      lists them *)
  lo0 : list string;
  (** [/var/run/portsmith/aliases]; [None] while the file does not exist *)
  aliasesFile : option string;
  (** [/etc/hosts] *)
  hostsFile : string;
  (** [/etc/pf.anchors/portsmith]; [None] while the file does not exist *)
  anchorFile : option string;
  (** [/etc/pf.conf] *)
  pfConf : string;
  (** the rules loaded in the packet filter's anchor [portsmith] *)
  pfLoaded : string;
  (** whether the directory [/var/run/portsmith] is there while the
      registry file is not (a registry file that exists is in it) *)
  stateDir : bool;
}.

Definition set_lo0 (w : World) (v : list string) : World :=
  mkWorld v (aliasesFile w) (hostsFile w) (anchorFile w) (pfConf w) (pfLoaded w)
          (stateDir w).
Definition set_aliasesFile (w : World) (v : option string) : World :=
  mkWorld (lo0 w) v (hostsFile w) (anchorFile w) (pfConf w) (pfLoaded w)
          (stateDir w).
Definition set_hostsFile (w : World) (v : string) : World :=
  mkWorld (lo0 w) (aliasesFile w) v (anchorFile w) (pfConf w) (pfLoaded w)
          (stateDir w).
Definition set_anchorFile (w : World) (v : option string) : World :=
  mkWorld (lo0 w) (aliasesFile w) (hostsFile w) v (pfConf w) (pfLoaded w)
          (stateDir w).
Definition set_pfConf (w : World) (v : string) : World :=
  mkWorld (lo0 w) (aliasesFile w) (hostsFile w) (anchorFile w) v (pfLoaded w)
          (stateDir w).
Definition set_pfLoaded (w : World) (v : string) : World :=
  mkWorld (lo0 w) (aliasesFile w) (hostsFile w) (anchorFile w) (pfConf w) v
          (stateDir w).

Definition set_stateDir (w : World) (v : bool) : World :=
  mkWorld (lo0 w) (aliasesFile w) (hostsFile w) (anchorFile w) (pfConf w)
          (pfLoaded w) v.

Definition hostsMarker : string := "# portsmith-dynamic-forward".

Definition in_list (x : string) (l : list string) : bool :=
  existsb (String.eqb x) l.

(** *** The commands the helper runs *)

(** The output of [ifconfig lo0], after the fixture of the helper's tests. *)
Definition ifconfig_lo0 (w : World) : string :=
  ("lo0: flags=8049<UP,LOOPBACK,RUNNING,MULTICAST> mtu 16384" ++ nl ++
   tab ++ "options=1203<RXCSUM,TXCSUM,TXSTATUS,SW_TIMESTAMP>" ++ nl ++
   String.concat EmptyString
     (map (fun ip => tab ++ "inet " ++ ip ++ " netmask 0xff000000" ++ nl) (lo0 w)) ++
   tab ++ "inet6 ::1 prefixlen 128" ++ nl ++
   tab ++ "inet6 fe80::1%lo0 prefixlen 64 scopeid 0x1" ++ nl ++
   tab ++ "nd6 options=201<PERFORMNUD,DAD>" ++ nl)%string.

(** [ifconfig lo0 alias ip up] *)
Definition ifconfig_alias (ip : string) (w : World) : World :=
  if in_list ip (lo0 w) then w else set_lo0 w (lo0 w ++ [ip]).

(** [ifconfig lo0 -alias ip]: fails when the interface has no such
    address. *)
Definition ifconfig_unalias (ip : string) (w : World) : error * World :=
  if in_list ip (lo0 w)
  then (None, set_lo0 w (List.filter (fun a => negb (String.eqb a ip)) (lo0 w)))
  else (Some "exit status 1", w).

Section Helper.
Context {platform : Platform}.

Definition To4 (ip : list Z) : option (list Z) :=
  if (length ip =? 4)%nat then Some ip
  else if (length ip =? 16)%nat && forallb (Z.eqb 0) (take 10 ip) &&
          forallb (Z.eqb 255) (take 2 (drop 10 ip))
       then Some (drop 12 ip)
       else None.

Definition IPv6loopback : list Z := [0;0;0;0;0;0;0;0;0;0;0;0;0;0;0;1].

Definition IsLoopback (ip : list Z) : bool :=
  match To4 ip with
  | Some ip4 => match ip4 with b :: _ => b =? 127 | [] => false end
  | None => bool_decide (ip = IPv6loopback)
  end.

Definition validateIP (ip : string) : error :=
  match net_ParseIP ip with
  | None => Some ("invalid IP address: " ++ ip)%string
  | Some parsed =>
      if negb (IsLoopback parsed)
      then Some ("only loopback addresses allowed: " ++ ip)%string
      else None
  end.

Definition validateHostname (hostname : string) : error :=
  if Go.ContainsAny hostname (Go.bytes [32; 9; 10; 13]%nat)
  then Some ("invalid hostname (contains whitespace): " ++ hostname)%string
  else if (253 <? String.length hostname)%nat
  then Some ("hostname too long: " ++ hostname)%string
  else if (String.length hostname =? 0)%nat
  then Some "hostname cannot be empty"
  else None.

(** [loadAliases]: the registry, one address per non-blank line. *)
Definition loadAliases (w : World) : list string :=
  match aliasesFile w with
  | None => []
  | Some content =>
      List.filter (fun line => negb (String.eqb line EmptyString))
        (map Go.TrimSpace (Go.Split (Go.TrimSpace content) Go.newline))
  end.

(** Whether the directory of the registry exists. *)
Definition has_stateDir (w : World) : bool :=
  stateDir w || bool_decide (is_Some (aliasesFile w)).

(** [ensureStateDir]: [os.MkdirAll] of the directory of the registry. *)
Definition ensureStateDir (w : World) : error * World :=
  if has_stateDir w then (None, w) else (None, set_stateDir w true).

Definition addAliasToState (ip : string) (w : World) : error * World :=
  match ensureStateDir w with
  | (Some e, w') => (Some e, w')
  | (None, w) =>
      let aliases := loadAliases w in
      if in_list ip aliases then (None, w)
      else
        let old := match aliasesFile w with Some c => c | None => EmptyString end in
        (None, set_aliasesFile w (Some (old ++ ip ++ nl)%string))
  end.

Definition removeAliasFromState (ip : string) (w : World) : error * World :=
  let aliases := loadAliases w in
  let newAliases := List.filter (fun existing => negb (String.eqb existing ip)) aliases in
  let content := Go.Join newAliases nl in
  let content := if (0 <? length newAliases)%nat then (content ++ nl)%string
                 else content in
  (* [os.WriteFile] creates the file, not its directory *)
  if has_stateDir w then (None, set_aliasesFile w (Some content))
  else (Some "open /var/run/portsmith/aliases: no such file or directory", w).

Definition addAliasDarwin (ip : string) (w : World) : error * World :=
  let output := ifconfig_lo0 w in
  if Go.Contains output ip then
    match addAliasToState ip w with
    | (Some e, w') => (Some ("failed to track alias in state: " ++ e)%string, w')
    | (None, w') => (None, w')
    end
  else
    let w1 := ifconfig_alias ip w in
    match addAliasToState ip w1 with
    | (Some e, w') => (Some ("failed to track alias in state: " ++ e)%string, w')
    | (None, w') => (None, w')
    end.

Definition addAlias (ip : string) (w : World) : error * World :=
  match validateIP ip with
  | Some e => (Some e, w)
  | None => addAliasDarwin ip w
  end.

Definition removeAliasDarwin (ip : string) (w : World) : error * World :=
  match ifconfig_unalias ip w with
  | (Some e, w') => (Some ("failed to remove loopback alias: " ++ e)%string, w')
  | (None, w1) =>
      match removeAliasFromState ip w1 with
      | (Some e, w') =>
          (Some ("failed to remove alias from state: " ++ e)%string, w')
      | (None, w') => (None, w')
      end
  end.

Definition removeAlias (ip : string) (w : World) : error * World :=
  match validateIP ip with
  | Some e => (Some e, w)
  | None => removeAliasDarwin ip w
  end.

(** The test both [addHost] and [removeHost] run on a line. *)
Definition line_matches (ip hostname line : string) : bool :=
  Go.Contains line hostsMarker && Go.Contains line hostname &&
  Go.Contains line ip.

Definition addHost (ip hostname : string) (w : World) : error * World :=
  match validateIP ip with
  | Some e => (Some e, w)
  | None =>
  match validateHostname hostname with
  | Some e => (Some e, w)
  | None =>
      let content := hostsFile w in
      let lines := Go.Split content Go.newline in
      let searchEntry := (ip ++ " " ++ hostname)%string in
      if existsb (line_matches ip hostname) lines then (None, w)
      else
        let newContent := content in
        let newContent := if negb (Go.HasSuffix newContent nl)
                          then (newContent ++ nl)%string else newContent in
        let newContent :=
          (newContent ++ (searchEntry ++ " " ++ hostsMarker ++ nl))%string in
        (None, set_hostsFile w newContent)
  end end.

Definition removeHost (ip hostname : string) (w : World) : error * World :=
  match validateIP ip with
  | Some e => (Some e, w)
  | None =>
  match validateHostname hostname with
  | Some e => (Some e, w)
  | None =>
      let content := hostsFile w in
      let lines := Go.Split content Go.newline in
      let newLines := List.filter (fun line => negb (line_matches ip hostname line)) lines in
      let newContent := Go.Join newLines nl in
      (None, set_hostsFile w newContent)
  end end.

(** [removeHosts]; the two error returns, of [os.ReadFile] and of
    [os.WriteFile], are those of a resolver file that cannot be read or
    written, which the model leaves out. *)
Definition removeHosts (w : World) : error * World :=
  let content := hostsFile w in
  let lines := Go.Split content Go.newline in
  let newLines := List.filter (fun line => negb (Go.Contains line hostsMarker)) lines in
  let removed := length (List.filter (fun line => Go.Contains line hostsMarker) lines) in
  if (removed =? 0)%nat then (None, w)
  else (None, set_hostsFile w (Go.Join newLines nl)).

Definition removeAliasesDarwin (w : World) : error * World :=
  let aliases := loadAliases w in
  if (length aliases =? 0)%nat then (None, w)
  else
    let w1 := fold_left (fun wi ip => snd (ifconfig_unalias ip wi)) aliases w in
    (* the registry lists an address: the file exists and can be written *)
    (None, set_aliasesFile w1 (Some EmptyString)).

Definition removeAliases (w : World) : error * World := removeAliasesDarwin w.

Definition anchorRef : string := "rdr-anchor " ++ dquote ++ "portsmith" ++ dquote.
Definition appleRef : string := "rdr-anchor " ++ dquote ++ "com.apple/*" ++ dquote.

(** The text of a redirect rule, without the line feed that ends it. *)
Definition pf_rule (ip : string) (fromPort toPort : Z) : string :=
  ("rdr pass on lo0 inet proto tcp from any to " ++ ip ++ " port " ++
   Go.Itoa fromPort ++ " -> " ++ ip ++ " port " ++ Go.Itoa toPort)%string.

(** The loop of [addPFRedirect] over the lines of [/etc/pf.conf]. *)
Fixpoint insert_anchor (lines : list string) (anchorAdded : bool)
  : list string * bool :=
  match lines with
  | [] => ([], anchorAdded)
  | line :: rest =>
      if Go.Contains line appleRef && negb anchorAdded then
        let '(newLines, added) := insert_anchor rest true in
        (line :: anchorRef :: newLines, added)
      else
        let '(newLines, added) := insert_anchor rest anchorAdded in
        (line :: newLines, added)
  end.

Definition addPFRedirect (ip : string) (fromPort toPort : Z) (w : World)
  : error * World :=
  match validateIP ip with
  | Some e => (Some e, w)
  | None =>
  if (fromPort <? 1) || (65535 <? fromPort) || (toPort <? 1) || (65535 <? toPort)
  then (Some ("invalid port range: from=" ++ Go.Itoa fromPort ++ " to=" ++
              Go.Itoa toPort)%string, w)
  else
    let rule := (pf_rule ip fromPort toPort ++ nl)%string in
    let existingContent :=
      match anchorFile w with Some c => c | None => EmptyString end in
    if Go.Contains existingContent (Go.TrimSpace rule) then (None, w)
    else
      let newContent := (existingContent ++ rule)%string in
      let w1 := set_anchorFile w (Some newContent) in
      let pfConfContent := pfConf w1 in
      (* pfctl -a portsmith -f anchorFile *)
      let load_anchor (w2 : World) : World := set_pfLoaded w2 newContent in
      if negb (Go.Contains pfConfContent anchorRef) then
        let lines := Go.Split pfConfContent Go.newline in
        let '(newLines, anchorAdded) := insert_anchor lines false in
        if negb anchorAdded
        then (Some "could not find appropriate location in /etc/pf.conf to add anchor", w1)
        else
          (* needsReload: pfctl -f /etc/pf.conf follows the load of the anchor *)
          (None, load_anchor (set_pfConf w1 (Go.Join newLines nl)))
      else (None, load_anchor w1)
  end.

Definition removePFRedirect (ip : string) (fromPort toPort : Z) (w : World)
  : error * World :=
  match validateIP ip with
  | Some e => (Some e, w)
  | None =>
      match anchorFile w with
      | None => (None, w)
      | Some content =>
          let targetRule := pf_rule ip fromPort toPort in
          let lines := Go.Split content Go.newline in
          let newLines :=
            List.filter (fun line => negb (Go.Contains line targetRule) &&
                                negb (String.eqb (Go.TrimSpace line) EmptyString))
                   lines in
          let newContent := Go.Join newLines nl in
          let newContent := if (0 <? length newLines)%nat
                            then (newContent ++ nl)%string else newContent in
          (* pfctl -a portsmith -f anchorFile *)
          (None, set_pfLoaded (set_anchorFile w (Some newContent)) newContent)
      end
  end.

Definition removePFRedirects (w : World) : error * World :=
  match anchorFile w with
  | None => (None, w)
  | Some _ =>
      (* pfctl -a portsmith -F nat *)
      (None, set_pfLoaded (set_anchorFile w (Some EmptyString)) EmptyString)
  end.

(** [main] of the helper, run as root with the arguments [args]: the exit
    status and the state it leaves. *)
Definition helper_main (args : list string) (w : World) : Z * World :=
  let exit_of (r : error * World) : Z * World :=
    match r with (None, w') => (0, w') | (Some _, w') => (1, w') end in
  match args with
  | [] => (1, w)
  | command :: rest =>
      if String.eqb command "add-alias" then
        match rest with [ip] => exit_of (addAlias ip w) | _ => (1, w) end
      else if String.eqb command "remove-alias" then
        match rest with [ip] => exit_of (removeAlias ip w) | _ => (1, w) end
      else if String.eqb command "add-host" then
        match rest with
        | [ip; hostname] => exit_of (addHost ip hostname w)
        | _ => (1, w)
        end
      else if String.eqb command "remove-host" then
        match rest with
        | [ip; hostname] => exit_of (removeHost ip hostname w)
        | _ => (1, w)
        end
      else if String.eqb command "remove-hosts" then exit_of (removeHosts w)
      else if String.eqb command "remove-aliases" then exit_of (removeAliases w)
      else if String.eqb command "add-pf-redirect" then
        match rest with
        | [ip; from; to] =>
            match Go.Sscanf_d from, Go.Sscanf_d to with
            | Some fromPort, Some toPort =>
                exit_of (addPFRedirect ip fromPort toPort w)
            | _, _ => (1, w)
            end
        | _ => (1, w)
        end
      else if String.eqb command "remove-pf-redirect" then
        match rest with
        | [ip; from; to] =>
            match Go.Sscanf_d from, Go.Sscanf_d to with
            | Some fromPort, Some toPort =>
                exit_of (removePFRedirect ip fromPort toPort w)
            | _, _ => (1, w)
            end
        | _ => (1, w)
        end
      else if String.eqb command "remove-pf-redirects" then
        exit_of (removePFRedirects w)
      else (1, w)
  end.

End Helper.

(** *** Older versions

    The sources keep an older [removeAliasesDarwin], from before the helper
    had a registry: it reads the addresses off the interface.  They also keep
    an older [LoadConfig], from before hosts had an [identity_agent]: it
    sets the jump port and the key path and leaves the host names alone. *)

Module Legacy.

Definition host_defaults (h : HostConfig.t) : HostConfig.t :=
  let jumpPort := if HostConfig.JumpPort h =? 0 then SSHDefaultPort
                  else HostConfig.JumpPort h in
  let keyPath := if String.eqb (HostConfig.KeyPath h) EmptyString
                 then DefaultKeyPath
                 else HostConfig.KeyPath h in
  {| HostConfig.LocalIP := HostConfig.LocalIP h;
     HostConfig.Hostnames := HostConfig.Hostnames h;
     HostConfig.RemoteHost := HostConfig.RemoteHost h;
     HostConfig.JumpHost := HostConfig.JumpHost h;
     HostConfig.JumpPort := jumpPort;
     HostConfig.KeyPath := keyPath;
     HostConfig.IdentityAgent := HostConfig.IdentityAgent h;
     HostConfig.Ports := HostConfig.Ports h |}.

Definition LoadConfig (src : ConfigSource) : string + list HostConfig.t :=
  match src with
  | ReadFails msg => inl ("failed to read config file: " ++ msg)%string
  | ParseFails msg => inl ("failed to parse config: " ++ msg)%string
  | Parsed hosts => inr (map host_defaults hosts)
  end.

(** The address a line of [ifconfig lo0] makes the old helper remove. *)
Definition alias_of_line (line : string) : option string :=
  let line := Go.TrimSpace line in
  if negb (Go.HasPrefix line "inet ") then None
  else match Go.Fields line with
       | _ :: ip :: _ =>
           if String.eqb ip "127.0.0.1" then None
           else if Go.HasPrefix ip "127.0.0." then Some ip
           else None
       | _ => None
       end.

Definition removeAliasesDarwin (w : World) : error * World :=
  let output := ifconfig_lo0 w in
  let lines := Go.Split output Go.newline in
  (None,
   fold_left (fun wi line =>
                match alias_of_line line with
                | Some ip => snd (ifconfig_unalias ip wi)
                | None => wi
                end) lines w).

End Legacy.

(** ** network.go *)

(** The cleanup closures [NetworkSetup] returns, as the data they close
    over. *)
Inductive Undo : Type :=
| UndoLoopbackAlias (ip : string)
| UndoHostsEntries (ip : string) (hostnames : list string)
| UndoNothing
| UndoPFRedirect (ip : string) (fromPort toPort : Z).

Inductive HealthStatus : Type := StatusHealthy | StatusDegraded | StatusError.

Record StatusUpdate : Type := mkStatusUpdate {
  Health : HealthStatus;
  Message : string;
}.

(** What a call does that other parts of the program can see, in order. *)
Inductive Event : Type :=
| EvHelper (args : list string)       (* sudo helper args... *)
| EvUndo (u : Undo)                   (* a cleanup closure is called *)
| EvListen (cfg : ForwardConfig.t)    (* go df.listenAndForward(cfg) *)
| EvRunning (b : bool)                (* df.running = b *)
| EvCloseStatusChan                   (* close(df.statusChan) *)
| EvClosePool.                        (* df.sshPool.Close() *)

Record Sys : Type := mkSys {
  world : World;
  trace : list Event;
}.

Definition emit (e : Event) (s : Sys) : Sys :=
  mkSys (world s) (trace s ++ [e])%list.

Section Network.
Context {platform : Platform}.

(** [runHelper]: the helper started through [sudo]; a status other than 0
    is an error. *)
Definition runHelper (args : list string) (s : Sys) : error * Sys :=
  let '(status, w') := helper_main args (world s) in
  let s' := mkSys w' (trace s ++ [EvHelper args])%list in
  if status =? 0 then (None, s')
  else (Some ("exit status " ++ Go.Itoa status)%string, s').

Definition SetupLoopbackAlias (ip : string) (s : Sys)
  : (option Undo * error) * Sys :=
  match runHelper ["add-alias"; ip] s with
  | (Some e, s') =>
      ((None, Some ("failed to add loopback alias " ++ ip ++ ": " ++ e)%string), s')
  | (None, s') => ((Some (UndoLoopbackAlias ip), None), s')
  end.

(** The loop of [AddHostsEntries] over the names. *)
Fixpoint add_hosts_loop (ip : string) (hostnames : list string) (s : Sys)
  : error * Sys :=
  match hostnames with
  | [] => (None, s)
  | hostname :: rest =>
      match runHelper ["add-host"; ip; hostname] s with
      | (Some e, s') =>
          (Some ("failed to add hosts entry " ++ hostname ++ " -> " ++ ip ++
                 ": " ++ e)%string, s')
      | (None, s') => add_hosts_loop ip rest s'
      end
  end.

Definition AddHostsEntries (ip : string) (hostnames : list string) (s : Sys)
  : (option Undo * error) * Sys :=
  if (length hostnames =? 0)%nat then ((Some UndoNothing, None), s)
  else match add_hosts_loop ip hostnames s with
       | (Some e, s') => ((None, Some e), s')
       | (None, s') => ((Some (UndoHostsEntries ip hostnames), None), s')
       end.

Definition SetupPFRedirect (ip : string) (fromPort toPort : Z) (s : Sys)
  : (option Undo * error) * Sys :=
  match runHelper ["add-pf-redirect"; ip; Go.Itoa fromPort; Go.Itoa toPort] s with
  | (Some e, s') =>
      ((None, Some ("failed to add pf redirect " ++ ip ++ ":" ++ Go.Itoa fromPort ++
                    " -> " ++ ip ++ ":" ++ Go.Itoa toPort ++ ": " ++ e)%string), s')
  | (None, s') => ((Some (UndoPFRedirect ip fromPort toPort), None), s')
  end.

(** Calling a cleanup closure. *)
Definition run_undo (u : Undo) (s : Sys) : error * Sys :=
  let s := emit (EvUndo u) s in
  match u with
  | UndoLoopbackAlias ip =>
      match runHelper ["remove-alias"; ip] s with
      | (Some e, s') =>
          (Some ("failed to remove loopback alias " ++ ip ++ ": " ++ e)%string, s')
      | (None, s') => (None, s')
      end
  | UndoHostsEntries ip hostnames =>
      (None, fold_left (fun si hostname =>
                          snd (runHelper ["remove-host"; ip; hostname] si))
                       hostnames s)
  | UndoNothing => (None, s)
  | UndoPFRedirect ip fromPort toPort =>
      match runHelper ["remove-pf-redirect"; ip; Go.Itoa fromPort; Go.Itoa toPort] s with
      | (Some e, s') =>
          (Some ("failed to remove pf redirect " ++ ip ++ ":" ++ Go.Itoa fromPort ++
                 " -> " ++ ip ++ ":" ++ Go.Itoa toPort ++ ": " ++ e)%string, s')
      | (None, s') => (None, s')
      end
  end.

(** [Cleanup]: the bulk removal; failures are logged only. *)
Definition Cleanup (s : Sys) : error * Sys :=
  let '(_, s1) := runHelper ["remove-pf-redirects"] s in
  let '(_, s2) := runHelper ["remove-hosts"] s1 in
  let '(_, s3) := runHelper ["remove-aliases"] s2 in
  (None, s3).

(** The loop of [SetupNetwork] over the hosts; [cleanup] is the slice
    built so far. *)
Fixpoint setup_loop (configs : list HostConfig.t) (cleanup : list Undo) (s : Sys)
  : (list Undo * error) * Sys :=
  match configs with
  | [] => ((cleanup, None), s)
  | config :: rest =>
      match SetupLoopbackAlias (HostConfig.LocalIP config) s with
      | ((Some cleanupFn, None), s1) =>
          let cleanup := (cleanup ++ [cleanupFn])%list in
          match AddHostsEntries (HostConfig.LocalIP config)
                                (HostConfig.Hostnames config) s1 with
          | ((Some cleanupFn, None), s2) =>
              setup_loop rest (cleanup ++ [cleanupFn])%list s2
          | ((_, e), s2) =>
              ((cleanup,
                Some ("failed to setup hosts entries for " ++
                      HostConfig.LocalIP config ++ ": " ++
                      default EmptyString e)%string), s2)
          end
      | ((_, e), s1) =>
          ((cleanup,
            Some ("failed to setup loopback for " ++ HostConfig.LocalIP config ++
                  ": " ++ default EmptyString e)%string), s1)
      end
  end.

Definition SetupNetwork (configs : list HostConfig.t) (s : Sys)
  : (list Undo * error) * Sys :=
  setup_loop configs [] s.

End Network.

(** ** Calls that may not return *)

Inductive Outcome (A : Type) : Type :=
| Returns (a : A)
| Panics (msg : string)      (* a run-time panic *)
| Waits.                     (* still blocked, or looping, when the model stops *)
Arguments Returns {A} a.
Arguments Panics {A} msg.
Arguments Waits {A}.

(** ** ssh.go *)

(** An [*ssh.Client], as the identity of the pointer. *)
Definition Client : Type := nat.

(** [ssh.AuthMethod] values. *)
Inductive AuthMethod : Type := PublicKeys | KeyboardInteractive.

Record SSHClientPool : Type := mkPool {
  clients : gmap string Client;
  authMethods : gmap string (list AuthMethod);
  (** the clients on which [Close] has been called *)
  closedClients : gset Client;
}.

Definition NewSSHClientPool : SSHClientPool := mkPool ∅ ∅ ∅.

(** What the outside world answers during one [GetClient]: the results of
    the successive calls of [loadSSHAuthMethods], of [user.Current] and of
    the successive calls of [ssh.Dial] (an error text, or the value). *)
Record ConnEnv : Type := mkConnEnv {
  auth_results : list (string + list AuthMethod);
  user_result : string + string;
  dial_results : list (string + Client);
}.

Definition auth_cacheKey (keyPath identityAgent : string) : string :=
  if negb (String.eqb identityAgent EmptyString)
  then (keyPath ++ "|" ++ identityAgent)%string
  else keyPath.

(** [LoadAuthMethods]; [loads] are the answers [loadSSHAuthMethods] has
    left to give. *)
Definition LoadAuthMethods (pool : SSHClientPool) (keyPath identityAgent : string)
  (loads : list (string + list AuthMethod))
  : Outcome (error * SSHClientPool * list (string + list AuthMethod)) :=
  let cacheKey := auth_cacheKey keyPath identityAgent in
  match authMethods pool !! cacheKey with
  | Some _ => Returns (None, pool, loads)
  | None =>
      match loads with
      | [] => Waits
      | inl msg :: rest =>
          Returns (Some ("failed to load SSH auth methods: " ++ msg)%string,
                   pool, rest)
      | inr methods :: rest =>
          Returns (None,
                   mkPool (clients pool)
                          (<[cacheKey := methods]> (authMethods pool))
                          (closedClients pool),
                   rest)
      end
  end.

(** [LoadAuthMethodsWithRetry]: tries again for as long as the agent's
    socket is not there. *)
Fixpoint LoadAuthMethodsWithRetry (fuel : nat) (pool : SSHClientPool)
  (keyPath identityAgent : string) (loads : list (string + list AuthMethod))
  : Outcome (error * SSHClientPool) :=
  match fuel with
  | O => Waits
  | S fuel' =>
      match LoadAuthMethods pool keyPath identityAgent loads with
      | Returns (None, pool', _) => Returns (None, pool')
      | Returns (Some errStr, pool', rest) =>
          let isAgentSocketError :=
            Go.Contains errStr "connection refused" ||
            Go.Contains errStr "no such file" in
          if negb isAgentSocketError
          then Returns (Some ("failed to load SSH auth methods: " ++ errStr)%string,
                        pool')
          else LoadAuthMethodsWithRetry fuel' pool' keyPath identityAgent rest
      | Panics msg => Panics msg
      | Waits => Waits
      end
  end.

Definition maxRetries : Z := 3.

(** The dial loop of [GetClient]. *)
Fixpoint dial_loop (jumpAddr : string) (attempt : Z)
  (dials : list (string + Client)) : Outcome (string + Client) :=
  match dials with
  | [] => Waits
  | inr client :: _ => Returns (inr client)
  | inl errStr :: rest =>
      let isAgentError :=
        Go.Contains errStr "agent:" || Go.Contains errStr "broken pipe" ||
        Go.Contains errStr "EOF" in
      if negb isAgentError || (attempt =? maxRetries)
      then Returns (inl ("failed to dial jump host " ++ jumpAddr ++ " (attempt " ++
                         Go.Itoa attempt ++ "/" ++ Go.Itoa maxRetries ++ "): " ++
                         errStr)%string)
      else dial_loop jumpAddr (attempt + 1) rest
  end.

Definition clientKey (jumpHost : string) (jumpPort : Z) : string :=
  (jumpHost ++ ":" ++ Go.Itoa jumpPort)%string.

Definition GetClient (pool : SSHClientPool) (jumpHost : string) (jumpPort : Z)
  (keyPath identityAgent : string) (env : ConnEnv)
  : Outcome ((string + Client) * SSHClientPool) :=
  let key := clientKey jumpHost jumpPort in
  match clients pool !! key with
  | Some client => Returns (inr client, pool)
  | None =>
      let cacheKey := auth_cacheKey keyPath identityAgent in
      let connect (pool : SSHClientPool) (methods : list AuthMethod)
        : Outcome ((string + Client) * SSHClientPool) :=
        match user_result env with
        | inl e => Returns (inl ("failed to get current user: " ++ e)%string, pool)
        | inr username =>
            match dial_loop key 1 (dial_results env) with
            | Returns (inl e) => Returns (inl e, pool)
            | Returns (inr client) =>
                Returns (inr client,
                         mkPool (<[key := client]> (clients pool))
                                (authMethods pool) (closedClients pool))
            | Panics msg => Panics msg
            | Waits => Waits
            end
        end in
      match authMethods pool !! cacheKey with
      | Some (m :: ms) => connect pool (m :: ms)
      | _ =>
          match LoadAuthMethodsWithRetry (S (length (auth_results env))) pool
                  keyPath identityAgent (auth_results env) with
          | Returns (Some e, pool') =>
              Returns (inl ("failed to load SSH auth methods: " ++ e)%string, pool')
          | Returns (None, pool') =>
              match authMethods pool' !! cacheKey with
              | Some (m :: ms) => connect pool' (m :: ms)
              | _ =>
                  Returns (inl ("no authentication methods available for key " ++
                                keyPath ++ " after loading")%string, pool')
              end
          | Panics msg => Panics msg
          | Waits => Waits
          end
      end
  end.

Definition RemoveClient (pool : SSHClientPool) (jumpHost : string) (jumpPort : Z)
  : SSHClientPool :=
  let key := clientKey jumpHost jumpPort in
  match clients pool !! key with
  | Some client =>
      mkPool (delete key (clients pool)) (authMethods pool)
             ({[client]} ∪ closedClients pool)
  | None => pool
  end.

(** [SSHClientPool.Close]: every client is closed; none is removed. *)
Definition PoolClose (pool : SSHClientPool) : SSHClientPool :=
  mkPool (clients pool) (authMethods pool)
         (list_to_set (map snd (map_to_list (clients pool))) ∪ closedClients pool).

(** ** forwarder.go *)

(** A buffered channel of status updates. *)
Record Chan : Type := mkChan {
  chan_buf : list StatusUpdate;
  chan_cap : nat;
  chan_closed : bool;
}.

(** [select { case ch <- u: default: }]: the update is queued when there is
    room and dropped when there is none; on a closed channel the send case
    is chosen and panics. *)
Definition try_send (ch : Chan) (u : StatusUpdate) : Outcome Chan :=
  if chan_closed ch then Panics "send on closed channel"
  else if (length (chan_buf ch) <? chan_cap ch)%nat
       then Returns (mkChan (chan_buf ch ++ [u]) (chan_cap ch) false)
       else Returns ch.

(** [close(ch)] *)
Definition close_chan (ch : Chan) : Outcome Chan :=
  if chan_closed ch then Panics "close of closed channel"
  else Returns (mkChan (chan_buf ch) (chan_cap ch) true).

(** The wall clock time [time.Now()] returns. *)
Record Clock : Type := mkClock { hour : Z; minute : Z; second : Z }.

Definition two_digits (n : Z) : string :=
  if n <? 10 then ("0" ++ Go.Itoa n)%string else Go.Itoa n.

(** [t.Format("15:04:05")] *)
Definition format_clock (t : Clock) : string :=
  (two_digits (hour t) ++ ":" ++ two_digits (minute t) ++ ":" ++
   two_digits (second t))%string.

Record DynamicForwarder : Type := mkDF {
  configPath : string;
  configs : list HostConfig.t;
  helperPath : string;                (* netSetup *)
  sshPool : SSHClientPool;
  cleanup : list Undo;
  running : bool;
  statusChan : Chan;
  errorCount : Z;
  lastErrors : list string;
  maxErrors : Z;
}.

Definition NewDynamicForwarder (configPath : string) (configs : list HostConfig.t)
  (helperPath : string) : DynamicForwarder :=
  {| configPath := configPath; configs := configs; helperPath := helperPath;
     sshPool := NewSSHClientPool; cleanup := []; running := false;
     statusChan := mkChan [] 10 false; errorCount := 0; lastErrors := [];
     maxErrors := 5 |}.

Definition set_errors (df : DynamicForwarder) (count : Z) (errs : list string)
  (ch : Chan) : DynamicForwarder :=
  mkDF (configPath df) (configs df) (helperPath df) (sshPool df) (cleanup df)
       (running df) ch count errs (maxErrors df).
Definition set_sshPool (df : DynamicForwarder) (pool : SSHClientPool)
  : DynamicForwarder :=
  mkDF (configPath df) (configs df) (helperPath df) pool (cleanup df)
       (running df) (statusChan df) (errorCount df) (lastErrors df) (maxErrors df).
Definition set_cleanup (df : DynamicForwarder) (c : list Undo) : DynamicForwarder :=
  mkDF (configPath df) (configs df) (helperPath df) (sshPool df) c
       (running df) (statusChan df) (errorCount df) (lastErrors df) (maxErrors df).
Definition set_running (df : DynamicForwarder) (b : bool) : DynamicForwarder :=
  mkDF (configPath df) (configs df) (helperPath df) (sshPool df) (cleanup df)
       b (statusChan df) (errorCount df) (lastErrors df) (maxErrors df).
Definition set_configs (df : DynamicForwarder) (c : list HostConfig.t)
  : DynamicForwarder :=
  mkDF (configPath df) c (helperPath df) (sshPool df) (cleanup df)
       (running df) (statusChan df) (errorCount df) (lastErrors df) (maxErrors df).

(** The text of the status [recordError] sends. *)
Definition degraded_message (count : Z) (err : string) : string :=
  (Go.Itoa count ++ " connection errors - " ++ err)%string.

(** [recordError], called at time [now] with an error whose text is [err]. *)
Definition recordError (df : DynamicForwarder) (now : Clock) (err : string)
  : Outcome DynamicForwarder :=
  let errMsg := (format_clock now ++ ": " ++ err)%string in
  let errs := (lastErrors df ++ [errMsg])%list in
  let errs := if maxErrors df <? Z.of_nat (length errs) then drop 1 errs else errs in
  let count := wrap (errorCount df + 1) in
  match try_send (statusChan df)
          (mkStatusUpdate StatusDegraded (degraded_message count err)) with
  | Returns ch => Returns (set_errors df count errs ch)
  | Panics msg => Panics msg
  | Waits => Waits
  end.

Definition clearErrors (df : DynamicForwarder) : DynamicForwarder :=
  set_errors df 0 [] (statusChan df).

Definition GetLastErrors (df : DynamicForwarder) : list string := lastErrors df.

(** The errors [Start] returns. *)
Inductive StartError : Type :=
| AlreadyRunning
| ReloadFailed (msg : string)
| SetupFailed (msg : string)
| ExpandFailed (displayName : string) (e : ConfigError)
| RedirectFailed (ip : string) (port : Z) (msg : string).

Section Forwarder.
Context {platform : Platform}.

Definition reloadConfig (df : DynamicForwarder) (src : ConfigSource)
  : error * DynamicForwarder :=
  match fst (LoadConfig src) with
  | inl e => (Some ("failed to reload config: " ++ e)%string, df)
  | inr hosts => (None, set_configs df hosts)
  end.

Definition setupNetwork (df : DynamicForwarder) (s : Sys)
  : error * DynamicForwarder * Sys :=
  match SetupNetwork (configs df) s with
  | ((_, Some e), s') => (Some e, df, s')
  | ((undos, None), s') => (None, set_cleanup df (cleanup df ++ undos), s')
  end.

Definition displayName (cfg : HostConfig.t) : string :=
  if (0 <? length (HostConfig.Hostnames cfg))%nat
  then (Go.Join (HostConfig.Hostnames cfg) ", " ++ " (" ++
        HostConfig.RemoteHost cfg ++ ")")%string
  else HostConfig.RemoteHost cfg.

(** The inner loop of [Start], over the ports of one host. *)
Fixpoint ports_loop (df : DynamicForwarder) (cfg : HostConfig.t) (ports : list Z)
  (s : Sys) : option StartError * DynamicForwarder * Sys :=
  match ports with
  | [] => (None, df, s)
  | port :: rest =>
      let fwdCfg := NewForwardConfig cfg port in
      if NeedsPFRedirect fwdCfg then
        match SetupPFRedirect (ForwardConfig.LocalIP fwdCfg)
                (ForwardConfig.Port fwdCfg) (ForwardConfig.ListenPort fwdCfg) s with
        | ((Some undo, None), s1) =>
            ports_loop (set_cleanup df (cleanup df ++ [undo])) cfg rest
                       (emit (EvListen fwdCfg) s1)
        | ((_, e), s1) =>
            (Some (RedirectFailed (ForwardConfig.LocalIP fwdCfg)
                     (ForwardConfig.Port fwdCfg) (default EmptyString e)), df, s1)
        end
      else ports_loop df cfg rest (emit (EvListen fwdCfg) s)
  end.

(** The outer loop of [Start], over the hosts. *)
Fixpoint hosts_loop (fuel : nat) (df : DynamicForwarder) (cfgs : list HostConfig.t)
  (s : Sys) : Outcome (option StartError * DynamicForwarder) * Sys :=
  match cfgs with
  | [] => (Returns (None, df), s)
  | cfg :: rest =>
      match ExpandPorts fuel cfg with
      | None => (Waits, s)
      | Some (inl e) => (Returns (Some (ExpandFailed (displayName cfg) e), df), s)
      | Some (inr ports) =>
          if (length ports =? 0)%nat then hosts_loop fuel df rest s
          else match ports_loop df cfg ports s with
               | (Some e, df1, s1) => (Returns (Some e, df1), s1)
               | (None, df1, s1) => hosts_loop fuel df1 rest s1
               end
      end
  end.

(** [Start].  [src] is what reading the configuration file gives, [fuel]
    bounds the iterations of each range loop of [ExpandPorts]. *)
Definition Start (df : DynamicForwarder) (src : ConfigSource) (fuel : nat) (s : Sys)
  : Outcome (option StartError * DynamicForwarder) * Sys :=
  if running df then (Returns (Some AlreadyRunning, df), s)
  else
    match reloadConfig df src with
    | (Some e, df0) => (Returns (Some (ReloadFailed e), df0), s)
    | (None, df0) =>
        let '(_, s1) := Cleanup s in
        match setupNetwork df0 s1 with
        | (Some e, df1, s2) => (Returns (Some (SetupFailed e), df1), s2)
        | (None, df1, s2) =>
            match hosts_loop fuel df1 (configs df1) s2 with
            | (Returns (None, df2), s3) =>
                let df3 := clearErrors (set_running df2 true) in
                let s4 := emit (EvRunning true) s3 in
                match try_send (statusChan df3)
                        (mkStatusUpdate StatusHealthy "Port forwarding started") with
                | Returns ch =>
                    (Returns (None, set_errors df3 (errorCount df3)
                                      (lastErrors df3) ch), s4)
                | Panics msg => (Panics msg, s4)
                | Waits => (Waits, s4)
                end
            | other => other
            end
        end
    end.

(** [Close] *)
Definition Close (df : DynamicForwarder) (s : Sys)
  : Outcome (error * DynamicForwarder) * Sys :=
  match close_chan (statusChan df) with
  | Panics msg => (Panics msg, s)
  | Waits => (Waits, s)
  | Returns ch =>
      let s1 := emit EvCloseStatusChan s in
      let pool := PoolClose (sshPool df) in
      let s2 := emit EvClosePool s1 in
      let s3 := fold_left (fun si undo => snd (run_undo undo si))
                          (rev (cleanup df)) s2 in
      (Returns (None,
                set_sshPool (set_errors df (errorCount df) (lastErrors df) ch) pool),
       s3)
  end.

(** [Stop] *)
Definition Stop (df : DynamicForwarder) (s : Sys)
  : Outcome (error * DynamicForwarder) * Sys :=
  if negb (running df) then (Returns (None, df), s)
  else Close (set_running df false) (emit (EvRunning false) s).

Definition IsRunning (df : DynamicForwarder) : bool := running df.

(** What the outside world answers during one [forwardConnection]. *)
Record HandlerEnv : Type := mkHandlerEnv {
  first_client : ConnEnv;    (* during the first GetClient *)
  first_dial : error;        (* sshClient.Dial("tcp", remoteAddr) *)
  second_client : ConnEnv;   (* during the GetClient after RemoveClient *)
  second_dial : error;       (* the second sshClient.Dial *)
  now : Clock;               (* time.Now() when an error is recorded *)
}.

Definition with_pool (df : DynamicForwarder)
  (r : Outcome ((string + Client) * SSHClientPool))
  (k : (string + Client) -> DynamicForwarder -> Outcome DynamicForwarder)
  : Outcome DynamicForwarder :=
  match r with
  | Returns (c, pool) => k c (set_sshPool df pool)
  | Panics msg => Panics msg
  | Waits => Waits
  end.

(** [forwardConnection]: the engine after the handler of one accepted
    connection has run to its end (the bytes spliced are not modelled). *)
Definition forwardConnection (df : DynamicForwarder) (cfg : ForwardConfig.t)
  (env : HandlerEnv) : Outcome DynamicForwarder :=
  let get (df : DynamicForwarder) (e : ConnEnv) :=
    GetClient (sshPool df) (ForwardConfig.JumpHost cfg) (ForwardConfig.JumpPort cfg)
              (ForwardConfig.KeyPath cfg) (ForwardConfig.IdentityAgent cfg) e in
  let remoteAddr :=
    (ForwardConfig.RemoteHost cfg ++ ":" ++ Go.Itoa (ForwardConfig.Port cfg))%string in
  with_pool df (get df (first_client env)) (fun c df1 =>
    match c with
    | inl e =>
        recordError df1 (now env)
          ("SSH client error for " ++ ForwardConfig.JumpHost cfg ++ ": " ++ e)
    | inr sshClient =>
        match first_dial env with
        | None => Returns df1
        | Some _ =>
            let df2 := set_sshPool df1
                         (RemoveClient (sshPool df1) (ForwardConfig.JumpHost cfg)
                                       (ForwardConfig.JumpPort cfg)) in
            with_pool df2 (get df2 (second_client env)) (fun c2 df3 =>
              match c2 with
              | inl e =>
                  recordError df3 (now env)
                    ("reconnect failed for " ++ ForwardConfig.JumpHost cfg ++
                     ": " ++ e)
              | inr sshClient2 =>
                  match second_dial env with
                  | None => Returns df3
                  | Some e =>
                      recordError df3 (now env)
                        ("dial failed for " ++ remoteAddr ++ ": " ++ e)
                  end
              end)
        end
    end).

End Forwarder.

(** ** Sequences of operations *)

(** Operations on the pool.  [pool_run] below runs them one after the
    other: each call has returned when the next one starts.  Calls that
    overlap are those of [sched_run], further down. *)
Inductive PoolOp : Type :=
| OpGet (jumpHost : string) (jumpPort : Z) (keyPath identityAgent : string)
        (env : ConnEnv)
| OpRemove (jumpHost : string) (jumpPort : Z)
| OpClose.



(** ** Calls of the pool that overlap

    The handlers of the connections are goroutines, so calls of the pool
    can overlap.  [RemoveClient] and [Close] hold [pool.mu] from beginning
    to end.  [GetClient] releases it in two places: around
    [LoadAuthMethodsWithRetry] (ssh.go:119-126) and around the sleep between
    two dials (ssh.go:185-187).  A call of [GetClient] is therefore a series
    of stretches: each stretch runs under [pool.mu], or, for one attempt of
    the loader, under [pool.authMu]; between two stretches of a call the
    stretches of other calls can run. *)

    (* the call has returned [r] ([None] for a call that returns nothing) *)














(** Operations on the error window. *)
Inductive ErrOp : Type :=
| OpRecord (now : Clock) (err : string)
| OpClear.

Definition err_step (df : DynamicForwarder) (op : ErrOp) : Outcome DynamicForwarder :=
  match op with
  | OpRecord now err => recordError df now err
  | OpClear => Returns (clearErrors df)
  end.

Fixpoint err_run (df : DynamicForwarder) (ops : list ErrOp)
  : Outcome DynamicForwarder :=
  match ops with
  | [] => Returns df
  | op :: rest =>
      match err_step df op with
      | Returns df1 => err_run df1 rest
      | Panics msg => Panics msg
      | Waits => Waits
      end
  end.

(** The formatted errors recorded since the last [clearErrors], none
    dropped, starting from [history]. *)
Definition recorded_since_clear (history : list string) (ops : list ErrOp)
  : list string :=
  fold_left (fun acc op =>
               match op with
               | OpRecord now err =>
                   (acc ++ [(format_clock now ++ ": " ++ err)%string])%list
               | OpClear => []
               end) ops history.

(** The number of [recordError] calls since the last [clearErrors], on top
    of [count]. *)
Definition count_since_clear (count : Z) (ops : list ErrOp) : Z :=
  fold_left (fun acc op =>
               match op with OpRecord _ _ => acc + 1 | OpClear => 0 end)
            ops count.

(** The Degraded updates the [recordError] calls of [ops] send, in order,
    when the counter starts at [count]. *)
Fixpoint degraded_updates (count : Z) (ops : list ErrOp) : list StatusUpdate :=
  match ops with
  | [] => []
  | OpRecord _ err :: rest =>
      mkStatusUpdate StatusDegraded (degraded_message (count + 1) err)
        :: degraded_updates (count + 1) rest
  | OpClear :: rest => degraded_updates 0 rest
  end.

(** A buffered channel after sends of [us] that do not block, with no
    receive in between: the updates are queued, in order, while the buffer
    has room, and the others are dropped. *)
Definition after_sends (ch : Chan) (us : list StatusUpdate) : Chan :=
  mkChan (chan_buf ch ++ take (chan_cap ch - length (chan_buf ch)) us)
         (chan_cap ch) (chan_closed ch).

(** The last [n] elements of a list. *)
Definition last_n {A : Type} (n : nat) (l : list A) : list A :=
  drop (length l - n)%nat l.

(** ** The order of the effects of [Stop] *)

(** The events of a trace that are not helper invocations. *)
Definition order_events (tr : list Event) : list Event :=
  List.filter (fun e => match e with EvHelper _ => false | _ => true end) tr.

(** The order of section 4.5 of the specification: not-running, the undos
    last to first, the pool, the status channel last. *)
Definition spec_Stop_order (df : DynamicForwarder) : list Event :=
  [EvRunning false] ++ map EvUndo (rev (cleanup df)) ++
  [EvClosePool; EvCloseStatusChan].

(** The order of [Stop] and [Close] in forwarder.go. *)
Definition code_Stop_order (df : DynamicForwarder) : list Event :=
  [EvRunning false; EvCloseStatusChan; EvClosePool] ++
  map EvUndo (rev (cleanup df)).

(** The helper invocations that set something up. *)
Definition is_setup_event (e : Event) : bool :=
  match e with
  | EvHelper (command :: _) =>
      String.eqb command "add-alias" || String.eqb command "add-host" ||
      String.eqb command "add-pf-redirect"
  | EvListen _ => true
  | _ => false
  end.

(** The three invocations of the bulk cleanup. *)
Definition bulk_cleanup_events : list Event :=
  [EvHelper ["remove-pf-redirects"]; EvHelper ["remove-hosts"];
   EvHelper ["remove-aliases"]].

(** ** The range strings of the specification *)

(** A number as the specification writes it: an optional sign and decimal
    digits; the rest of the string after it. *)
Definition spec_number (s : string) : option string :=
  let '(_, s1) := Go.accept_sign s in
  match Go.span_digits s1 with
  | (EmptyString, _) => None
  | (_, rest) => Some rest
  end.

(** A range string of the form [A-B]: a number, a dash, a number and
    nothing else. *)
Definition spec_range_syntax (s : string) : bool :=
  match spec_number s with
  | Some (String c rest) =>
      Ascii.eqb c "-" &&
      match spec_number rest with
      | Some EmptyString => true
      | _ => false
      end
  | _ => false
  end.

(** The elements on which [ExpandPorts] returns an error. *)
Definition bad_spec (spec : PortSpec) : bool :=
  match spec with
  | PortInt _ => false
  | PortString v =>
      match Go.Sscanf_d_dash_d v with
      | None => true
      | Some (start, end_) => end_ <? start
      end
  | PortOther _ => true
  end.

(** The elements the claim of the specification calls invalid. *)
Definition spec_bad_spec (spec : PortSpec) : bool :=
  match spec with
  | PortInt _ => false
  | PortString v =>
      negb (spec_range_syntax v) ||
      match Go.Sscanf_d_dash_d v with
      | Some (start, end_) => end_ <? start
      | None => false
      end
  | PortOther _ => true
  end.

(** A range whose loop runs into the largest [int]. *)
Definition endless_spec (spec : PortSpec) : bool :=
  match spec with
  | PortString v =>
      match Go.Sscanf_d_dash_d v with
      | Some (start, end_) => (start <=? end_) && (end_ =? int_max)
      | None => false
      end
  | _ => false
  end.

(** ** The engine and its connection handlers, interleaved *)

Global Instance ForwardConfig_eq_dec : EqDecision ForwardConfig.t.
Proof. solve_decision. Defined.

Inductive Action : Type :=
| ActStart (src : ConfigSource) (fuel : nat)
| ActStop
| ActAccept (cfg : ForwardConfig.t)   (* a listener accepts a connection *)
| ActHandle (cfg : ForwardConfig.t) (env : HandlerEnv).
                                      (* the handler of a connection runs *)

Record System : Type := mkSystem {
  engine : DynamicForwarder;
  host : Sys;
  (** the accepted connections whose handler has not run yet *)
  accepted : list ForwardConfig.t;
  (** the panic that ended the process, if any *)
  crashed : option string;
}.

Section Interleaving.
Context {platform : Platform}.

(** One action; [None] when the action cannot happen in this state. *)
Definition sys_step (st : System) (a : Action) : option System :=
  match crashed st with
  | Some _ => None
  | None =>
      match a with
      | ActStart src fuel =>
          match Start (engine st) src fuel (host st) with
          | (Returns (_, df), s) => Some (mkSystem df s (accepted st) None)
          | (Panics msg, s) => Some (mkSystem (engine st) s (accepted st) (Some msg))
          | (Waits, _) => None
          end
      | ActStop =>
          match Stop (engine st) (host st) with
          | (Returns (_, df), s) => Some (mkSystem df s (accepted st) None)
          | (Panics msg, s) => Some (mkSystem (engine st) s (accepted st) (Some msg))
          | (Waits, _) => None
          end
      | ActAccept cfg =>
          if existsb (fun e => match e with
                               | EvListen c => bool_decide (c = cfg)
                               | _ => false
                               end) (trace (host st))
          then Some (mkSystem (engine st) (host st) (cfg :: accepted st) None)
          else None
      | ActHandle cfg env =>
          if bool_decide (cfg ∈ accepted st) then
            match forwardConnection (engine st) cfg env with
            | Returns df =>
                Some (mkSystem df (host st)
                        (list_difference (accepted st) [cfg]) None)
            | Panics msg =>
                Some (mkSystem (engine st) (host st) (accepted st) (Some msg))
            | Waits => None
            end
          else None
      end
  end.

Fixpoint sys_run (st : System) (actions : list Action) : option System :=
  match actions with
  | [] => Some st
  | a :: rest =>
      match sys_step st a with
      | Some st' => sys_run st' rest
      | None => None
      end
  end.

End Interleaving.

(** ** A platform for the examples *)

Fixpoint string_forallb (f : ascii -> bool) (s : string) : bool :=
  match s with
  | EmptyString => true
  | String c s' => f c && string_forallb f s'
  end.

(** One field of a dotted-quad literal: one to three digits, no leading
    zero, at most 255. *)
Definition octet (s : string) : option Z :=
  if ((1 <=? String.length s) && (String.length s <=? 3))%nat &&
     string_forallb Go.is_digit s &&
     negb ((1 <? String.length s)%nat && Go.HasPrefix s "0")
  then match NilEmpty.uint_of_string s with
       | Some u => if Z.of_uint u <=? 255 then Some (Z.of_uint u) else None
       | None => None
       end
  else None.

(** [net.ParseIP] on dotted-quad IPv4 literals; no other literal is known
    to this platform. *)
Definition parse_ipv4 (s : string) : option (list Z) :=
  if string_forallb (fun c => Go.is_digit c || Ascii.eqb c "."%char) s then
    match Go.Split s "."%char with
    | [a; b; c; d] =>
        match octet a, octet b, octet c, octet d with
        | Some a, Some b, Some c, Some d =>
            Some [0;0;0;0;0;0;0;0;0;0;255;255;a;b;c;d]
        | _, _, _, _ => None
        end
    | _ => None
    end
  else None.

(** ** Notions the statements use *)

(** A string without a line feed. *)
Definition one_line (s : string) : bool :=
  string_forallb (fun c => negb (Ascii.eqb c Go.newline)) s.

(** The line [addHost] appends, without its line feed. *)
Definition hosts_entry (ip hostname : string) : string :=
  (ip ++ " " ++ hostname ++ " " ++ hostsMarker)%string.

(** The number of lines of the resolver file that match the pair. *)
Definition matching_lines (ip hostname : string) (w : World) : nat :=
  length (List.filter (line_matches ip hostname)
            (Go.Split (hostsFile w) Go.newline)).

(** A trace made of setup invocations and listener starts only. *)
Definition setup_only (tr : list Event) : Prop := forallb is_setup_event tr = true.

(** The engine's fields the loops of [Start] leave alone. *)
Definition same_but_cleanup (df df' : DynamicForwarder) : Prop :=
  running df' = running df /\ statusChan df' = statusChan df /\
  configs df' = configs df /\ exists undos, cleanup df' = cleanup df ++ undos.

Definition digit_or_minus (c : ascii) : bool :=
  Go.is_digit c || Ascii.eqb c "-".

(** The start of a string that is not a digit. *)
Definition no_digit_head (s : string) : bool :=
  match s with
  | EmptyString => true
  | String c _ => negb (Go.is_digit c)
  end.

Definition first_byte_not (f : ascii -> bool) (q : string) : bool :=
  match q with
  | EmptyString => false
  | String b _ => negb (f b)
  end.

Definition no_colon (s : string) : bool :=
  string_forallb (fun c => negb (Ascii.eqb c ":")) s.

(** [portsMap[p] = true] for each port of a list, in order. *)
Definition mark_all (ports : list Z) (portsMap : gmap Z bool) : gmap Z bool :=
  fold_left (fun acc p => <[p := true]> acc) ports portsMap.

(** The ports an element stands for: itself, or the ports of its range. *)
Definition ports_of (spec : PortSpec) : list Z :=
  match spec with
  | PortInt v => [v]
  | PortString v =>
      match Go.Sscanf_d_dash_d v with
      | Some (start, end_) => seqZ start (end_ + 1 - start)
      | None => []
      end
  | PortOther _ => []
  end.

Definition all_ports (specs : list PortSpec) : list Z :=
  concat (map ports_of specs).

Definition with_ports (config : HostConfig.t) (specs : list PortSpec)
  : HostConfig.t :=
  HostConfig.mk (HostConfig.LocalIP config) (HostConfig.Hostnames config)
    (HostConfig.RemoteHost config) (HostConfig.JumpHost config)
    (HostConfig.JumpPort config) (HostConfig.KeyPath config)
    (HostConfig.IdentityAgent config) specs.

(** ** Examples *)

(** A platform whose [net.ParseIP] knows the dotted-quad literals and whose
    maps are visited in the order of their list of keys. *)
Definition example_platform : Platform :=
  {| net_ParseIP := parse_ipv4;
     map_order := fun keys => keys;
     map_order_perm := fun keys => Permutation_refl keys |}.

Definition example_host (ports : list PortSpec) : HostConfig.t :=
  HostConfig.mk "127.0.0.2" [] "app.internal.example.com" "jump.example.com" 0
                EmptyString EmptyString ports.

Definition example_clock : Clock := mkClock 9 5 3.

Definition example_err_ops : list ErrOp :=
  [OpRecord example_clock "e1"; OpClear; OpRecord example_clock "e2";
   OpRecord example_clock "e3"; OpRecord example_clock "e4";
   OpRecord example_clock "e5"; OpRecord example_clock "e6";
   OpRecord example_clock "e7"].

Definition example_world (hosts : string) : World :=
  mkWorld ["127.0.0.1"] None hosts None
    ("scrub-anchor " ++ dquote ++ "com.apple/*" ++ dquote ++ nl ++
     appleRef ++ nl ++ "dummynet-anchor" ++ nl)%string
    EmptyString false.

(** [Start] on a new engine whose configuration file has one host,
    [127.0.0.2], with the given ports. *)
Definition example_start (ports : list PortSpec)
  : Outcome (option StartError * DynamicForwarder) * Sys :=
  @Start example_platform
    (NewDynamicForwarder "config.yaml" [] "bin/portsmith-helper")
    (Parsed [example_host ports]) 100
    (mkSys (example_world ("127.0.0.1 localhost" ++ nl)) []).

Definition started_engine : DynamicForwarder :=
  match example_start [PortInt 22; PortInt 8080] with
  | (Returns (_, df), _) => df
  | _ => NewDynamicForwarder "config.yaml" [] "bin/portsmith-helper"
  end.

Definition started_host : Sys :=
  mkSys (world (snd (example_start [PortInt 22; PortInt 8080]))) [].

(** The started example after [Stop]. *)
Definition stopped_engine : DynamicForwarder :=
  match @Stop example_platform started_engine started_host with
  | (Returns (_, df), _) => df
  | _ => started_engine
  end.

Definition dial_gives (c : Client) : ConnEnv :=
  mkConnEnv [inr [PublicKeys; KeyboardInteractive]] (inr "alice") [inr c].




(** A key file that cannot be read: a failure the loader does not retry. *)
Definition no_key : ConnEnv :=
  mkConnEnv [inl "open /Users/alice/.ssh/id_rsa: permission denied"]
            (inr "alice") [].

Definition failing_handler : HandlerEnv :=
  mkHandlerEnv no_key None no_key None example_clock.

(** The endpoint of port 8080 of the started example. *)
Definition example_endpoint : ForwardConfig.t :=
  NewForwardConfig
    (fst (@host_defaults example_platform (example_host [PortInt 22; PortInt 8080])))
    8080.

Definition example_system : System :=
  mkSystem (NewDynamicForwarder "config.yaml" [] "bin/portsmith-helper")
           (mkSys (example_world ("127.0.0.1 localhost" ++ nl)) []) [] None.

(** Scenario A of the specification. *)
Definition scenario_A : HostConfig.t :=
  example_host [PortInt 80; PortInt 443; PortString "5432-5433"; PortInt 80].

(** ** Further parts of the sources *)

(** *** ssh.go: [ExpandKeyPath] and [loadSSHAuthMethods] *)

(** [ExpandKeyPath]; [homeDir] is what [os.UserHomeDir()] gives: the text
    of its error, or the directory. *)
Definition ExpandKeyPath (homeDir : string + string) (keyPath : string)
  : string + string :=
  if Go.HasPrefix keyPath "~/" then
    match homeDir with
    | inl e => inl ("failed to get home directory: " ++ e)%string
    | inr home => inr (home ++ Go.drop_string 1 keyPath)%string
    end
  else if String.eqb keyPath "~" then
    match homeDir with
    | inl e => inl ("failed to get home directory: " ++ e)%string
    | inr home => inr home
    end
  else inr keyPath.

(** What [ssh.ParsePrivateKey] says of the bytes of a key file. *)
Inductive KeyParse : Type :=
| KeyParsed
| PassphraseMissing
| KeyParseError (msg : string).

(** What [loadSSHAuthMethods] finds around it. *)
Record AuthEnv : Type := mkAuthEnv {
  (** [os.UserHomeDir()] *)
  env_homeDir : string + string;
  (** [os.Getenv("SSH_AUTH_SOCK")] *)
  env_SSH_AUTH_SOCK : string;
  (** [net.Dial("unix", socket)], then [agentClient.Signers()]: the error
      of the dial, or the error of the listing, or the number of signers *)
  env_agent : string -> string + (string + nat);
  (** [os.ReadFile] *)
  env_ReadFile : string -> string + string;
  (** [ssh.ParsePrivateKey] *)
  env_ParsePrivateKey : string -> KeyParse;
  (** [term.ReadPassword] *)
  env_ReadPassword : string + string;
  (** [ssh.ParsePrivateKeyWithPassphrase] *)
  env_ParsePrivateKeyWithPassphrase : string -> string -> error;
}.

(** The socket [loadSSHAuthMethods] asks: the configured identity agent
    first, [SSH_AUTH_SOCK] otherwise; empty when there is none. *)
Definition agent_socket (env : AuthEnv) (identityAgent : string) : string :=
  let agentSocket :=
    if negb (String.eqb identityAgent EmptyString) then
      match ExpandKeyPath (env_homeDir env) identityAgent with
      | inl _ => EmptyString
      | inr expandedAgent => expandedAgent
      end
    else EmptyString in
  if String.eqb agentSocket EmptyString then
    if negb (String.eqb (env_SSH_AUTH_SOCK env) EmptyString)
    then env_SSH_AUTH_SOCK env
    else agentSocket
  else agentSocket.

(** The second half of [loadSSHAuthMethods]: the key file. *)
Definition load_key_file (env : AuthEnv) (keyPath : string)
  : string + list AuthMethod :=
  match ExpandKeyPath (env_homeDir env) keyPath with
  | inl e => inl e
  | inr keyPath =>
      match env_ReadFile env keyPath with
      | inl e => inl ("could not read key file " ++ keyPath ++ ": " ++ e)%string
      | inr key =>
          match env_ParsePrivateKey env key with
          | KeyParsed => inr [PublicKeys; KeyboardInteractive]
          | PassphraseMissing =>
              match env_ReadPassword env with
              | inl e => inl ("failed to read passphrase: " ++ e)%string
              | inr passphrase =>
                  match env_ParsePrivateKeyWithPassphrase env key passphrase with
                  | Some e =>
                      inl ("failed to decrypt key with passphrase: " ++ e)%string
                  | None => inr [PublicKeys; KeyboardInteractive]
                  end
              end
          | KeyParseError e =>
              inl ("could not parse key file " ++ keyPath ++ ": " ++ e)%string
          end
      end
  end.

(** The first half of [loadSSHAuthMethods]: whether the agent is there and
    lists at least one signer. *)
Definition agent_has_keys (env : AuthEnv) (identityAgent : string) : bool :=
  let agentSocket := agent_socket env identityAgent in
  if negb (String.eqb agentSocket EmptyString) then
    match env_agent env agentSocket with
    | inr (inr signers) => (0 <? signers)%nat
    | _ => false
    end
  else false.

Definition loadSSHAuthMethods (env : AuthEnv) (keyPath identityAgent : string)
  : string + list AuthMethod :=
  if agent_has_keys env identityAgent then inr [PublicKeys; KeyboardInteractive]
  else load_key_file env keyPath.

(** The answers of [n] calls of [loadSSHAuthMethods], one after the other,
    in an environment that stays as it is. *)
Definition auth_answers (env : AuthEnv) (keyPath identityAgent : string) (n : nat)
  : list (string + list AuthMethod) :=
  repeat (loadSSHAuthMethods env keyPath identityAgent) n.

(** *** config.go: [FindConfigPath] *)

Definition DefaultConfigPath : string := "config.yaml".
Definition GlobalConfigPath : string := "~/.config/portsmith/config.yaml".

(** [FindConfigPath]; [stat path] tells whether [os.Stat(path)] returns no
    error. *)
Definition FindConfigPath (stat : string -> bool) (homeDir : string + string)
  : string + string :=
  if stat DefaultConfigPath then inr DefaultConfigPath
  else
    match ExpandKeyPath homeDir GlobalConfigPath with
    | inl e => inl ("failed to expand global config path: " ++ e)%string
    | inr globalPath =>
        if stat globalPath then inr globalPath
        else inl ("no config file found. Searched:" ++ nl ++ "  - " ++
                  DefaultConfigPath ++ " (current directory)" ++ nl ++ "  - " ++
                  GlobalConfigPath ++ " (global config)")%string
    end.

(** ** Notions the further statements use *)

(** The error [ExpandPorts] returns on an element, if it returns one. *)
Definition spec_error (spec : PortSpec) : option ConfigError :=
  match spec with
  | PortInt _ => None
  | PortString v =>
      match Go.Sscanf_d_dash_d v with
      | None => Some (InvalidRangeFormat v)
      | Some (start, end_) =>
          if end_ <? start then Some (ReversedRange v start end_) else None
      end
  | PortOther goType => Some (InvalidPortSpec goType)
  end.

(** The listeners a trace starts, in order. *)
Definition listeners (tr : list Event) : list ForwardConfig.t :=
  omap (fun e => match e with EvListen cfg => Some cfg | _ => None end) tr.

(** The helper invocations of a trace, in order. *)
Definition helper_calls (tr : list Event) : list (list string) :=
  omap (fun e => match e with EvHelper args => Some args | _ => None end) tr.

(** The undo closures [SetupNetwork] returns for one host. *)
Definition host_undos (config : HostConfig.t) : list Undo :=
  [UndoLoopbackAlias (HostConfig.LocalIP config);
   if (length (HostConfig.Hostnames config) =? 0)%nat then UndoNothing
   else UndoHostsEntries (HostConfig.LocalIP config) (HostConfig.Hostnames config)].

(** The endpoints of a host whose ports are [ports]. *)
Definition endpoints (cfg : HostConfig.t) (ports : list Z) : list ForwardConfig.t :=
  map (NewForwardConfig cfg) ports.

(** The undo closures of the redirects [Start] sets up for these endpoints. *)
Definition redirect_undos (fwds : list ForwardConfig.t) : list Undo :=
  map (fun fc => UndoPFRedirect (ForwardConfig.LocalIP fc) (ForwardConfig.Port fc)
                                (ForwardConfig.ListenPort fc))
      (List.filter NeedsPFRedirect fwds).

(** ** Further examples *)

(** A machine with an agent that holds two keys and no key file. *)
Definition example_auth_env : AuthEnv :=
  {| env_homeDir := inr "/Users/alice";
     env_SSH_AUTH_SOCK := "/tmp/ssh-agent.sock";
     env_agent := fun socket =>
       if String.eqb socket "/Users/alice/agent.sock" then inr (inr 2%nat)
       else inl "dial unix: connect: connection refused";
     env_ReadFile := fun path =>
       inl ("open " ++ path ++ ": no such file or directory")%string;
     env_ParsePrivateKey := fun _ => KeyParsed;
     env_ReadPassword := inl "inappropriate ioctl for device";
     env_ParsePrivateKeyWithPassphrase := fun _ _ => None |}.

(** The same machine without any agent. *)
Definition no_agent_env : AuthEnv :=
  {| env_homeDir := inr "/Users/alice";
     env_SSH_AUTH_SOCK := EmptyString;
     env_agent := fun _ => inl "dial unix: connect: connection refused";
     env_ReadFile := fun path =>
       inl ("open " ++ path ++ ": no such file or directory")%string;
     env_ParsePrivateKey := fun _ => KeyParsed;
     env_ReadPassword := inl "inappropriate ioctl for device";
     env_ParsePrivateKeyWithPassphrase := fun _ _ => None |}.

(** ** The events of a successful [Start] *)

(** The helper invocations [SetupNetwork] makes for one host. *)
Definition host_setup_events (config : HostConfig.t) : list Event :=
  EvHelper ["add-alias"; HostConfig.LocalIP config] ::
  map (fun hostname => EvHelper ["add-host"; HostConfig.LocalIP config; hostname])
      (HostConfig.Hostnames config).

(** What [Start] does for one endpoint: the redirect of a privileged port,
    then the listener. *)
Definition endpoint_events (fc : ForwardConfig.t) : list Event :=
  (if NeedsPFRedirect fc
   then [EvHelper ["add-pf-redirect"; ForwardConfig.LocalIP fc;
                   Go.Itoa (ForwardConfig.Port fc);
                   Go.Itoa (ForwardConfig.ListenPort fc)]]
   else []) ++ [EvListen fc].

(** The endpoints of the hosts [cfgs] whose expanded ports are [portss]. *)
Definition all_endpoints (cfgs : list HostConfig.t) (portss : list (list Z))
  : list ForwardConfig.t :=
  concat (zip_with endpoints cfgs portss).

(** The status [Start] sends when it has succeeded. *)
Definition started_status : StatusUpdate :=
  mkStatusUpdate StatusHealthy "Port forwarding started".

(** A channel after a send that does not block: the update is queued if
    there is room. *)
Definition after_send (ch : Chan) (u : StatusUpdate) : Chan :=
  if (length (chan_buf ch) <? chan_cap ch)%nat
  then mkChan (chan_buf ch ++ [u]) (chan_cap ch) false
  else ch.

(** A configuration whose second host has an address outside the loopback
    network. *)
Definition bad_second_host : list HostConfig.t :=
  [example_host [PortInt 8080];
   HostConfig.mk "10.0.0.7" ["db.internal"] "db.internal" "jump.example.com" 22
                 "~/.ssh/id_rsa" EmptyString [PortInt 5432]].

(** [Start] with the configuration whose second host is refused. *)
Definition example_failed_start
  : Outcome (option StartError * DynamicForwarder) * Sys :=
  @Start example_platform
    (NewDynamicForwarder "config.yaml" [] "bin/portsmith-helper")
    (Parsed bad_second_host) 100
    (mkSys (example_world ("127.0.0.1 localhost" ++ nl)) []).

(** The started example with a client for the jump host in its pool. *)
Definition busy_engine : DynamicForwarder :=
  set_sshPool started_engine
    (mkPool {[clientKey "jump.example.com" 22 := 7%nat]}
            {["~/.ssh/id_rsa" := [PublicKeys; KeyboardInteractive]]} ∅).

(** A handler whose first dial fails and whose second dial succeeds on a
    new client. *)
Definition stale_handler : HandlerEnv :=
  mkHandlerEnv (dial_gives 7%nat) (Some "EOF")
               (mkConnEnv [] (inr "alice") [inr 9%nat]) None example_clock.

(** The lines [strings.Split] finds in a file that was written by joining
    the lines [kept]: those lines, or one empty line when there is none. *)
Definition written_lines (kept : list string) : list string :=
  match kept with
  | [] => [EmptyString]
  | _ :: _ => kept
  end.

(** ** Text without white space *)

(** The byte of a printable ASCII character other than the space: no byte
    of the white space [strings.TrimSpace] removes is one. *)
Definition plain_byte (c : ascii) : bool :=
  let n := nat_of_ascii c in (33 <=? n)%nat && (n <=? 126)%nat.

(** A string that starts with such a byte. *)
Definition head_plain (s : string) : bool :=
  match s with
  | String c _ => plain_byte c
  | EmptyString => false
  end.

(** A string that is not empty and made of such bytes. *)
Definition plain (s : string) : bool :=
  head_plain s && string_forallb plain_byte s.

(** The registry as the helper writes it: one address per line. *)
Definition registry_text (aliases : list string) : string :=
  String.concat EmptyString (map (fun ip => ip ++ nl)%string aliases).

(** The registry lists [aliases], each once, in the helper's own format, or
    does not exist and lists nothing. *)
Definition registry_lists (w : World) (aliases : list string) : Prop :=
  Forall (fun ip => plain ip = true) aliases /\ NoDup aliases /\
  (aliasesFile w = Some (registry_text aliases) \/
   aliasesFile w = None /\ aliases = []).

(** A host whose [/etc/pf.conf] has no [rdr-anchor] line of [com.apple]. *)
Definition bare_pf_world : World :=
  mkWorld ["127.0.0.1"] None ("127.0.0.1 localhost" ++ nl)%string None
          ("scrub-anchor " ++ dquote ++ "com.apple/*" ++ dquote ++ nl ++
           "anchor " ++ dquote ++ "com.apple/*" ++ dquote ++ nl)%string
          EmptyString false.

(** [Start] on a new engine with two hosts: the first has a privileged
    port, the port list of the second has a reversed range. *)
Definition example_start_reversed
  : Outcome (option StartError * DynamicForwarder) * Sys :=
  @Start example_platform
    (NewDynamicForwarder "config.yaml" [] "bin/portsmith-helper")
    (Parsed [example_host [PortInt 22; PortInt 8080];
             HostConfig.mk "127.0.0.3" ["db.internal"] "db.internal"
                           "jump.example.com" 22 "~/.ssh/id_rsa" EmptyString
                           [PortInt 5432; PortString "100-50"]])
    100
    (mkSys (example_world ("127.0.0.1 localhost" ++ nl)) []).


(* ===================================================================== *)
(** * Part II: properties                                                  *)
(* ===================================================================== *)

(** ** Byte strings *)

Lemma append_cons (a : ascii) (s t : string) :
  (String a s ++ t)%string = String a (s ++ t)%string.
Proof. reflexivity. Qed.

Lemma append_nil_l (t : string) : (EmptyString ++ t)%string = t.
Proof. reflexivity. Qed.

Lemma append_nil_r (s : string) : (s ++ EmptyString)%string = s.
Proof. induction s as [|a s IH]; [reflexivity|]. rewrite append_cons, IH. reflexivity. Qed.

Lemma append_assoc (s t u : string) :
  ((s ++ t) ++ u)%string = (s ++ (t ++ u))%string.
Proof.
  induction s as [|a s IH]; [reflexivity|].
  rewrite !append_cons, IH. reflexivity.
Qed.

Lemma prefix_nil (s : string) : String.prefix EmptyString s = true.
Proof. destruct s; reflexivity. Qed.

Lemma prefix_cons (a b : ascii) (s t : string) :
  String.prefix (String a s) (String b t) =
  if Ascii.eqb a b then String.prefix s t else false.
Proof.
  simpl. destruct (Ascii.ascii_dec a b) as [->|Hne].
  - rewrite Ascii.eqb_refl. reflexivity.
  - apply Ascii.eqb_neq in Hne. rewrite Hne. reflexivity.
Qed.

Lemma prefix_app (s t : string) : String.prefix s (s ++ t) = true.
Proof.
  induction s as [|a s IH]; [apply prefix_nil|].
  rewrite append_cons, prefix_cons, Ascii.eqb_refl. exact IH.
Qed.

Lemma prefix_app_l (sub s t : string) :
  String.prefix sub s = true -> String.prefix sub (s ++ t) = true.
Proof.
  revert s. induction sub as [|a sub IH]; intros s H.
  - apply prefix_nil.
  - destruct s as [|b s]; [discriminate|].
    rewrite append_cons, prefix_cons. rewrite prefix_cons in H.
    destruct (Ascii.eqb a b); [auto|discriminate].
Qed.

Lemma Contains_cons (a : ascii) (s sub : string) :
  Go.Contains (String a s) sub =
  String.prefix sub (String a s) || Go.Contains s sub.
Proof. reflexivity. Qed.

Lemma Contains_app_r (s t sub : string) :
  Go.Contains t sub = true -> Go.Contains (s ++ t) sub = true.
Proof.
  intros H. induction s as [|a s IH]; [exact H|].
  rewrite append_cons, Contains_cons, IH. apply orb_true_r.
Qed.

Lemma Contains_app_l (s t sub : string) :
  Go.Contains s sub = true -> Go.Contains (s ++ t) sub = true.
Proof.
  induction s as [|a s IH]; intros H.
  - simpl in H. rewrite orb_false_r in H.
    destruct sub; [|discriminate].
    destruct t; reflexivity.
  - rewrite append_cons, Contains_cons. rewrite Contains_cons in H.
    apply orb_true_iff in H as [H|H].
    + change (String a (s ++ t)%string) with (String a s ++ t)%string.
      rewrite (prefix_app_l _ _ _ H). reflexivity.
    + rewrite (IH H). apply orb_true_r.
Qed.

Lemma Contains_here (sub t : string) : Go.Contains (sub ++ t) sub = true.
Proof.
  destruct sub as [|a sub]; [destruct t; reflexivity|].
  rewrite append_cons, Contains_cons.
  change (String a (sub ++ t)%string) with (String a sub ++ t)%string.
  rewrite prefix_app. reflexivity.
Qed.

Lemma Contains_nil_l (sub : string) :
  Go.Contains EmptyString sub = true -> sub = EmptyString.
Proof. simpl. rewrite orb_false_r. destruct sub; [reflexivity|discriminate]. Qed.

Lemma Contains_nl (s : string) : Go.Contains s nl = negb (one_line s).
Proof.
  induction s as [|a s IH]; [reflexivity|].
  rewrite Contains_cons, IH. unfold nl, one_line. simpl string_forallb.
  rewrite prefix_cons, prefix_nil, (Ascii.eqb_sym Go.newline a).
  destruct (Ascii.eqb a Go.newline); reflexivity.
Qed.

Lemma one_line_app (s t : string) :
  one_line (s ++ t) = one_line s && one_line t.
Proof.
  unfold one_line. induction s as [|a s IH]; [reflexivity|].
  rewrite append_cons. simpl. rewrite IH. apply andb_assoc.
Qed.

Lemma Split_nonempty (s : string) (sep : ascii) : Go.Split s sep <> [].
Proof.
  destruct s as [|a s]; simpl; [discriminate|].
  destruct (Ascii.eqb a sep); [discriminate|].
  destruct (Go.Split s sep); discriminate.
Qed.

Lemma Split_one_line (s : string) :
  one_line s = true -> Go.Split s Go.newline = [s].
Proof.
  unfold one_line. induction s as [|a s IH]; [reflexivity|].
  simpl. intros H. apply andb_true_iff in H as [Ha Hs].
  apply negb_true_iff in Ha. rewrite Ha, (IH Hs). reflexivity.
Qed.

(** Splitting at a separator splits the list of pieces. *)
Lemma Split_app_sep (s t : string) (sep : ascii) :
  Go.Split (s ++ String sep t) sep = (Go.Split s sep ++ Go.Split t sep)%list.
Proof.
  induction s as [|a s IH].
  - rewrite append_nil_l. simpl. rewrite Ascii.eqb_refl. reflexivity.
  - rewrite append_cons. simpl. rewrite IH.
    destruct (Ascii.eqb a sep); [reflexivity|].
    destruct (Go.Split s sep) eqn:E; [exfalso; exact (Split_nonempty _ _ E)|].
    reflexivity.
Qed.

(** Joining the pieces with the separator gives the string back. *)
Lemma Join_Split (s : string) : Go.Join (Go.Split s Go.newline) nl = s.
Proof.
  unfold Go.Join. induction s as [|a s IH]; [reflexivity|].
  simpl Go.Split. destruct (Ascii.eqb a Go.newline) eqn:Ea.
  - apply Ascii.eqb_eq in Ea. subst a.
    destruct (Go.Split s Go.newline) eqn:E;
      [exfalso; exact (Split_nonempty _ _ E)|].
    change (String.concat nl (EmptyString :: s0 :: l))
      with (EmptyString ++ nl ++ String.concat nl (s0 :: l))%string.
    rewrite IH. reflexivity.
  - destruct (Go.Split s Go.newline) as [|p ps] eqn:E;
      [exfalso; exact (Split_nonempty _ _ E)|].
    destruct ps as [|q ps].
    + simpl in IH. simpl. rewrite IH. reflexivity.
    + change (String.concat nl (String a p :: q :: ps))
        with (String a p ++ nl ++ String.concat nl (q :: ps))%string.
      change (String.concat nl (p :: q :: ps))
        with (p ++ nl ++ String.concat nl (q :: ps))%string in IH.
      rewrite append_cons, IH. reflexivity.
Qed.

Lemma drop_string_all (s : string) : Go.drop_string (String.length s) s = EmptyString.
Proof. induction s; simpl; auto. Qed.

(** A string with the suffix ["\n"] ends with a line feed. *)
Lemma HasSuffix_nl_inv (s : string) :
  Go.HasSuffix s nl = true -> exists c, s = (c ++ nl)%string.
Proof.
  unfold Go.HasSuffix, nl. simpl String.length.
  induction s as [|a s IH]; [discriminate|].
  intros H. apply andb_true_iff in H as [_ H].
  simpl String.length in H. rewrite Nat.sub_succ, Nat.sub_0_r in H.
  destruct s as [|b s].
  - apply String.eqb_eq in H. exists EmptyString. exact H.
  - simpl String.length in H. simpl Go.drop_string in H.
    destruct IH as [c Hc].
    + apply andb_true_iff. split; [reflexivity|].
      simpl String.length. rewrite Nat.sub_succ, Nat.sub_0_r. exact H.
    + exists (String a c). rewrite append_cons, <- Hc. reflexivity.
Qed.

(** ** The platform of the examples *)

Lemma string_forallb_impl (f g : ascii -> bool) (s : string) :
  (forall c, f c = true -> g c = true) ->
  string_forallb f s = true -> string_forallb g s = true.
Proof.
  intros Hfg. induction s as [|a s IH]; [reflexivity|].
  simpl. intros H. apply andb_true_iff in H as [Ha Hs].
  rewrite (Hfg _ Ha), (IH Hs). reflexivity.
Qed.

Lemma parse_ipv4_one_line (s : string) (ip : list Z) :
  parse_ipv4 s = Some ip -> Go.Contains s nl = false.
Proof.
  unfold parse_ipv4.
  destruct (string_forallb _ s) eqn:E; [|discriminate].
  intros _. rewrite Contains_nl. apply negb_false_iff.
  revert E. apply string_forallb_impl.
  intros c Hc. destruct (Ascii.eqb c Go.newline) eqn:Ec; [|reflexivity].
  apply Ascii.eqb_eq in Ec. subst c. discriminate Hc.
Qed.


(** ** Forward derivation (config.go) *)

Lemma is_int_bounds (z : Z) :
  is_int z <-> -9223372036854775808 <= z <= 9223372036854775807.
Proof. reflexivity. Qed.

(** Turns the bounds of [int] into numerals, for [lia]. *)
Ltac int_bounds :=
  repeat match goal with
         | H : is_int _ |- _ => apply (proj1 (is_int_bounds _)) in H
         end;
  try apply (proj2 (is_int_bounds _));
  unfold int_min, int_max in *;
  change (2 ^ 63) with 9223372036854775808 in *;
  change (2 ^ 64) with 18446744073709551616 in *.

Lemma wrap_id (z : Z) : is_int z -> wrap z = z.
Proof.
  intros H. unfold wrap. int_bounds. rewrite Z.mod_small; lia.
Qed.

(** C6.  For every port value (a Go [int]), the derived endpoint keeps the
    port, listens on [10000 + port] when [port < 1024] and on [port]
    otherwise, and needs a redirect (its listen port differs from its port)
    exactly when [port < 1024]. *)
Theorem NewForwardConfig_listen_port (host : HostConfig.t) (port : Z) :
  is_int port ->
  let fc := NewForwardConfig host port in
  ForwardConfig.Port fc = port /\
  ForwardConfig.ListenPort fc = (if port <? 1024 then 10000 + port else port) /\
  (NeedsPFRedirect fc = true <-> ForwardConfig.ListenPort fc <> ForwardConfig.Port fc) /\
  (NeedsPFRedirect fc = true <-> port < 1024).
Proof.
  intros Hint fc. subst fc. unfold NeedsPFRedirect. simpl.
  assert (Hw : (if port <? 1024 then wrap (10000 + port) else port) =
               (if port <? 1024 then 10000 + port else port)).
  { destruct (Z.ltb_spec port 1024); [|reflexivity].
    apply wrap_id. int_bounds. lia. }
  rewrite Hw. split; [reflexivity|]. split; [reflexivity|].
  rewrite negb_true_iff, Z.eqb_neq.
  destruct (Z.ltb_spec port 1024); split; split; intros; lia.
Qed.

Lemma NewForwardConfig_listen_port_witness :
  ForwardConfig.ListenPort (NewForwardConfig (example_host [PortInt 443]) 443) = 10443 /\
  NeedsPFRedirect (NewForwardConfig (example_host [PortInt 443]) 443) = true.
Proof.
  assert (Hint : is_int 443) by (int_bounds; lia).
  destruct (NewForwardConfig_listen_port (example_host [PortInt 443]) 443 Hint)
    as (_ & Hl & _ & Hr).
  split; [exact Hl|]. apply Hr. lia.
Defined.

(** ** Default host names (config.go) *)

Section ConfigProperties.
Context {platform : Platform}.

(** C8.  For every host of a loaded configuration whose [hostnames] list is
    omitted (empty): when [remote_host] is not an IP literal the loaded
    host has exactly [[remote_host]] as its host names; when it is an IP
    literal the list stays empty and a warning is logged. *)
Theorem LoadConfig_default_hostnames (hosts : list HostConfig.t) (i : nat)
  (h : HostConfig.t) :
  hosts !! i = Some h ->
  HostConfig.Hostnames h = [] ->
  exists loaded logged h',
    LoadConfig (Parsed hosts) = (inr loaded, logged) /\
    loaded !! i = Some h' /\
    HostConfig.RemoteHost h' = HostConfig.RemoteHost h /\
    (isIPAddress (HostConfig.RemoteHost h) = false ->
     HostConfig.Hostnames h' = [HostConfig.RemoteHost h]) /\
    (isIPAddress (HostConfig.RemoteHost h) = true ->
     HostConfig.Hostnames h' = [] /\ In (no_hostnames_warning h) logged).
Proof.
  intros Hi Hnames.
  exists (map fst (map host_defaults hosts)),
         (concat (map snd (map host_defaults hosts))),
         (fst (host_defaults h)).
  split; [reflexivity|]. split.
  { change (map fst (map host_defaults hosts))
      with (fst <$> (host_defaults <$> hosts)).
    rewrite !list_lookup_fmap, Hi. reflexivity. }
  unfold host_defaults. rewrite Hnames. simpl length. simpl Nat.eqb.
  destruct (isIPAddress (HostConfig.RemoteHost h)) eqn:Eip; simpl.
  - split; [reflexivity|]. split; [discriminate|]. intros _. split; [reflexivity|].
    apply in_concat. exists [no_hostnames_warning h]. split; [|left; reflexivity].
    apply in_map_iff. exists (host_defaults h). split.
    + unfold host_defaults. rewrite Hnames, Eip. reflexivity.
    + apply in_map. apply list_elem_of_In. eapply list_elem_of_lookup_2. exact Hi.
  - split; [reflexivity|]. split; [reflexivity|]. discriminate.
Qed.

End ConfigProperties.

Lemma LoadConfig_default_hostnames_witness :
  exists loaded logged,
    @LoadConfig example_platform
      (Parsed [example_host []; HostConfig.mk "127.0.0.3" [] "10.0.0.5" "jump" 22
                                  EmptyString EmptyString []]) = (inr loaded, logged) /\
    HostConfig.Hostnames <$> loaded = [["app.internal.example.com"]; []] /\
    length logged = 1%nat.
Proof.
  destruct (@LoadConfig_default_hostnames example_platform
              [example_host []; HostConfig.mk "127.0.0.3" [] "10.0.0.5" "jump" 22
                                  EmptyString EmptyString []]
              0%nat (example_host []) eq_refl eq_refl)
    as (loaded & logged & h' & Hload & _).
  exists loaded, logged. split; [exact Hload|].
  vm_compute in Hload. injection Hload as <- <-. split; reflexivity.
Defined.

(** The older [LoadConfig] gives no host its remote host as a name. *)
Lemma Legacy_LoadConfig_keeps_hostnames (hosts : list HostConfig.t) :
  exists loaded,
    Legacy.LoadConfig (Parsed hosts) = inr loaded /\
    map HostConfig.Hostnames loaded = map HostConfig.Hostnames hosts.
Proof.
  eexists. split; [reflexivity|]. rewrite map_map. reflexivity.
Qed.

(** ** The error window (forwarder.go) *)

Lemma err_run_app (df : DynamicForwarder) (ops1 ops2 : list ErrOp) :
  err_run df (ops1 ++ ops2) =
  match err_run df ops1 with
  | Returns df1 => err_run df1 ops2
  | Panics msg => Panics msg
  | Waits => Waits
  end.
Proof.
  revert df. induction ops1 as [|op ops1 IH]; intros df; [reflexivity|].
  simpl. destruct (err_step df op); auto.
Qed.

Lemma last_n_short {A : Type} (n : nat) (l : list A) :
  (length l <= n)%nat -> last_n n l = l.
Proof.
  intros H. unfold last_n. replace (length l - n)%nat with 0%nat by lia.
  reflexivity.
Qed.

Lemma last_n_length {A : Type} (n : nat) (l : list A) :
  (length (last_n n l) <= n)%nat.
Proof. unfold last_n. rewrite length_drop. lia. Qed.

(** Appending and trimming to the last [n + 1] elements: what
    [recordError] does to the window. *)
Lemma last_n_snoc {A : Type} (n : nat) (l : list A) (x : A) :
  last_n (S n) (l ++ [x]) =
  if (S n <? length (last_n (S n) l ++ [x]))%nat
  then drop 1 (last_n (S n) l ++ [x])
  else last_n (S n) l ++ [x].
Proof.
  unfold last_n. rewrite !length_app, !length_drop. simpl length.
  destruct (Nat.ltb_spec (S n) (length l - (length l - S n) + 1)) as [Hlt|Hge].
  - assert (Hl : (S n <= length l)%nat) by lia.
    rewrite drop_app_le by lia. rewrite drop_app_le by (rewrite length_drop; lia).
    rewrite drop_drop. f_equal. f_equal. lia.
  - replace (length l - S n)%nat with 0%nat by lia.
    replace (length l + 1 - S n)%nat with 0%nat by lia. reflexivity.
Qed.

Lemma recordError_open (df : DynamicForwarder) (now : Clock) (err : string) :
  chan_closed (statusChan df) = false ->
  exists ch,
    try_send (statusChan df)
      (mkStatusUpdate StatusDegraded
         (degraded_message (wrap (errorCount df + 1)) err)) = Returns ch /\
    chan_closed ch = false /\
    recordError df now err =
    Returns (set_errors df (wrap (errorCount df + 1))
               (let errs := lastErrors df ++ [(format_clock now ++ ": " ++ err)%string] in
                if maxErrors df <? Z.of_nat (length errs) then drop 1 errs else errs)
               ch).
Proof.
  intros Hopen. unfold recordError, try_send. rewrite Hopen.
  destruct (length (chan_buf (statusChan df)) <? chan_cap (statusChan df))%nat.
  - eexists. split; [reflexivity|]. split; reflexivity.
  - eexists. split; [reflexivity|]. split; [exact Hopen|reflexivity].
Qed.

Lemma degraded_updates_snoc (count : Z) (ops : list ErrOp) (op : ErrOp) :
  degraded_updates count (ops ++ [op]) =
  degraded_updates count ops ++
  match op with
  | OpRecord _ err =>
      [mkStatusUpdate StatusDegraded
         (degraded_message (count_since_clear count ops + 1) err)]
  | OpClear => []
  end.
Proof.
  revert count. induction ops as [|o ops IH]; intros count.
  - destruct op; reflexivity.
  - destruct o; cbn [app degraded_updates]; rewrite IH; reflexivity.
Qed.

Lemma after_sends_nil (ch : Chan) : after_sends ch [] = ch.
Proof.
  destruct ch as [buf cap closed]. unfold after_sends. cbn [chan_buf chan_cap chan_closed].
  rewrite take_nil, app_nil_r. reflexivity.
Qed.

(** One more send that does not block. *)
Lemma after_sends_snoc (ch : Chan) (us : list StatusUpdate) (u : StatusUpdate) :
  chan_closed ch = false ->
  after_sends ch (us ++ [u]) =
  (if (length (chan_buf (after_sends ch us)) <? chan_cap (after_sends ch us))%nat
   then mkChan (chan_buf (after_sends ch us) ++ [u]) (chan_cap (after_sends ch us)) false
   else after_sends ch us).
Proof.
  intros Hopen. unfold after_sends. cbn [chan_buf chan_cap]. rewrite Hopen.
  rewrite length_app, length_take.
  destruct (Nat.ltb_spec
              (length (chan_buf ch) +
               (chan_cap ch - length (chan_buf ch)) `min` length us)
              (chan_cap ch)) as [Hlt|Hge].
  - rewrite !take_ge by (try rewrite length_app; simpl; lia).
    rewrite app_assoc. reflexivity.
  - rewrite take_app_le by lia. reflexivity.
Qed.

Lemma try_send_open (ch : Chan) (u : StatusUpdate) :
  chan_closed ch = false ->
  try_send ch u =
  Returns (if (length (chan_buf ch) <? chan_cap ch)%nat
           then mkChan (chan_buf ch ++ [u]) (chan_cap ch) false
           else ch).
Proof.
  intros Hopen. unfold try_send. rewrite Hopen.
  destruct (length (chan_buf ch) <? chan_cap ch)%nat; reflexivity.
Qed.

(** C9.  The error window holds across every sequence of [recordError] and
    [clearErrors] calls on an engine whose status channel is open: every
    call returns, the stored list has at most 5 entries, namely the most
    recent formatted errors ["HH:MM:SS: <message>"] recorded since the last
    [clearErrors]; the counter is the number of errors recorded since the
    last [clearErrors] (so it goes up by exactly one at each [recordError]
    and goes down only when [clearErrors] resets it); a [recordError] does
    nothing else than a send on the status channel that never blocks: the
    Degraded update, with the new count and the error, is queued when the
    buffer has room and dropped when it has none, so that after the
    sequence the channel holds what it held followed by the Degraded updates
    of the calls, in order, as far as the buffer has room. *)
Theorem ErrorWindow_invariant (df : DynamicForwarder) (ops : list ErrOp) :
  maxErrors df = 5 ->
  (length (lastErrors df) <= 5)%nat ->
  chan_closed (statusChan df) = false ->
  0 <= errorCount df ->
  errorCount df + Z.of_nat (length ops) <= int_max ->
  exists df',
    err_run df ops = Returns df' /\
    (length (lastErrors df') <= 5)%nat /\
    lastErrors df' = last_n 5 (recorded_since_clear (lastErrors df) ops) /\
    errorCount df' = count_since_clear (errorCount df) ops /\
    0 <= errorCount df' <= errorCount df + Z.of_nat (length ops) /\
    maxErrors df' = 5 /\
    chan_closed (statusChan df') = false /\
    statusChan df' =
      after_sends (statusChan df) (degraded_updates (errorCount df) ops) /\
    (cleanup df' = cleanup df /\ running df' = running df /\
     sshPool df' = sshPool df /\ configs df' = configs df) /\
    forall now err,
      exists df'',
        err_run df (ops ++ [OpRecord now err]) = Returns df'' /\
        (errorCount df' < int_max -> errorCount df'' = errorCount df' + 1) /\
        statusChan df'' =
          (if (length (chan_buf (statusChan df')) <? chan_cap (statusChan df'))%nat
           then mkChan (chan_buf (statusChan df') ++
                        [mkStatusUpdate StatusDegraded
                           (degraded_message (errorCount df'') err)])
                       (chan_cap (statusChan df')) false
           else statusChan df').
Proof.
  intros Hmax Hlen Hopen Hpos.
  induction ops as [|op ops IH] using rev_ind; intros Hbound.
  - exists df. split; [reflexivity|]. split; [exact Hlen|]. split.
    { unfold recorded_since_clear. simpl. symmetry. apply last_n_short, Hlen. }
    split; [reflexivity|]. split; [simpl; lia|]. split; [exact Hmax|].
    split; [exact Hopen|].
    split; [cbn [degraded_updates]; rewrite after_sends_nil; reflexivity|].
    split; [repeat split|].
    intros now err. simpl.
    destruct (recordError_open df now err Hopen) as (ch & Hsend & Hch & Hrec).
    rewrite Hrec. eexists. split; [reflexivity|]. split.
    + intros Hlt. simpl. apply wrap_id. int_bounds. lia.
    + simpl. rewrite (try_send_open _ _ Hopen) in Hsend.
      injection Hsend as <-. reflexivity.
  - rewrite length_app in Hbound. simpl in Hbound.
    destruct IH as (df1 & Hrun & Hlen1 & Hwin & Hcnt & Hrange & Hmax1 & Hopen1 &
                    Hchan1 & Hframe & _); [lia|].
    assert (Hstep : exists df2,
               err_step df1 op = Returns df2 /\
               (length (lastErrors df2) <= 5)%nat /\
               lastErrors df2 =
                 last_n 5 (recorded_since_clear (lastErrors df) (ops ++ [op])) /\
               errorCount df2 = count_since_clear (errorCount df) (ops ++ [op]) /\
               0 <= errorCount df2 <= errorCount df1 + 1 /\
               maxErrors df2 = 5 /\ chan_closed (statusChan df2) = false /\
               statusChan df2 =
                 after_sends (statusChan df)
                             (degraded_updates (errorCount df) (ops ++ [op])) /\
               (cleanup df2 = cleanup df1 /\ running df2 = running df1 /\
                sshPool df2 = sshPool df1 /\ configs df2 = configs df1)).
    { rewrite degraded_updates_snoc.
      unfold recorded_since_clear, count_since_clear. rewrite !fold_left_app.
      fold (recorded_since_clear (lastErrors df) ops).
      fold (count_since_clear (errorCount df) ops).
      destruct op as [now err|]; simpl.
      - destruct (recordError_open df1 now err Hopen1) as (ch & Hsend & Hch & Hrec).
        rewrite Hrec. eexists. split; [reflexivity|]. simpl.
        rewrite Hmax1, Hwin, <- Hcnt.
        assert (Hw : wrap (errorCount df1 + 1) = errorCount df1 + 1)
          by (apply wrap_id; int_bounds; lia).
        rewrite Hw. rewrite (last_n_snoc 4).
        change (Z.of_nat 5) with 5. change 5 with (Z.of_nat 5) at 1 2.
        replace (Z.of_nat 5 <?
                 Z.of_nat (length (last_n 5 (recorded_since_clear (lastErrors df) ops) ++
                                   [(format_clock now ++ ": " ++ err)%string])))
          with (5 <? length (last_n 5 (recorded_since_clear (lastErrors df) ops) ++
                             [(format_clock now ++ ": " ++ err)%string]))%nat.
        2:{ destruct (Nat.ltb_spec 5 (length (last_n 5 (recorded_since_clear (lastErrors df) ops) ++
                             [(format_clock now ++ ": " ++ err)%string])));
            symmetry; [apply Z.ltb_lt|apply Z.ltb_ge]; lia. }
        assert (Hchan2 : ch = after_sends (statusChan df)
                  (degraded_updates (errorCount df) ops ++
                   [mkStatusUpdate StatusDegraded
                      (degraded_message (errorCount df1 + 1) err)])).
        { rewrite (after_sends_snoc _ _ _ Hopen), <- Hchan1.
          rewrite (try_send_open _ _ Hopen1), Hw in Hsend.
          injection Hsend as <-. reflexivity. }
        repeat split; try reflexivity; try lia; auto.
        rewrite <- (last_n_snoc 4). apply last_n_length.
      - eexists. split; [reflexivity|]. simpl. rewrite app_nil_r.
        repeat split; try reflexivity; try lia; auto. }
    destruct Hstep as (df2 & Hstep & Hlen2 & Hwin2 & Hcnt2 & Hrange2 & Hmax2 &
                       Hopen2 & Hchan2 & Hframe2).
    exists df2. split.
    { rewrite err_run_app, Hrun. simpl. rewrite Hstep. reflexivity. }
    destruct Hframe as (F1 & F2 & F3 & F4), Hframe2 as (G1 & G2 & G3 & G4).
    split; [exact Hlen2|]. split; [exact Hwin2|]. split; [exact Hcnt2|].
    split; [rewrite length_app; simpl length; lia|].
    split; [exact Hmax2|]. split; [exact Hopen2|]. split; [exact Hchan2|].
    split; [repeat split; congruence|].
    intros now err. rewrite err_run_app.
    rewrite err_run_app, Hrun. simpl. rewrite Hstep. simpl.
    destruct (recordError_open df2 now err Hopen2) as (ch & Hsend & Hch & Hrec).
    rewrite Hrec. eexists. split; [reflexivity|]. split.
    + intros Hlt. simpl. apply wrap_id. int_bounds. lia.
    + simpl. rewrite (try_send_open _ _ Hopen2) in Hsend.
      injection Hsend as <-. reflexivity.
Qed.

Lemma ErrorWindow_invariant_witness :
  exists df',
    err_run (NewDynamicForwarder "config.yaml" [] "bin/portsmith-helper")
            example_err_ops = Returns df' /\
    lastErrors df' =
      ["09:05:03: e3"; "09:05:03: e4"; "09:05:03: e5"; "09:05:03: e6";
       "09:05:03: e7"] /\
    errorCount df' = 6 /\
    Message <$> chan_buf (statusChan df') =
      ["1 connection errors - e1"; "1 connection errors - e2";
       "2 connection errors - e3"; "3 connection errors - e4";
       "4 connection errors - e5"; "5 connection errors - e6";
       "6 connection errors - e7"].
Proof.
  destruct (ErrorWindow_invariant
              (NewDynamicForwarder "config.yaml" [] "bin/portsmith-helper")
              example_err_ops)
    as (df' & Hrun & _ & Hwin & Hcnt & _ & _ & _ & Hchan & _).
  - reflexivity.
  - simpl. lia.
  - reflexivity.
  - simpl. lia.
  - unfold int_max. simpl. lia.
  - exists df'. split; [exact Hrun|]. split; [exact Hwin|].
    split; [exact Hcnt|]. rewrite Hchan. reflexivity.
Defined.

(** ** The helper: loopback aliases *)

Lemma in_list_cons (x y : string) (l : list string) :
  in_list x (y :: l) = String.eqb x y || in_list x l.
Proof. reflexivity. Qed.

Lemma in_list_In (x : string) (l : list string) : in_list x l = true <-> In x l.
Proof.
  unfold in_list. rewrite existsb_exists. split.
  - intros (y & Hy & Heq). apply String.eqb_eq in Heq. subst. exact Hy.
  - intros H. exists x. split; [exact H|apply String.eqb_refl].
Qed.

Lemma filter_id {A : Type} (f : A -> bool) (l : list A) :
  (forall x, In x l -> f x = true) -> List.filter f l = l.
Proof.
  induction l as [|a l IH]; intros H; [reflexivity|].
  simpl. rewrite (H a (or_introl eq_refl)). f_equal. apply IH.
  intros x Hx. apply H. right. exact Hx.
Qed.

Lemma filter_filter {A : Type} (f g : A -> bool) (l : list A) :
  List.filter f (List.filter g l) = List.filter (fun x => g x && f x) l.
Proof.
  induction l as [|a l IH]; [reflexivity|].
  simpl. destruct (g a); simpl; [destruct (f a)|]; rewrite IH; reflexivity.
Qed.

(** [ifconfig lo0 -alias ip] leaves the interface without [ip], whether it
    succeeds or not, and touches nothing else. *)
Lemma ifconfig_unalias_spec (ip : string) (w : World) :
  let w' := snd (ifconfig_unalias ip w) in
  lo0 w' = List.filter (fun a => negb (String.eqb a ip)) (lo0 w) /\
  aliasesFile w' = aliasesFile w /\ hostsFile w' = hostsFile w /\
  anchorFile w' = anchorFile w /\ pfConf w' = pfConf w /\ pfLoaded w' = pfLoaded w.
Proof.
  unfold ifconfig_unalias. destruct (in_list ip (lo0 w)) eqn:E; simpl.
  - repeat split.
  - repeat split. symmetry. apply filter_id. intros x Hx.
    apply negb_true_iff. apply String.eqb_neq. intros ->.
    apply in_list_In in Hx. congruence.
Qed.

Lemma unalias_all_spec (aliases : list string) (w : World) :
  let w' := fold_left (fun wi ip => snd (ifconfig_unalias ip wi)) aliases w in
  lo0 w' = List.filter (fun a => negb (in_list a aliases)) (lo0 w) /\
  aliasesFile w' = aliasesFile w /\ hostsFile w' = hostsFile w /\
  anchorFile w' = anchorFile w /\ pfConf w' = pfConf w /\ pfLoaded w' = pfLoaded w.
Proof.
  revert w. induction aliases as [|ip aliases IH]; intros w.
  - simpl. repeat split. symmetry. apply filter_id. reflexivity.
  - simpl fold_left.
    destruct (ifconfig_unalias_spec ip w) as (H1 & H2 & H3 & H4 & H5 & H6).
    destruct (IH (snd (ifconfig_unalias ip w))) as (I1 & I2 & I3 & I4 & I5 & I6).
    cbv zeta in *. rewrite I1, I2, I3, I4, I5, I6, H1, H2, H3, H4, H5, H6.
    repeat split. rewrite filter_filter. apply filter_ext. intros a.
    rewrite in_list_cons, negb_orb. reflexivity.
Qed.


(** The older helper removed every [127.0.0.x] alias it found on the
    interface, registered or not; the helper with the registry leaves the
    unregistered one alone. *)
Lemma Legacy_removes_unregistered :
  let w := mkWorld ["127.0.0.1"; "127.0.0.2"; "127.0.0.9"]
                   (Some ("127.0.0.2" ++ nl)%string)
                   EmptyString None EmptyString EmptyString true in
  lo0 (snd (Legacy.removeAliasesDarwin w)) = ["127.0.0.1"] /\
  lo0 (snd (removeAliases w)) = ["127.0.0.1"; "127.0.0.9"].
Proof. split; vm_compute; reflexivity. Qed.

(** ** The helper: the resolver file *)

Lemma ContainsAny_one_line (s chars : string) :
  Go.mem_ascii Go.newline chars = true ->
  Go.ContainsAny s chars = false -> one_line s = true.
Proof.
  intros Hnl. unfold one_line. induction s as [|a s IH]; [reflexivity|].
  simpl. intros H. apply orb_false_iff in H as [Ha Hs].
  rewrite (IH Hs), andb_true_r. apply negb_true_iff.
  destruct (Ascii.eqb a Go.newline) eqn:E; [|reflexivity].
  apply Ascii.eqb_eq in E. subst a. congruence.
Qed.

Lemma line_matches_entry (ip hostname : string) :
  line_matches ip hostname (hosts_entry ip hostname) = true.
Proof.
  unfold line_matches, hosts_entry.
  rewrite (Contains_here ip).
  rewrite (Contains_app_r ip _ hostname)
    by (apply (Contains_app_r " "), Contains_here).
  rewrite (Contains_app_r ip _ hostsMarker).
  - reflexivity.
  - apply (Contains_app_r " "), Contains_app_r, (Contains_app_r " ").
    rewrite <- (append_nil_r hostsMarker) at 1. apply Contains_here.
Qed.

Lemma line_matches_empty (ip hostname : string) :
  line_matches ip hostname EmptyString = false.
Proof. reflexivity. Qed.

Lemma filter_none {A : Type} (f : A -> bool) (l : list A) :
  existsb f l = false -> List.filter (fun x => negb (f x)) l = l /\
                         List.filter f l = [].
Proof.
  induction l as [|a l IH]; [split; reflexivity|].
  simpl. intros H. apply orb_false_iff in H as [Ha Hl].
  rewrite Ha. simpl. destruct (IH Hl) as [-> ->]. split; reflexivity.
Qed.

(** What appending a matching one-line entry to a file without a matching
    line does to the file as [addHost] and [removeHost] see it. *)
Lemma hosts_append_entry (ip hostname content entry : string) :
  one_line entry = true ->
  line_matches ip hostname entry = true ->
  existsb (line_matches ip hostname) (Go.Split content Go.newline) = false ->
  let base := if negb (Go.HasSuffix content nl) then (content ++ nl)%string
              else content in
  let added := (base ++ (entry ++ nl))%string in
  existsb (line_matches ip hostname) (Go.Split added Go.newline) = true /\
  List.filter (line_matches ip hostname) (Go.Split added Go.newline) = [entry] /\
  Go.Join (List.filter (fun line => negb (line_matches ip hostname line))
             (Go.Split added Go.newline)) nl = base.
Proof.
  intros Hone Hmatch Hnone base added.
  assert (Hbase : exists c, base = (c ++ nl)%string /\
                  existsb (line_matches ip hostname) (Go.Split c Go.newline) = false).
  { subst base. destruct (Go.HasSuffix content nl) eqn:Esuf; simpl.
    - destruct (HasSuffix_nl_inv _ Esuf) as [c Hc]. exists c. split; [exact Hc|].
      rewrite Hc in Hnone. unfold nl in Hnone.
      rewrite Split_app_sep, existsb_app in Hnone.
      apply orb_false_iff in Hnone as [Hnone _]. exact Hnone.
    - exists content. split; [reflexivity|exact Hnone]. }
  destruct Hbase as (c & Hc & Hcnone).
  assert (Hsplit : Go.Split added Go.newline =
                   Go.Split c Go.newline ++ [entry; EmptyString]).
  { subst added. rewrite Hc, append_assoc.
    change (nl ++ (entry ++ nl))%string with (String Go.newline (entry ++ nl)).
    rewrite Split_app_sep. f_equal. unfold nl.
    rewrite Split_app_sep, (Split_one_line _ Hone). reflexivity. }
  destruct (filter_none _ _ Hcnone) as [Hkeep Hdrop].
  rewrite Hsplit. split; [|split].
  - rewrite existsb_app. simpl. rewrite Hmatch. apply orb_true_r.
  - rewrite List.filter_app, Hdrop. cbn [List.filter app].
    rewrite Hmatch, line_matches_empty. reflexivity.
  - rewrite List.filter_app, Hkeep. cbn [List.filter app].
    rewrite Hmatch, line_matches_empty. cbn [negb].
    replace (Go.Split c Go.newline ++ [EmptyString])
      with (Go.Split base Go.newline).
    + apply Join_Split.
    + rewrite Hc. unfold nl. rewrite Split_app_sep. reflexivity.
Qed.

Section HostsFile.
Context {platform : Platform}.

(** An IP literal is made of hexadecimal digits, dots and colons: [net.ParseIP]
    accepts no string with a line feed in it. *)
Hypothesis net_ParseIP_one_line :
  forall s ip, net_ParseIP s = Some ip -> Go.Contains s nl = false.

Lemma validateIP_one_line (ip : string) :
  validateIP ip = None -> one_line ip = true.
Proof.
  unfold validateIP. destruct (net_ParseIP ip) as [parsed|] eqn:E; [|discriminate].
  intros _. apply net_ParseIP_one_line in E. rewrite Contains_nl in E.
  apply negb_false_iff in E. exact E.
Qed.

Lemma validateHostname_one_line (hostname : string) :
  validateHostname hostname = None -> one_line hostname = true.
Proof.
  unfold validateHostname.
  destruct (Go.ContainsAny hostname _) eqn:E; [discriminate|].
  intros _. revert E. apply ContainsAny_one_line. reflexivity.
Qed.

Lemma hosts_entry_one_line (ip hostname : string) :
  validateIP ip = None -> validateHostname hostname = None ->
  one_line (hosts_entry ip hostname) = true.
Proof.
  intros Hip Hname. unfold hosts_entry.
  rewrite !one_line_app, (validateIP_one_line _ Hip),
    (validateHostname_one_line _ Hname). reflexivity.
Qed.

(** C3, as the code has it.  For every resolver file without a line
    matching (marker, name, ip) and every pair the helper accepts:
    [add-host] then [remove-host] gives the file back byte for byte when it
    ended with a line feed, and the file followed by one line feed
    otherwise; after the first [add-host] the file has exactly one line for
    the pair and a second [add-host] changes nothing. *)
Theorem addHost_removeHost (w : World) (ip hostname : string) :
  validateIP ip = None ->
  validateHostname hostname = None ->
  matching_lines ip hostname w = 0%nat ->
  exists w1 w2,
    addHost ip hostname w = (None, w1) /\
    removeHost ip hostname w1 = (None, w2) /\
    hostsFile w2 = (if Go.HasSuffix (hostsFile w) nl then hostsFile w
                    else (hostsFile w ++ nl)%string) /\
    w2 = set_hostsFile w (hostsFile w2) /\
    addHost ip hostname w1 = (None, w1) /\
    matching_lines ip hostname w1 = 1%nat.
Proof.
  intros Hip Hname Hnone.
  assert (Hnone' : existsb (line_matches ip hostname)
                     (Go.Split (hostsFile w) Go.newline) = false).
  { unfold matching_lines in Hnone. apply length_zero_iff_nil in Hnone.
    destruct (existsb _ _) eqn:E; [|reflexivity].
    apply existsb_exists in E as (line & Hin & Hm).
    assert (Hf : In line (List.filter (line_matches ip hostname)
                            (Go.Split (hostsFile w) Go.newline)))
      by (apply filter_In; split; assumption).
    rewrite Hnone in Hf. destruct Hf. }
  destruct (hosts_append_entry ip hostname (hostsFile w) (hosts_entry ip hostname)
              (hosts_entry_one_line _ _ Hip Hname) (line_matches_entry _ _) Hnone')
    as (Hex & Hcount & Hback).
  cbv zeta in Hex, Hcount, Hback.
  set (base := if negb (Go.HasSuffix (hostsFile w) nl)
               then (hostsFile w ++ nl)%string else hostsFile w) in *.
  assert (Hadd : addHost ip hostname w =
                 (None, set_hostsFile w (base ++ (hosts_entry ip hostname ++ nl))%string)).
  { unfold addHost. rewrite Hip, Hname, Hnone'. fold base.
    unfold hosts_entry. rewrite !append_assoc. reflexivity. }
  exists (set_hostsFile w (base ++ (hosts_entry ip hostname ++ nl))%string).
  eexists.
  split; [exact Hadd|].
  split; [unfold removeHost; rewrite Hip, Hname; reflexivity|].
  simpl hostsFile.
  split.
  { rewrite Hback. subst base.
    destruct (Go.HasSuffix (hostsFile w) nl); reflexivity. }
  split; [reflexivity|]. split.
  - unfold addHost. rewrite Hip, Hname. simpl hostsFile.
    rewrite Hex. reflexivity.
  - unfold matching_lines. simpl hostsFile. rewrite Hcount. reflexivity.
Qed.

End HostsFile.

Lemma addHost_removeHost_witness :
  exists w1 w2,
    @addHost example_platform "127.0.0.2" "test.local"
      (example_world ("127.0.0.1 localhost" ++ nl)) = (None, w1) /\
    @removeHost example_platform "127.0.0.2" "test.local" w1 = (None, w2) /\
    hostsFile w2 = ("127.0.0.1 localhost" ++ nl)%string.
Proof.
  destruct (@addHost_removeHost example_platform parse_ipv4_one_line
              (example_world ("127.0.0.1 localhost" ++ nl))
              "127.0.0.2" "test.local" eq_refl eq_refl eq_refl)
    as (w1 & w2 & Hadd & Hrem & Hfile & _).
  exists w1, w2. split; [exact Hadd|]. split; [exact Hrem|exact Hfile].
Defined.

(** C3 as the specification states it fails on a file that does not end
    with a line feed: the file comes back one byte longer. *)
Lemma addHost_removeHost_not_identity :
  let w := example_world "127.0.0.1 localhost" in
  @matching_lines "127.0.0.2" "test.local" w = 0%nat /\
  exists w1 w2,
    @addHost example_platform "127.0.0.2" "test.local" w = (None, w1) /\
    @removeHost example_platform "127.0.0.2" "test.local" w1 = (None, w2) /\
    hostsFile w2 = ("127.0.0.1 localhost" ++ nl)%string /\
    hostsFile w2 <> hostsFile w.
Proof.
  split; [reflexivity|].
  eexists. eexists. split; [reflexivity|]. split; [reflexivity|].
  split; [reflexivity|]. discriminate.
Qed.

(** ** Traces of the network setup *)

Section Traces.
Context {platform : Platform}.

Lemma runHelper_trace (args : list string) (s : Sys) :
  trace (snd (runHelper args s)) = trace s ++ [EvHelper args].
Proof.
  unfold runHelper. destruct (helper_main args (world s)) as [status w'].
  destruct (status =? 0); reflexivity.
Qed.

Lemma order_events_app (tr1 tr2 : list Event) :
  order_events (tr1 ++ tr2) = order_events tr1 ++ order_events tr2.
Proof. apply List.filter_app. Qed.

Lemma remove_hosts_trace (ip : string) (hostnames : list string) (s : Sys) :
  exists tr,
    trace (fold_left (fun si hostname =>
                        snd (runHelper ["remove-host"; ip; hostname] si))
                     hostnames s) = trace s ++ tr /\
    order_events tr = [].
Proof.
  revert s. induction hostnames as [|hostname rest IH]; intros s.
  - exists []. rewrite app_nil_r. split; reflexivity.
  - simpl fold_left.
    destruct (IH (snd (runHelper ["remove-host"; ip; hostname] s))) as (tr & Htr & Ho).
    exists (EvHelper ["remove-host"; ip; hostname] :: tr).
    rewrite Htr, runHelper_trace, <- app_assoc. split; [reflexivity|exact Ho].
Qed.

(** A cleanup closure shows as its own event, then helper invocations. *)
Lemma run_undo_trace (u : Undo) (s : Sys) :
  exists tr,
    trace (snd (run_undo u s)) = trace s ++ EvUndo u :: tr /\
    order_events tr = [].
Proof.
  unfold run_undo. destruct u as [ip|ip hostnames| |ip fromPort toPort].
  - pose proof (runHelper_trace ["remove-alias"; ip] (emit (EvUndo (UndoLoopbackAlias ip)) s)) as H.
    destruct (runHelper _ _) as [[e|] s']; simpl in *;
      exists [EvHelper ["remove-alias"; ip]]; rewrite H, <- app_assoc;
      split; reflexivity.
  - destruct (remove_hosts_trace ip hostnames
                (emit (EvUndo (UndoHostsEntries ip hostnames)) s)) as (tr & Htr & Ho).
    exists tr. simpl snd. rewrite Htr. simpl. rewrite <- app_assoc.
    split; [reflexivity|exact Ho].
  - exists []. split; reflexivity.
  - pose proof (runHelper_trace
                  ["remove-pf-redirect"; ip; Go.Itoa fromPort; Go.Itoa toPort]
                  (emit (EvUndo (UndoPFRedirect ip fromPort toPort)) s)) as H.
    destruct (runHelper _ _) as [[e|] s']; simpl in *;
      eexists [EvHelper _]; rewrite H, <- app_assoc; split; reflexivity.
Qed.

Lemma run_undos_trace (undos : list Undo) (s : Sys) :
  exists tr,
    trace (fold_left (fun si undo => snd (run_undo undo si)) undos s) =
      trace s ++ tr /\
    order_events tr = map EvUndo undos.
Proof.
  revert s. induction undos as [|u undos IH]; intros s.
  - exists []. rewrite app_nil_r. split; reflexivity.
  - simpl fold_left.
    destruct (run_undo_trace u s) as (tr1 & H1 & O1).
    destruct (IH (snd (run_undo u s))) as (tr2 & H2 & O2).
    exists ((EvUndo u :: tr1) ++ tr2). rewrite H2, H1, <- app_assoc.
    split; [reflexivity|].
    rewrite order_events_app. simpl. rewrite O1, O2. reflexivity.
Qed.

(** C4, as the code has it.  [Stop] on a started engine marks the engine
    not-running, then closes the status channel, then closes the SSH pool,
    and then calls the undo closures of the cleanup stack in strict LIFO
    order: last pushed first. *)
Theorem Stop_order (df : DynamicForwarder) (s : Sys) :
  running df = true ->
  chan_closed (statusChan df) = false ->
  exists df' s' tr,
    Stop df s = (Returns (None, df'), s') /\
    trace s' = trace s ++ tr /\
    order_events tr = code_Stop_order df /\
    running df' = false /\
    chan_closed (statusChan df') = true.
Proof.
  intros Hrun Hopen. unfold Stop, Close. rewrite Hrun. simpl negb. cbv iota.
  unfold close_chan. simpl statusChan. rewrite Hopen.
  destruct (run_undos_trace (rev (cleanup df))
              (emit EvClosePool (emit EvCloseStatusChan (emit (EvRunning false) s))))
    as (tr & Htr & Ho).
  eexists. eexists.
  exists ([EvRunning false; EvCloseStatusChan; EvClosePool] ++ tr).
  split; [reflexivity|]. split.
  - simpl cleanup. rewrite Htr. simpl. rewrite <- !app_assoc. reflexivity.
  - split; [|split; reflexivity].
    rewrite order_events_app, Ho. reflexivity.
Qed.

End Traces.

Lemma Stop_order_witness :
  exists df' s',
    @Stop example_platform started_engine started_host = (Returns (None, df'), s') /\
    order_events (trace s') =
      [EvRunning false; EvCloseStatusChan; EvClosePool;
       EvUndo (UndoPFRedirect "127.0.0.2" 22 10022);
       EvUndo (UndoHostsEntries "127.0.0.2" ["app.internal.example.com"]);
       EvUndo (UndoLoopbackAlias "127.0.0.2")].
Proof.
  assert (Hrun : running started_engine = true) by (vm_compute; reflexivity).
  assert (Hopen : chan_closed (statusChan started_engine) = false)
    by (vm_compute; reflexivity).
  destruct (@Stop_order example_platform started_engine started_host Hrun Hopen)
    as (df' & s' & tr & Hstop & Htr & Ho & _).
  exists df', s'. split; [exact Hstop|].
  rewrite Htr. simpl trace. rewrite app_nil_l, Ho. vm_compute. reflexivity.
Defined.

(** C4 as the specification states it fails: the status channel is closed
    first, before the pool and the undos, not last. *)
Lemma Stop_order_not_spec :
  exists df' s',
    @Stop example_platform started_engine started_host = (Returns (None, df'), s') /\
    order_events (trace s') = code_Stop_order started_engine /\
    order_events (trace s') <> spec_Stop_order started_engine.
Proof.
  eexists. eexists. split; [vm_compute; reflexivity|].
  split; [vm_compute; reflexivity|]. vm_compute. discriminate.
Qed.

(** ** [Start] does not unwind *)

Section StartTraces.
Context {platform : Platform}.

Lemma Cleanup_trace (s : Sys) :
  trace (snd (Cleanup s)) = trace s ++ bulk_cleanup_events.
Proof.
  unfold Cleanup.
  pose proof (runHelper_trace ["remove-pf-redirects"] s) as H1.
  destruct (runHelper ["remove-pf-redirects"] s) as [e1 s1].
  pose proof (runHelper_trace ["remove-hosts"] s1) as H2.
  destruct (runHelper ["remove-hosts"] s1) as [e2 s2].
  pose proof (runHelper_trace ["remove-aliases"] s2) as H3.
  destruct (runHelper ["remove-aliases"] s2) as [e3 s3].
  simpl in *. rewrite H3, H2, H1, <- !app_assoc. reflexivity.
Qed.

Lemma setup_only_app (tr1 tr2 : list Event) :
  setup_only tr1 -> setup_only tr2 -> setup_only (tr1 ++ tr2).
Proof.
  unfold setup_only. intros H1 H2. rewrite forallb_app, H1, H2. reflexivity.
Qed.

Lemma SetupLoopbackAlias_trace (ip : string) (s : Sys) :
  trace (snd (SetupLoopbackAlias ip s)) = trace s ++ [EvHelper ["add-alias"; ip]].
Proof.
  unfold SetupLoopbackAlias.
  pose proof (runHelper_trace ["add-alias"; ip] s) as H.
  destruct (runHelper _ s) as [[e|] s']; exact H.
Qed.

Lemma add_hosts_loop_trace (ip : string) (hostnames : list string) (s : Sys) :
  exists tr, trace (snd (add_hosts_loop ip hostnames s)) = trace s ++ tr /\
             setup_only tr.
Proof.
  revert s. induction hostnames as [|hostname rest IH]; intros s.
  - exists []. rewrite app_nil_r. split; reflexivity.
  - simpl add_hosts_loop.
    pose proof (runHelper_trace ["add-host"; ip; hostname] s) as H.
    destruct (runHelper _ s) as [[e|] s1]; simpl in H.
    + exists [EvHelper ["add-host"; ip; hostname]]. split; [exact H|reflexivity].
    + destruct (IH s1) as (tr & Htr & Hs).
      exists ([EvHelper ["add-host"; ip; hostname]] ++ tr).
      rewrite Htr, H, <- app_assoc. split; [reflexivity|].
      apply setup_only_app; [reflexivity|exact Hs].
Qed.

Lemma AddHostsEntries_trace (ip : string) (hostnames : list string) (s : Sys) :
  exists tr, trace (snd (AddHostsEntries ip hostnames s)) = trace s ++ tr /\
             setup_only tr.
Proof.
  unfold AddHostsEntries. destruct (length hostnames =? 0)%nat.
  - exists []. rewrite app_nil_r. split; reflexivity.
  - destruct (add_hosts_loop_trace ip hostnames s) as (tr & Htr & Hs).
    exists tr. destruct (add_hosts_loop ip hostnames s) as [[e|] s'];
      split; assumption.
Qed.

Lemma SetupPFRedirect_trace (ip : string) (fromPort toPort : Z) (s : Sys) :
  trace (snd (SetupPFRedirect ip fromPort toPort s)) =
  trace s ++ [EvHelper ["add-pf-redirect"; ip; Go.Itoa fromPort; Go.Itoa toPort]].
Proof.
  unfold SetupPFRedirect.
  pose proof (runHelper_trace
                ["add-pf-redirect"; ip; Go.Itoa fromPort; Go.Itoa toPort] s) as H.
  destruct (runHelper _ s) as [[e|] s']; exact H.
Qed.

Lemma setup_loop_trace (cfgs : list HostConfig.t) (undos : list Undo) (s : Sys) :
  exists tr, trace (snd (setup_loop cfgs undos s)) = trace s ++ tr /\
             setup_only tr.
Proof.
  revert undos s. induction cfgs as [|cfg rest IH]; intros undos s.
  - exists []. rewrite app_nil_r. split; reflexivity.
  - simpl setup_loop.
    pose proof (SetupLoopbackAlias_trace (HostConfig.LocalIP cfg) s) as H1.
    destruct (SetupLoopbackAlias (HostConfig.LocalIP cfg) s) as [[u1 e1] s1].
    simpl in H1.
    assert (Hfail : exists tr, trace s1 = trace s ++ tr /\ setup_only tr).
    { eexists. split; [exact H1|reflexivity]. }
    destruct u1 as [u1|]; [|exact Hfail]. destruct e1 as [e1|]; [exact Hfail|].
    destruct (AddHostsEntries_trace (HostConfig.LocalIP cfg)
                (HostConfig.Hostnames cfg) s1) as (tr2 & H2 & S2).
    destruct (AddHostsEntries (HostConfig.LocalIP cfg) (HostConfig.Hostnames cfg) s1)
      as [[u2 e2] s2]. simpl in H2.
    assert (Hfail2 : exists tr, trace s2 = trace s ++ tr /\ setup_only tr).
    { eexists. rewrite H2, H1, <- app_assoc. split; [reflexivity|].
      apply setup_only_app; [reflexivity|exact S2]. }
    destruct u2 as [u2|]; [|exact Hfail2]. destruct e2 as [e2|]; [exact Hfail2|].
    destruct (IH ((undos ++ [u1]) ++ [u2]) s2) as (tr3 & H3 & S3).
    eexists. rewrite H3, H2, H1, <- !app_assoc. split; [reflexivity|].
    apply setup_only_app; [reflexivity|]. apply setup_only_app; assumption.
Qed.

(** In such a trace, no undo is called, nothing is closed, the running
    flag is not set: the only events besides the helper's are the
    listeners. *)
Lemma setup_only_order (tr : list Event) :
  setup_only tr ->
  order_events tr =
  List.filter (fun ev => match ev with EvListen _ => true | _ => false end) tr.
Proof.
  induction tr as [|ev tr IH]; intros Hs; [reflexivity|].
  unfold setup_only in Hs. simpl in Hs. apply andb_true_iff in Hs as [Hev Hs].
  unfold order_events in *. simpl. rewrite (IH Hs).
  destruct ev as [args| | | | |]; try discriminate Hev; reflexivity.
Qed.

Lemma same_but_cleanup_refl (df : DynamicForwarder) : same_but_cleanup df df.
Proof. repeat split. exists []. rewrite app_nil_r. reflexivity. Qed.

Lemma same_but_cleanup_trans (df1 df2 df3 : DynamicForwarder) :
  same_but_cleanup df1 df2 -> same_but_cleanup df2 df3 -> same_but_cleanup df1 df3.
Proof.
  intros (R1 & C1 & G1 & u1 & U1) (R2 & C2 & G2 & u2 & U2).
  repeat split; try congruence.
  exists (u1 ++ u2). rewrite U2, U1, <- app_assoc. reflexivity.
Qed.

Lemma ports_loop_spec (df : DynamicForwarder) (cfg : HostConfig.t)
  (ports : list Z) (s : Sys) :
  exists tr,
    trace (snd (ports_loop df cfg ports s)) = trace s ++ tr /\
    setup_only tr /\
    same_but_cleanup df (snd (fst (ports_loop df cfg ports s))).
Proof.
  revert df s. induction ports as [|port rest IH]; intros df s.
  - exists []. rewrite app_nil_r. split; [reflexivity|]. split; [reflexivity|].
    apply same_but_cleanup_refl.
  - simpl ports_loop.
    destruct (NeedsPFRedirect (NewForwardConfig cfg port)).
    + pose proof (SetupPFRedirect_trace
                    (ForwardConfig.LocalIP (NewForwardConfig cfg port))
                    (ForwardConfig.Port (NewForwardConfig cfg port))
                    (ForwardConfig.ListenPort (NewForwardConfig cfg port)) s) as H1.
      destruct (SetupPFRedirect _ _ _ s) as [[u e] s1]. simpl in H1.
      assert (Hfail : exists tr, trace s1 = trace s ++ tr /\ setup_only tr /\
                                 same_but_cleanup df df).
      { eexists. split; [exact H1|]. split; [reflexivity|].
        apply same_but_cleanup_refl. }
      destruct u as [u|]; [|exact Hfail]. destruct e as [e|]; [exact Hfail|].
      destruct (IH (set_cleanup df (cleanup df ++ [u]))
                   (emit (EvListen (NewForwardConfig cfg port)) s1))
        as (tr & Htr & Hs & Hsame).
      eexists. rewrite Htr. simpl trace. rewrite H1, <- !app_assoc.
      split; [reflexivity|]. split.
      * apply setup_only_app; [reflexivity|].
        apply setup_only_app; [reflexivity|exact Hs].
      * eapply same_but_cleanup_trans; [|exact Hsame].
        repeat split. exists [u]. reflexivity.
    + destruct (IH df (emit (EvListen (NewForwardConfig cfg port)) s))
        as (tr & Htr & Hs & Hsame).
      eexists. rewrite Htr. simpl trace. rewrite <- app_assoc.
      split; [reflexivity|]. split; [|exact Hsame].
      apply setup_only_app; [reflexivity|exact Hs].
Qed.

Lemma hosts_loop_spec (fuel : nat) (df : DynamicForwarder)
  (cfgs : list HostConfig.t) (s : Sys) (r : option StartError)
  (df' : DynamicForwarder) (s' : Sys) :
  hosts_loop fuel df cfgs s = (Returns (r, df'), s') ->
  exists tr, trace s' = trace s ++ tr /\ setup_only tr /\ same_but_cleanup df df'.
Proof.
  revert df s. induction cfgs as [|cfg rest IH]; intros df s H.
  - simpl in H. injection H as <- <- <-.
    exists []. rewrite app_nil_r. split; [reflexivity|]. split; [reflexivity|].
    apply same_but_cleanup_refl.
  - simpl in H. destruct (ExpandPorts fuel cfg) as [[e|ports]|]; [| |discriminate].
    + injection H as <- <- <-.
      exists []. rewrite app_nil_r. split; [reflexivity|]. split; [reflexivity|].
      apply same_but_cleanup_refl.
    + destruct (length ports =? 0)%nat; [exact (IH _ _ H)|].
      destruct (ports_loop_spec df cfg ports s) as (tr1 & H1 & S1 & Hsame1).
      destruct (ports_loop df cfg ports s) as [[[e|] df1] s1]; simpl in H1, Hsame1.
      * injection H as <- <- <-. exists tr1. split; [exact H1|]. split; assumption.
      * destruct (IH _ _ H) as (tr2 & H2 & S2 & Hsame2).
        exists (tr1 ++ tr2). rewrite H2, H1, <- app_assoc.
        split; [reflexivity|]. split; [apply setup_only_app; assumption|].
        eapply same_but_cleanup_trans; eassumption.
Qed.

End StartTraces.

(** ** Decimal numbers: printing and scanning *)

Lemma uint_digits (u : Decimal.uint) :
  string_forallb Go.is_digit (NilEmpty.string_of_uint u) = true.
Proof. induction u; simpl; auto. Qed.

Lemma Itoa_cases (z : Z) :
  (z = 0 /\ Go.Itoa z = "0") \/
  (exists p, z = Z.pos p /\
             Go.Itoa z = NilEmpty.string_of_uint (Pos.to_uint p)) \/
  (exists p, z = Z.neg p /\
             Go.Itoa z = String "-" (NilEmpty.string_of_uint (Pos.to_uint p))).
Proof.
  destruct z as [|p|p].
  - left. split; reflexivity.
  - right. left. exists p. split; [reflexivity|].
    unfold Go.Itoa. simpl. unfold NilZero.string_of_uint.
    destruct (Pos.to_uint p) eqn:E; try reflexivity.
    exfalso. exact (Unsigned.to_uint_nonnil p E).
  - right. right. exists p. split; [reflexivity|].
    unfold Go.Itoa. simpl. unfold NilZero.string_of_uint.
    destruct (Pos.to_uint p) eqn:E; try reflexivity.
    exfalso. exact (Unsigned.to_uint_nonnil p E).
Qed.

(** [%d] prints decimal digits, after a minus sign for a negative number. *)
Lemma Itoa_chars (z : Z) : string_forallb digit_or_minus (Go.Itoa z) = true.
Proof.
  assert (Hd : forall u, string_forallb digit_or_minus
                           (NilEmpty.string_of_uint u) = true).
  { intros u. apply (string_forallb_impl Go.is_digit); [|apply uint_digits].
    intros c Hc. unfold digit_or_minus. rewrite Hc. reflexivity. }
  destruct (Itoa_cases z) as [[_ ->]|[(p & _ & ->)|(p & _ & ->)]].
  - reflexivity.
  - apply Hd.
  - simpl. apply Hd.
Qed.

Lemma Itoa_inj (a b : Z) : Go.Itoa a = Go.Itoa b -> a = b.
Proof.
  intros H. apply to_int_inj.
  assert (Hnn : forall z, Z.to_int z <> Pos Nil /\ Z.to_int z <> Neg Nil).
  { intros [|p|p]; simpl; split; try discriminate;
      intros [= E]; exact (Unsigned.to_uint_nonnil p E). }
  pose proof (NilZero.isi (Z.to_int a) (proj1 (Hnn a)) (proj2 (Hnn a))) as Ha.
  pose proof (NilZero.isi (Z.to_int b) (proj1 (Hnn b)) (proj2 (Hnn b))) as Hb.
  unfold Go.Itoa in H. rewrite H in Ha. congruence.
Qed.

Lemma span_digits_app (ds rest : string) :
  string_forallb Go.is_digit ds = true -> no_digit_head rest = true ->
  Go.span_digits (ds ++ rest) = (ds, rest).
Proof.
  intros Hds Hrest. induction ds as [|c ds IH].
  - rewrite append_nil_l. destruct rest as [|c rest]; [reflexivity|].
    simpl in *. apply negb_true_iff in Hrest. rewrite Hrest. reflexivity.
  - simpl in Hds. apply andb_true_iff in Hds as [Hc Hds].
    rewrite append_cons. simpl. rewrite Hc, (IH Hds). reflexivity.
Qed.

Lemma strip_one_none (f : ascii -> bool) (seqs : list string) (c : ascii)
  (s : string) :
  forallb (first_byte_not f) seqs = true -> f c = true ->
  Go.strip_one seqs (String c s) = None.
Proof.
  intros Hseqs Hc. induction seqs as [|q seqs IH]; [reflexivity|].
  simpl in Hseqs. apply andb_true_iff in Hseqs as [Hq Hseqs].
  cbn [Go.strip_one]. destruct q as [|b q]; [discriminate|].
  rewrite prefix_cons. destruct (Ascii.eqb b c) eqn:E.
  - apply Ascii.eqb_eq in E. subst b. simpl in Hq. rewrite Hc in Hq. discriminate.
  - apply IH, Hseqs.
Qed.

Lemma SkipSpace_number (fuel : nat) (c : ascii) (s : string) :
  digit_or_minus c = true -> Go.SkipSpace fuel (String c s) = Some (String c s).
Proof.
  intros Hc. destruct fuel as [|fuel]; [reflexivity|]. cbn [Go.SkipSpace].
  destruct (Ascii.eqb c Go.newline) eqn:E.
  - apply Ascii.eqb_eq in E. subst c. discriminate.
  - rewrite (strip_one_none digit_or_minus); [reflexivity|reflexivity|exact Hc].
Qed.

Lemma is_intb_spec (z : Z) : is_intb z = true <-> is_int z.
Proof.
  unfold is_intb, is_int. rewrite andb_true_iff, !Z.leb_le. reflexivity.
Qed.

Lemma uint_string_head (p : positive) :
  exists c s, NilEmpty.string_of_uint (Pos.to_uint p) = String c s /\
              Go.is_digit c = true.
Proof.
  pose proof (uint_digits (Pos.to_uint p)) as Hd.
  destruct (Pos.to_uint p) eqn:E;
    [exfalso; exact (Unsigned.to_uint_nonnil p E)|..];
    simpl in *; eexists; eexists; (split; [reflexivity|reflexivity]).
Qed.

(** Scanning what [%d] printed gives the number back and stops where the
    digits stop. *)
Lemma scanInt_Itoa (z : Z) (rest : string) :
  is_int z -> no_digit_head rest = true ->
  Go.scanInt (Go.Itoa z ++ rest) = Some (z, rest).
Proof.
  intros Hint Hrest. apply is_intb_spec in Hint.
  assert (Hpos : forall p neg,
             is_intb (if neg : bool then - Z.pos p else Z.pos p) = true ->
             let ds := NilEmpty.string_of_uint (Pos.to_uint p) in
             (let '(ds', s3) := Go.span_digits (ds ++ rest) in
              match ds' with
              | EmptyString => None
              | String _ _ =>
                  match NilEmpty.uint_of_string ds' with
                  | None => None
                  | Some u =>
                      let v := if neg then - Z.of_uint u else Z.of_uint u in
                      if is_intb v then Some (v, s3) else None
                  end
              end) = Some (if neg then - Z.pos p else Z.pos p, rest)).
  { intros p neg Hv ds. subst ds.
    rewrite (span_digits_app _ _ (uint_digits _) Hrest).
    destruct (uint_string_head p) as (c & s & Hcs & Hc).
    rewrite Hcs at 1. rewrite NilEmpty.usu.
    unfold Z.of_uint. rewrite Unsigned.of_to. simpl Z.of_N.
    rewrite Hv. reflexivity. }
  unfold Go.scanInt.
  destruct (Itoa_cases z) as [[-> ->]|[(p & -> & ->)|(p & -> & ->)]].
  - change ("0" ++ rest)%string with (String "0" rest).
    rewrite SkipSpace_number by reflexivity.
    change (Go.accept_sign (String "0" rest)) with (false, ("0" ++ rest)%string).
    cbv beta iota zeta.
    rewrite (span_digits_app "0" rest eq_refl Hrest). reflexivity.
  - destruct (uint_string_head p) as (c & s & Hcs & Hc).
    rewrite Hcs at 1 2. rewrite append_cons.
    rewrite SkipSpace_number by (unfold digit_or_minus; rewrite Hc; reflexivity).
    assert (Hsign : Go.accept_sign (String c (s ++ rest)) = (false, String c (s ++ rest))).
    { unfold Go.accept_sign.
      destruct (Ascii.eqb c "-") eqn:E1;
        [apply Ascii.eqb_eq in E1; subst c; discriminate Hc|].
      destruct (Ascii.eqb c "+") eqn:E2;
        [apply Ascii.eqb_eq in E2; subst c; discriminate Hc|]. reflexivity. }
    rewrite Hsign. rewrite <- append_cons, <- Hcs.
    exact (Hpos p false Hint).
  - rewrite append_cons. rewrite SkipSpace_number by reflexivity.
    change (Go.accept_sign (String "-" (NilEmpty.string_of_uint (Pos.to_uint p) ++ rest)))
      with (true, (NilEmpty.string_of_uint (Pos.to_uint p) ++ rest)%string).
    exact (Hpos p true Hint).
Qed.

(** The range string [A-B] scans as [(A, B)]. *)
Lemma Sscanf_range_string (a b : Z) :
  is_int a -> is_int b ->
  Go.Sscanf_d_dash_d (Go.Itoa a ++ "-" ++ Go.Itoa b) = Some (a, b).
Proof.
  intros Ha Hb. unfold Go.Sscanf_d_dash_d.
  rewrite (scanInt_Itoa a _ Ha) by reflexivity.
  change ("-" ++ Go.Itoa b)%string with (String "-" (Go.Itoa b)).
  cbv beta iota. rewrite Ascii.eqb_refl.
  rewrite <- (append_nil_r (Go.Itoa b)).
  rewrite (scanInt_Itoa b _ Hb) by reflexivity. reflexivity.
Qed.

(** ** The pool of SSH clients (ssh.go) *)

Lemma no_colon_app_colon (x y : string) : no_colon (x ++ ":" ++ y) = false.
Proof.
  unfold no_colon. induction x as [|c x IH]; [reflexivity|].
  rewrite append_cons. simpl. rewrite IH. apply andb_false_r.
Qed.

Lemma app_colon_inj (a a' b b' : string) :
  no_colon b = true -> no_colon b' = true ->
  (a ++ ":" ++ b)%string = (a' ++ ":" ++ b')%string -> a = a' /\ b = b'.
Proof.
  intros Hb Hb'. revert a'. induction a as [|c a IH]; intros [|c' a'] H.
  - change (String ":" b = String ":" b') in H. injection H as H.
    split; [reflexivity|exact H].
  - change (String ":" b = String c' (a' ++ ":" ++ b')) in H. injection H as _ H.
    rewrite H, no_colon_app_colon in Hb. discriminate.
  - change (String c (a ++ ":" ++ b) = String ":" b') in H. injection H as _ H.
    rewrite <- H, no_colon_app_colon in Hb'. discriminate.
  - change (String c (a ++ ":" ++ b) = String c' (a' ++ ":" ++ b')) in H.
    injection H as Hc H. destruct (IH _ H) as [Ha Hbb].
    split; [congruence|exact Hbb].
Qed.

Lemma Itoa_no_colon (z : Z) : no_colon (Go.Itoa z) = true.
Proof.
  unfold no_colon. apply (string_forallb_impl digit_or_minus); [|apply Itoa_chars].
  intros c Hc. destruct (Ascii.eqb c ":") eqn:E; [|reflexivity].
  apply Ascii.eqb_eq in E. subst c. discriminate.
Qed.

(** Two (host, port) pairs have the same key in the pool only when they are
    the same pair. *)
Lemma clientKey_inj (h h' : string) (p p' : Z) :
  clientKey h p = clientKey h' p' -> h = h' /\ p = p'.
Proof.
  unfold clientKey. intros H.
  apply app_colon_inj in H as [-> H]; try apply Itoa_no_colon.
  apply Itoa_inj in H. split; [reflexivity|exact H].
Qed.

Lemma LoadAuthMethodsWithRetry_clients (fuel : nat) (pool : SSHClientPool)
  (keyPath identityAgent : string) (loads : list (string + list AuthMethod))
  (e : error) (pool' : SSHClientPool) :
  LoadAuthMethodsWithRetry fuel pool keyPath identityAgent loads = Returns (e, pool') ->
  clients pool' = clients pool.
Proof.
  revert pool loads. induction fuel as [|fuel IH]; intros pool loads; [discriminate|].
  simpl. unfold LoadAuthMethods.
  destruct (authMethods pool !! auth_cacheKey keyPath identityAgent).
  - intros [= <- <-]. reflexivity.
  - destruct loads as [|[msg|methods] rest]; [discriminate| |].
    + destruct (negb _).
      * intros [= <- <-]. reflexivity.
      * apply IH.
    + intros [= <- <-]. reflexivity.
Qed.

Lemma dial_loop_In (jumpAddr : string) (attempt : Z)
  (dials : list (string + Client)) (client : Client) :
  dial_loop jumpAddr attempt dials = Returns (inr client) -> In (inr client) dials.
Proof.
  revert attempt. induction dials as [|[errStr|c] rest IH]; intros attempt;
    [discriminate| |].
  - simpl. destruct (_ || _); [discriminate|]. intros H. right. exact (IH _ H).
  - simpl. intros [= ->]. left. reflexivity.
Qed.

Lemma GetClient_cached (pool : SSHClientPool) (h : string) (p : Z)
  (keyPath identityAgent : string) (env : ConnEnv) (c : Client) :
  clients pool !! clientKey h p = Some c ->
  GetClient pool h p keyPath identityAgent env = Returns (inr c, pool).
Proof. intros H. unfold GetClient. rewrite H. reflexivity. Qed.

(** What a returning [GetClient] does to the cache: entries stay; a client it
    returns is cached under the key of its (host, port); a client returned
    when nothing was cached comes from an [ssh.Dial] of this call. *)
Lemma GetClient_clients (pool : SSHClientPool) (h : string) (p : Z)
  (keyPath identityAgent : string) (env : ConnEnv) (r : string + Client)
  (pool' : SSHClientPool) :
  GetClient pool h p keyPath identityAgent env = Returns (r, pool') ->
  (forall key c, clients pool !! key = Some c -> clients pool' !! key = Some c) /\
  (forall c, r = inr c -> clients pool' !! clientKey h p = Some c) /\
  (clients pool !! clientKey h p = None ->
   forall c, r = inr c -> In (inr c) (dial_results env)).
Proof.
  unfold GetClient.
  destruct (clients pool !! clientKey h p) as [c0|] eqn:Hc.
  { intros [= <- <-]. split; [auto|]. split; [congruence|discriminate]. }
  assert (Hconnect : forall pool1 r pool',
             clients pool1 = clients pool ->
             match user_result env with
             | inl e => Returns (inl ("failed to get current user: " ++ e)%string, pool1)
             | inr _ =>
                 match dial_loop (clientKey h p) 1 (dial_results env) with
                 | Returns (inl e) => Returns (inl e, pool1)
                 | Returns (inr client) =>
                     Returns (inr client,
                              mkPool (<[clientKey h p := client]> (clients pool1))
                                     (authMethods pool1) (closedClients pool1))
                 | Panics msg => Panics msg
                 | Waits => Waits
                 end
             end = Returns (r, pool') ->
             (forall key c, clients pool !! key = Some c ->
                            clients pool' !! key = Some c) /\
             (forall c, r = inr c -> clients pool' !! clientKey h p = Some c) /\
             (forall c, r = inr c -> In (inr c) (dial_results env))).
  { intros pool1 r1 pool1' Heq.
    destruct (user_result env) as [e|username].
    { intros [= <- <-]. rewrite Heq. split; [auto|]. split; discriminate. }
    destruct (dial_loop _ 1 (dial_results env)) as [[e|client]| |] eqn:Hd;
      try discriminate.
    - intros [= <- <-]. rewrite Heq. split; [auto|]. split; discriminate.
    - intros [= <- <-]. simpl. rewrite Heq. split; [|split].
      + intros key c Hkey. destruct (decide (clientKey h p = key)) as [<-|Hne].
        * congruence.
        * rewrite lookup_insert_ne by exact Hne. exact Hkey.
      + intros c [= <-]. apply lookup_insert_eq.
      + intros c [= <-]. exact (dial_loop_In _ _ _ _ Hd). }
  intros H.
  assert (Hgoal : (forall key c, clients pool !! key = Some c ->
                                 clients pool' !! key = Some c) /\
                  (forall c, r = inr c -> clients pool' !! clientKey h p = Some c) /\
                  (forall c, r = inr c -> In (inr c) (dial_results env))).
  { destruct (authMethods pool !! auth_cacheKey keyPath identityAgent)
      as [[|m ms]|] eqn:Ha.
    - destruct (LoadAuthMethodsWithRetry _ pool keyPath identityAgent _)
        as [[[e|] pool1]| |] eqn:Hl; try discriminate.
      + injection H as <- <-.
        rewrite (LoadAuthMethodsWithRetry_clients _ _ _ _ _ _ _ Hl).
        split; [auto|]. split; discriminate.
      + pose proof (LoadAuthMethodsWithRetry_clients _ _ _ _ _ _ _ Hl) as Hcl.
        destruct (authMethods pool1 !! auth_cacheKey keyPath identityAgent)
          as [[|m ms]|].
        * injection H as <- <-. rewrite Hcl. split; [auto|]. split; discriminate.
        * exact (Hconnect _ _ _ Hcl H).
        * injection H as <- <-. rewrite Hcl. split; [auto|]. split; discriminate.
    - exact (Hconnect _ _ _ eq_refl H).
    - destruct (LoadAuthMethodsWithRetry _ pool keyPath identityAgent _)
        as [[[e|] pool1]| |] eqn:Hl; try discriminate.
      + injection H as <- <-.
        rewrite (LoadAuthMethodsWithRetry_clients _ _ _ _ _ _ _ Hl).
        split; [auto|]. split; discriminate.
      + pose proof (LoadAuthMethodsWithRetry_clients _ _ _ _ _ _ _ Hl) as Hcl.
        destruct (authMethods pool1 !! auth_cacheKey keyPath identityAgent)
          as [[|m ms]|].
        * injection H as <- <-. rewrite Hcl. split; [auto|]. split; discriminate.
        * exact (Hconnect _ _ _ Hcl H).
        * injection H as <- <-. rewrite Hcl. split; [auto|]. split; discriminate. }
  destruct Hgoal as (G1 & G2 & G3). split; [exact G1|]. split; [exact G2|].
  intros _. exact G3.
Qed.

Lemma RemoveClient_same (pool : SSHClientPool) (h : string) (p : Z) :
  clients (RemoveClient pool h p) !! clientKey h p = None.
Proof.
  unfold RemoveClient. destruct (clients pool !! clientKey h p) eqn:E; simpl.
  - apply lookup_delete_eq.
  - exact E.
Qed.

Lemma RemoveClient_other (pool : SSHClientPool) (h h' : string) (p p' : Z) :
  (h', p') <> (h, p) ->
  clients (RemoveClient pool h' p') !! clientKey h p = clients pool !! clientKey h p.
Proof.
  intros Hne. unfold RemoveClient.
  destruct (clients pool !! clientKey h' p') eqn:E; simpl; [|reflexivity].
  apply lookup_delete_ne. intros Heq. apply clientKey_inj in Heq as [-> ->].
  apply Hne. reflexivity.
Qed.





(** ** Calls of the pool that overlap, and calls that do not *)



Section CallsAlone.
Variables (jumpHost : string) (jumpPort : Z) (keyPath identityAgent : string)
          (env : ConnEnv).

Let op : PoolOp := OpGet jumpHost jumpPort keyPath identityAgent env.
Let key : string := clientKey jumpHost jumpPort.







End CallsAlone.








(** ** Recording an error after shutdown *)

(** The non-blocking send does not protect the sender from a closed
    channel. *)
Lemma recordError_closed (df : DynamicForwarder) (now : Clock) (err : string) :
  chan_closed (statusChan df) = true ->
  recordError df now err = Panics "send on closed channel".
Proof. intros H. unfold recordError, try_send. rewrite H. reflexivity. Qed.

(** A handler whose [GetClient] fails on an engine whose status channel is
    closed panics. *)
Lemma forwardConnection_closed (df : DynamicForwarder) (cfg : ForwardConfig.t)
  (env : HandlerEnv) (e : string) (pool' : SSHClientPool) :
  chan_closed (statusChan df) = true ->
  GetClient (sshPool df) (ForwardConfig.JumpHost cfg) (ForwardConfig.JumpPort cfg)
    (ForwardConfig.KeyPath cfg) (ForwardConfig.IdentityAgent cfg)
    (first_client env) = Returns (inl e, pool') ->
  forwardConnection df cfg env = Panics "send on closed channel".
Proof.
  intros Hclosed Hget. unfold forwardConnection, with_pool. rewrite Hget.
  apply recordError_closed. exact Hclosed.
Qed.

(** C10.  There is an execution in which a connection handler still running
    after [Stop] records an error and the process panics with "send on
    closed channel": the engine starts, a listener accepts a connection,
    [Stop] closes the status channel, then the handler's [GetClient] fails
    and [recordError] sends on the closed channel. *)
Theorem handler_after_Stop_panics :
  (forall df now err,
      chan_closed (statusChan df) = true ->
      recordError df now err = Panics "send on closed channel") /\
  exists st1 st2 st3 st4,
    @sys_step example_platform example_system
      (ActStart (Parsed [example_host [PortInt 22; PortInt 8080]]) 100) = Some st1 /\
    running (engine st1) = true /\ crashed st1 = None /\
    @sys_step example_platform st1 (ActAccept example_endpoint) = Some st2 /\
    @sys_step example_platform st2 ActStop = Some st3 /\
    running (engine st3) = false /\ crashed st3 = None /\
    chan_closed (statusChan (engine st3)) = true /\
    accepted st3 = [example_endpoint] /\
    @sys_step example_platform st3 (ActHandle example_endpoint failing_handler)
      = Some st4 /\
    crashed st4 = Some "send on closed channel".
Proof.
  split; [exact recordError_closed|].
  eexists. eexists. eexists. eexists.
  split; [vm_compute; reflexivity|].
  split; [reflexivity|]. split; [reflexivity|].
  split; [vm_compute; reflexivity|].
  split; [vm_compute; reflexivity|].
  split; [reflexivity|]. split; [reflexivity|]. split; [reflexivity|].
  split; [reflexivity|].
  split; [vm_compute; reflexivity|]. reflexivity.
Qed.

Lemma handler_after_Stop_panics_witness :
  chan_closed (statusChan stopped_engine) = true /\
  recordError stopped_engine example_clock "dial failed for 10.0.0.5:8080: EOF"
    = Panics "send on closed channel".
Proof.
  split; [vm_compute; reflexivity|].
  apply (proj1 handler_after_Stop_panics). vm_compute. reflexivity.
Defined.

(** ** Port expansion (config.go) *)

Lemma mark_all_app (l1 l2 : list Z) (m : gmap Z bool) :
  mark_all (l1 ++ l2) m = mark_all l2 (mark_all l1 m).
Proof. apply fold_left_app. Qed.

Lemma mark_all_lookup (l : list Z) (m : gmap Z bool) (k : Z) :
  mark_all l m !! k = if decide (k ∈ l) then Some true else m !! k.
Proof.
  revert m. induction l as [|p l IH]; intros m.
  - simpl. destruct (decide (k ∈ [])) as [Hin|]; [|reflexivity].
    apply elem_of_nil in Hin. destruct Hin.
  - change (mark_all (p :: l) m) with (mark_all l (<[p := true]> m)).
    rewrite IH. destruct (decide (k ∈ l)) as [Hin|Hnin].
    + destruct (decide (k ∈ p :: l)) as [_|Hn]; [reflexivity|].
      exfalso. apply Hn. right. exact Hin.
    + destruct (decide (k ∈ p :: l)) as [Hin|Hn].
      * apply elem_of_cons in Hin as [->|Hin]; [|contradiction].
        apply lookup_insert_eq.
      * apply lookup_insert_ne. intros ->. apply Hn. left.
Qed.

Lemma wrap_is_int (z : Z) : is_int (wrap z).
Proof.
  unfold wrap. int_bounds.
  pose proof (Z.mod_pos_bound (z + 9223372036854775808) 18446744073709551616).
  lia.
Qed.

(** A range that ends at the largest [int]: [p++] wraps around and
    [p <= end] never fails. *)
Lemma range_loop_endless (fuel : nat) (p : Z) (m : gmap Z bool) :
  is_int p -> range_loop fuel p int_max m = None.
Proof.
  revert p m. induction fuel as [|fuel IH]; intros p m Hp; [reflexivity|].
  simpl. replace (p <=? int_max) with true.
  - apply IH, wrap_is_int.
  - symmetry. apply Z.leb_le. destruct Hp. assumption.
Qed.

(** A range that ends below the largest [int]: the loop marks the ports
    from [p] to [end_] and stops, given the fuel for it. *)
Lemma range_loop_spec (n : nat) (fuel : nat) (p end_ : Z) (m : gmap Z bool) :
  is_int p -> end_ < int_max -> Z.of_nat n = end_ + 1 - p ->
  range_loop fuel p end_ m =
  if (n <? fuel)%nat then Some (mark_all (seqZ p (end_ + 1 - p)) m) else None.
Proof.
  revert fuel p m. induction n as [|n IH]; intros fuel p m Hp Hend Hn.
  - destruct fuel as [|fuel]; [reflexivity|]. simpl.
    replace (p <=? end_) with false by (symmetry; apply Z.leb_gt; lia).
    rewrite seqZ_nil by lia. reflexivity.
  - destruct fuel as [|fuel]; [reflexivity|]. simpl range_loop.
    replace (p <=? end_) with true by (symmetry; apply Z.leb_le; lia).
    assert (Hw : wrap (p + 1) = p + 1).
    { apply wrap_id. int_bounds. lia. }
    rewrite Hw, (IH fuel (p + 1)).
    + change (S n <? S fuel)%nat with (n <? fuel)%nat.
      destruct (n <? fuel)%nat; [|reflexivity].
      rewrite (seqZ_cons p) by lia. f_equal.
      replace (Z.succ p) with (p + 1) by lia.
      replace (Z.pred (end_ + 1 - p)) with (end_ + 1 - (p + 1)) by lia.
      reflexivity.
    + int_bounds. lia.
    + exact Hend.
    + lia.
Qed.

Lemma scanInt_is_int (s : string) (v : Z) (rest : string) :
  Go.scanInt s = Some (v, rest) -> is_int v.
Proof.
  unfold Go.scanInt. destruct (Go.SkipSpace _ s) as [s1|]; [|discriminate].
  destruct (Go.accept_sign s1) as [neg s2].
  destruct (Go.span_digits s2) as [ds s3].
  destruct ds as [|c ds]; [discriminate|].
  destruct (NilEmpty.uint_of_string _) as [u|]; [|discriminate].
  destruct (is_intb _) eqn:E; [|discriminate].
  intros [= <- _]. apply is_intb_spec. exact E.
Qed.

(** [Sscanf] stores values of type [int]. *)
Lemma Sscanf_is_int (v : string) (start end_ : Z) :
  Go.Sscanf_d_dash_d v = Some (start, end_) -> is_int start /\ is_int end_.
Proof.
  unfold Go.Sscanf_d_dash_d.
  destruct (Go.scanInt v) as [[a [|c rest]]|] eqn:E1; try discriminate.
  destruct (Ascii.eqb c "-"); [|discriminate].
  destruct (Go.scanInt rest) as [[b rest']|] eqn:E2; [|discriminate].
  intros [= <- <-]. split; eapply scanInt_is_int; eassumption.
Qed.

Lemma all_ports_cons (spec : PortSpec) (specs : list PortSpec) :
  all_ports (spec :: specs) = ports_of spec ++ all_ports specs.
Proof. reflexivity. Qed.

(** One element that is not bad and not endless: the step of the loop. *)
Lemma range_step (fuel : nat) (v : string) (start end_ : Z) (m : gmap Z bool) :
  Go.Sscanf_d_dash_d v = Some (start, end_) ->
  (end_ <? start) = false ->
  range_loop fuel start end_ m =
  if end_ =? int_max then None
  else if (length (seqZ start (end_ + 1 - start)) <? fuel)%nat
       then Some (mark_all (seqZ start (end_ + 1 - start)) m) else None.
Proof.
  intros Hscan Hle. apply Z.ltb_ge in Hle.
  destruct (Sscanf_is_int _ _ _ Hscan) as [Ha Hb].
  destruct (Z.eqb_spec end_ int_max) as [->|Hne].
  - apply range_loop_endless, Ha.
  - rewrite length_seqZ. apply range_loop_spec; [exact Ha| |lia].
    destruct Hb. lia.
Qed.

Section ExpandPortsProperties.
Context {platform : Platform}.

Lemma expand_loop_ints (fuel : nat) (l : list Z) (m : gmap Z bool) :
  expand_loop fuel (map PortInt l) m = Some (inr (mark_all l m)).
Proof.
  revert m. induction l as [|p l IH]; intros m; [reflexivity|].
  simpl. apply IH.
Qed.

(** A loop that returns a map has marked the ports of every element, none
    of which is bad. *)
Lemma expand_loop_inr (fuel : nat) (specs : list PortSpec) (m m' : gmap Z bool) :
  expand_loop fuel specs m = Some (inr m') ->
  m' = mark_all (all_ports specs) m /\
  Forall (fun spec => bad_spec spec = false) specs.
Proof.
  revert m. induction specs as [|spec specs IH]; intros m H.
  - injection H as <-. split; [reflexivity|constructor].
  - rewrite all_ports_cons, mark_all_app.
    destruct spec as [v|v|ty]; simpl in H.
    + destruct (IH _ H) as [-> HF]. split; [reflexivity|].
      constructor; [reflexivity|exact HF].
    + destruct (Go.Sscanf_d_dash_d v) as [[start end_]|] eqn:Hscan; [|discriminate].
      destruct (end_ <? start) eqn:Hlt; [discriminate|].
      rewrite (range_step fuel v start end_ m Hscan Hlt) in H.
      destruct (end_ =? int_max); [discriminate|].
      destruct (_ <? fuel)%nat; [|discriminate].
      destruct (IH _ H) as [-> HF]. split.
      * simpl ports_of. rewrite Hscan. reflexivity.
      * constructor; [|exact HF]. simpl. rewrite Hscan. exact Hlt.
    + discriminate.
Qed.

(** A loop that returns an error has met a bad element. *)
Lemma expand_loop_inl (fuel : nat) (specs : list PortSpec) (m : gmap Z bool)
  (e : ConfigError) :
  expand_loop fuel specs m = Some (inl e) ->
  Exists (fun spec => bad_spec spec = true) specs.
Proof.
  revert m. induction specs as [|spec specs IH]; intros m H; [discriminate|].
  destruct spec as [v|v|ty]; simpl in H.
  - right. exact (IH _ H).
  - destruct (Go.Sscanf_d_dash_d v) as [[start end_]|] eqn:Hscan.
    + destruct (end_ <? start) eqn:Hlt.
      * left. simpl. rewrite Hscan. exact Hlt.
      * destruct (range_loop fuel start end_ m); [|discriminate].
        right. exact (IH _ H).
    + left. simpl. rewrite Hscan. reflexivity.
  - left. reflexivity.
Qed.

(** With no endless range, the loop ends, the same way for every fuel that
    covers the ports: with an error when some element is bad, with the map
    otherwise. *)
Lemma expand_loop_total (specs : list PortSpec) (m : gmap Z bool) :
  Forall (fun spec => endless_spec spec = false) specs ->
  exists r,
    (forall fuel, (length (all_ports specs) < fuel)%nat ->
                  expand_loop fuel specs m = Some r) /\
    ((exists e, r = inl e) <-> Exists (fun spec => bad_spec spec = true) specs).
Proof.
  intros Hend. revert m. induction Hend as [|spec specs Hspec Hend IH]; intros m.
  - exists (inr m). split; [reflexivity|]. split.
    + intros [e He]. discriminate.
    + intros H. inversion H.
  - destruct spec as [v|v|ty].
    + destruct (IH (<[v := true]> m)) as (r & Hr & Hiff).
      exists r. split.
      * intros fuel Hfuel. simpl. apply Hr.
        rewrite all_ports_cons, length_app in Hfuel. lia.
      * rewrite Hiff. split; [intros H; right; exact H|].
        intros H. inversion H as [? ? Hbad|]; [discriminate Hbad|assumption].
    + simpl in Hspec.
      destruct (Go.Sscanf_d_dash_d v) as [[start end_]|] eqn:Hscan.
      * destruct (end_ <? start) eqn:Hlt.
        { exists (inl (ReversedRange v start end_)). split.
          - intros fuel _. simpl. rewrite Hscan, Hlt. reflexivity.
          - split; [|eexists; reflexivity]. intros _. left. simpl.
            rewrite Hscan. exact Hlt. }
        assert (Hne : (end_ =? int_max) = false).
        { apply Z.ltb_ge in Hlt. apply Z.leb_le in Hlt. rewrite Hlt in Hspec.
          exact Hspec. }
        destruct (IH (mark_all (seqZ start (end_ + 1 - start)) m))
          as (r & Hr & Hiff).
        exists r. split.
        { intros fuel Hfuel. simpl. rewrite Hscan, Hlt.
          rewrite (range_step fuel v start end_ m Hscan Hlt), Hne.
          rewrite all_ports_cons, length_app in Hfuel. simpl ports_of in Hfuel.
          rewrite Hscan in Hfuel.
          replace (_ <? fuel)%nat with true by (symmetry; apply Nat.ltb_lt; lia).
          apply Hr. lia. }
        rewrite Hiff. split; [intros H; right; exact H|].
        intros H. inversion H as [? ? Hbad|]; [|assumption].
        simpl in Hbad. rewrite Hscan, Hlt in Hbad. discriminate.
      * exists (inl (InvalidRangeFormat v)). split.
        { intros fuel _. simpl. rewrite Hscan. reflexivity. }
        split; [|eexists; reflexivity]. intros _. left. simpl.
        rewrite Hscan. reflexivity.
    + exists (inl (InvalidPortSpec ty)). split; [reflexivity|].
      split; [|eexists; reflexivity]. intros _. left. reflexivity.
Qed.

(** The keys of a map, in whatever order: each key once. *)
Lemma map_keys_spec (m : gmap Z bool) :
  NoDup (map_keys m) /\ forall k, k ∈ map_keys m <-> is_Some (m !! k).
Proof.
  unfold map_keys. split.
  - rewrite (map_order_perm _). apply (NoDup_fst_map_to_list m).
  - intros k. rewrite (map_order_perm _).
    change (map fst (map_to_list m)) with ((map_to_list m).*1).
    rewrite list_elem_of_fmap. split.
    + intros ([k' v] & -> & Hin). apply elem_of_map_to_list in Hin. simpl. eauto.
    + intros [v Hv]. exists (k, v). split; [reflexivity|].
      apply elem_of_map_to_list. exact Hv.
Qed.

Lemma map_keys_mark_all (l : list Z) :
  NoDup (map_keys (mark_all l ∅)) /\
  forall k, k ∈ map_keys (mark_all l ∅) <-> k ∈ l.
Proof.
  destruct (map_keys_spec (mark_all l ∅)) as [Hnd Hin]. split; [exact Hnd|].
  intros k. rewrite Hin, mark_all_lookup.
  destruct (decide (k ∈ l)) as [Hk|Hk].
  - split; [intros _; exact Hk|eauto].
  - rewrite lookup_empty. split; [intros [? ?]; discriminate|contradiction].
Qed.

(** C5, as the code has it.  For every port list without a range that ends
    at the largest [int]: [ExpandPorts] ends, and it returns an error
    exactly when some element is a string from which
    [Sscanf("%d-%d")] does not scan two numbers, a range with
    [start > end], or neither an integer nor a string.  A list it returns has
    every port once, the ports being those of the integer elements and of
    the ranges; expanding that list again gives the same set.  For
    [A <= B] below the largest [int] the string [A-B] gives exactly
    [B - A + 1] distinct ports, those from [A] to [B]. *)
Theorem ExpandPorts_spec (config : HostConfig.t) :
  Forall (fun spec => endless_spec spec = false) (HostConfig.Ports config) ->
  (exists r, forall fuel,
      (length (all_ports (HostConfig.Ports config)) < fuel)%nat ->
      ExpandPorts fuel config = Some r) /\
  ((exists fuel e, ExpandPorts fuel config = Some (inl e)) <->
   Exists (fun spec => bad_spec spec = true) (HostConfig.Ports config)) /\
  (forall fuel ports,
      ExpandPorts fuel config = Some (inr ports) ->
      NoDup ports /\
      (forall p, In p ports <-> In p (all_ports (HostConfig.Ports config))) /\
      forall fuel', exists ports',
        ExpandPorts fuel' (with_ports config (map PortInt ports)) = Some (inr ports') /\
        Permutation ports' ports) /\
  (forall a b, is_int a -> is_int b -> a <= b -> b < int_max ->
      exists fuel ports,
        ExpandPorts fuel
          (with_ports config [PortString (Go.Itoa a ++ "-" ++ Go.Itoa b)])
          = Some (inr ports) /\
        Z.of_nat (length ports) = b - a + 1 /\
        NoDup ports /\
        forall p, In p ports <-> a <= p <= b).
Proof.
  intros Hend.
  destruct (expand_loop_total (HostConfig.Ports config) ∅ Hend) as (r & Hr & Hiff).
  split; [|split; [|split]].
  - exists (match r with inl e => inl e | inr m => inr (map_keys m) end).
    intros fuel Hfuel. unfold ExpandPorts. rewrite (Hr fuel Hfuel).
    destruct r; reflexivity.
  - split.
    + intros (fuel & e & H). unfold ExpandPorts in H.
      destruct (expand_loop fuel _ ∅) as [[e'|m]|] eqn:E; try discriminate.
      exact (expand_loop_inl _ _ _ _ E).
    + intros Hbad. apply Hiff in Hbad as [e ->].
      exists (S (length (all_ports (HostConfig.Ports config)))), e.
      unfold ExpandPorts. rewrite Hr by lia. reflexivity.
  - intros fuel ports H. unfold ExpandPorts in H.
    destruct (expand_loop fuel _ ∅) as [[e'|m]|] eqn:E; try discriminate.
    injection H as <-. destruct (expand_loop_inr _ _ _ _ E) as [-> _].
    destruct (map_keys_mark_all (all_ports (HostConfig.Ports config))) as [Hnd Hin].
    split; [exact Hnd|].
    split; [intros p; rewrite <- !list_elem_of_In; apply Hin|].
    intros fuel'. eexists. split.
    + unfold ExpandPorts. simpl HostConfig.Ports. rewrite expand_loop_ints.
      reflexivity.
    + destruct (map_keys_mark_all
                  (map_keys (mark_all (all_ports (HostConfig.Ports config)) ∅)))
        as [Hnd' Hin'].
      apply NoDup_Permutation; assumption.
  - intros a b Ha Hb Hab Hmax.
    pose proof (Sscanf_range_string a b Ha Hb) as Hscan.
    assert (Hlt : (b <? a) = false) by (apply Z.ltb_ge; lia).
    exists (S (length (seqZ a (b + 1 - a)))). eexists. split.
    + unfold ExpandPorts. cbn [HostConfig.Ports with_ports expand_loop].
      rewrite Hscan, Hlt, (range_step _ _ _ _ _ Hscan Hlt).
      replace (b =? int_max) with false by (symmetry; apply Z.eqb_neq; lia).
      replace (_ <? S _)%nat with true
        by (symmetry; apply Nat.ltb_lt, Nat.lt_succ_diag_r).
      reflexivity.
    + destruct (map_keys_mark_all (seqZ a (b + 1 - a))) as [Hnd Hin].
      assert (Hperm : Permutation (map_keys (mark_all (seqZ a (b + 1 - a)) ∅))
                                  (seqZ a (b + 1 - a))).
      { apply NoDup_Permutation; [exact Hnd|apply NoDup_seqZ|exact Hin]. }
      split; [|split; [exact Hnd|]].
      * rewrite (Permutation_length Hperm), length_seqZ. lia.
      * intros p. rewrite <- list_elem_of_In, Hin, elem_of_seqZ. lia.
Qed.

End ExpandPortsProperties.

Lemma ExpandPorts_spec_witness :
  exists ports,
    @ExpandPorts example_platform 10 scenario_A = Some (inr ports) /\
    NoDup ports /\
    (forall p, In p ports <-> In p [80; 443; 5432; 5433; 80]) /\
    length ports = 4%nat.
Proof.
  assert (Hend : Forall (fun spec => endless_spec spec = false)
                        (HostConfig.Ports scenario_A)).
  { repeat constructor. }
  destruct (@ExpandPorts_spec example_platform scenario_A Hend) as (_ & _ & H3 & _).
  destruct (@ExpandPorts example_platform 10 scenario_A) as [[e|ports]|] eqn:E;
    try (vm_compute in E; discriminate E).
  destruct (H3 10%nat ports E) as (Hnd & Hin & _).
  exists ports. split; [reflexivity|]. split; [exact Hnd|]. split; [exact Hin|].
  vm_compute in E. injection E as <-. reflexivity.
Defined.

(** C5 as the specification states it fails twice.  A string that is not
    of the form [A-B] does not make [ExpandPorts] fail when it starts like
    one: the text after the second number is not looked at.  And a range
    [A-B] with [A <= B] that ends at the largest [int] gives no ports at
    all: its loop never ends. *)
Lemma ExpandPorts_not_spec :
  (spec_range_syntax "1-2x" = false /\
   spec_bad_spec (PortString "1-2x") = true /\
   @ExpandPorts example_platform 10 (example_host [PortString "1-2x"])
     = Some (inr [2; 1])) /\
  (spec_range_syntax "9223372036854775806-9223372036854775807" = true /\
   Go.Sscanf_d_dash_d "9223372036854775806-9223372036854775807"
     = Some (int_max - 1, int_max) /\
   forall fuel,
     @ExpandPorts example_platform fuel
       (example_host [PortString "9223372036854775806-9223372036854775807"])
       = None).
Proof.
  split.
  - split; [reflexivity|]. split; [reflexivity|]. vm_compute. reflexivity.
  - split; [reflexivity|].
    assert (Hscan : Go.Sscanf_d_dash_d "9223372036854775806-9223372036854775807"
                    = Some (int_max - 1, int_max)) by (vm_compute; reflexivity).
    split; [exact Hscan|].
    intros fuel. unfold ExpandPorts. cbn [HostConfig.Ports example_host expand_loop].
    rewrite Hscan.
    replace (int_max <? int_max - 1) with false by reflexivity.
    rewrite range_loop_endless; [reflexivity|]. int_bounds. lia.
Qed.

(* ===================================================================== *)
(** * Part III: further properties of the sources                          *)
(* ===================================================================== *)

(** ** Loading the configuration (config.go) *)

Section MoreConfig.
Context {platform : Platform}.

(** X1.  [LoadConfig] keeps the hosts of the file, in order, and sets two
    defaults on each: a jump port of 0 becomes 22 and an empty key path
    becomes [~/.ssh/id_rsa]; a jump port or key path that is given, and the
    host names when there are some, stay as they are, like every other
    field.  No loaded host has the jump port 0 or an empty key path. *)
Theorem LoadConfig_defaults (hosts : list HostConfig.t) (i : nat)
  (h : HostConfig.t) :
  hosts !! i = Some h ->
  exists loaded logged h',
    LoadConfig (Parsed hosts) = (inr loaded, logged) /\
    length loaded = length hosts /\
    loaded !! i = Some h' /\
    HostConfig.JumpPort h' =
      (if HostConfig.JumpPort h =? 0 then 22 else HostConfig.JumpPort h) /\
    HostConfig.KeyPath h' =
      (if String.eqb (HostConfig.KeyPath h) EmptyString then "~/.ssh/id_rsa"
       else HostConfig.KeyPath h) /\
    HostConfig.JumpPort h' <> 0 /\
    HostConfig.KeyPath h' <> EmptyString /\
    (HostConfig.Hostnames h <> [] ->
     HostConfig.Hostnames h' = HostConfig.Hostnames h) /\
    HostConfig.LocalIP h' = HostConfig.LocalIP h /\
    HostConfig.RemoteHost h' = HostConfig.RemoteHost h /\
    HostConfig.JumpHost h' = HostConfig.JumpHost h /\
    HostConfig.IdentityAgent h' = HostConfig.IdentityAgent h /\
    HostConfig.Ports h' = HostConfig.Ports h.
Proof.
  intros Hi.
  exists (map fst (map host_defaults hosts)),
         (concat (map snd (map host_defaults hosts))),
         (fst (host_defaults h)).
  split; [reflexivity|]. split; [rewrite !length_map; reflexivity|]. split.
  { change (map fst (map host_defaults hosts))
      with (fst <$> (host_defaults <$> hosts)).
    rewrite !list_lookup_fmap, Hi. reflexivity. }
  unfold host_defaults.
  destruct (length (HostConfig.Hostnames h) =? 0)%nat eqn:Elen.
  - destruct (isIPAddress (HostConfig.RemoteHost h)); cbn [fst HostConfig.JumpPort
      HostConfig.KeyPath HostConfig.Hostnames HostConfig.LocalIP
      HostConfig.RemoteHost HostConfig.JumpHost HostConfig.IdentityAgent
      HostConfig.Ports].
    all: split; [reflexivity|]; split; [reflexivity|].
    all: split; [destruct (Z.eqb_spec (HostConfig.JumpPort h) 0);
                 [unfold SSHDefaultPort; lia|assumption]|].
    all: split; [destruct (String.eqb_spec (HostConfig.KeyPath h) EmptyString);
                 [discriminate|assumption]|].
    all: split; [|repeat split].
    all: intros Hne; destruct (HostConfig.Hostnames h); [contradiction|discriminate].
  - cbn [fst HostConfig.JumpPort HostConfig.KeyPath HostConfig.Hostnames
         HostConfig.LocalIP HostConfig.RemoteHost HostConfig.JumpHost
         HostConfig.IdentityAgent HostConfig.Ports].
    split; [reflexivity|]. split; [reflexivity|].
    split; [destruct (Z.eqb_spec (HostConfig.JumpPort h) 0);
            [unfold SSHDefaultPort; lia|assumption]|].
    split; [destruct (String.eqb_spec (HostConfig.KeyPath h) EmptyString);
            [discriminate|assumption]|].
    repeat split.
Qed.

Lemma expand_loop_good (fuel : nat) (good rest : list PortSpec) (m : gmap Z bool) :
  Forall (fun spec => spec_error spec = None) good ->
  Forall (fun spec => endless_spec spec = false) good ->
  (length (all_ports good) < fuel)%nat ->
  expand_loop fuel (good ++ rest) m =
  expand_loop fuel rest (mark_all (all_ports good) m).
Proof.
  intros Hgood. revert m. induction Hgood as [|spec good Hspec Hgood IH];
    intros m Hend Hfuel; [reflexivity|].
  inversion Hend as [|? ? Hespec Hend']; subst.
  rewrite all_ports_cons, length_app in Hfuel.
  rewrite all_ports_cons, mark_all_app.
  destruct spec as [v|v|ty]; simpl in Hspec; [| |discriminate].
  - simpl. apply IH; [exact Hend'|]. simpl in Hfuel. lia.
  - cbn [app expand_loop]. simpl in Hespec. simpl ports_of in *.
    destruct (Go.Sscanf_d_dash_d v) as [[start end_]|] eqn:Hscan; [|discriminate].
    destruct (end_ <? start) eqn:Hlt; [discriminate|].
    rewrite (range_step fuel v start end_ m Hscan Hlt).
    assert (Hne : (end_ =? int_max) = false).
    { apply Z.ltb_ge in Hlt. apply Z.leb_le in Hlt. rewrite Hlt in Hespec.
      exact Hespec. }
    rewrite Hne.
    replace (_ <? fuel)%nat with true by (symmetry; apply Nat.ltb_lt; lia).
    apply IH; [exact Hend'|lia].
Qed.

(** X2.  [ExpandPorts] returns the error of the first element of the port
    list that has one; the elements after it are not looked at. *)
Theorem ExpandPorts_first_error (config : HostConfig.t)
  (good rest : list PortSpec) (bad : PortSpec) (e : ConfigError) (fuel : nat) :
  HostConfig.Ports config = good ++ bad :: rest ->
  Forall (fun spec => spec_error spec = None) good ->
  Forall (fun spec => endless_spec spec = false) good ->
  spec_error bad = Some e ->
  (length (all_ports good) < fuel)%nat ->
  ExpandPorts fuel config = Some (inl e).
Proof.
  intros Hports Hgood Hend Hbad Hfuel. unfold ExpandPorts.
  rewrite Hports, (expand_loop_good fuel good (bad :: rest) ∅ Hgood Hend Hfuel).
  destruct bad as [v|v|ty]; simpl in Hbad; [discriminate| |].
  - simpl. destruct (Go.Sscanf_d_dash_d v) as [[start end_]|].
    + destruct (end_ <? start); [|discriminate]. injection Hbad as <-. reflexivity.
    + injection Hbad as <-. reflexivity.
  - injection Hbad as <-. reflexivity.
Qed.

(** X3.  [ExpandPorts] does not check that a port is a TCP port: every
    integer of the list, 0, a negative number or a number above 65535
    included, is returned as it is. *)
Theorem ExpandPorts_unchecked_port (config : HostConfig.t) (v : Z) (fuel : nat) :
  ExpandPorts fuel (with_ports config [PortInt v]) = Some (inr [v]).
Proof.
  unfold ExpandPorts. cbn [with_ports HostConfig.Ports expand_loop].
  f_equal. f_equal. unfold map_keys.
  rewrite insert_empty, map_to_list_singleton. cbn [map fst].
  apply Permutation_singleton_r. apply map_order_perm.
Qed.

End MoreConfig.

Lemma LoadConfig_defaults_witness :
  exists loaded logged,
    @LoadConfig example_platform (Parsed [example_host []]) = (inr loaded, logged) /\
    HostConfig.JumpPort <$> loaded = [22] /\
    HostConfig.KeyPath <$> loaded = ["~/.ssh/id_rsa"].
Proof.
  destruct (@LoadConfig_defaults example_platform [example_host []] 0%nat
              (example_host []) eq_refl)
    as (loaded & logged & h' & Hload & _).
  exists loaded, logged. split; [exact Hload|].
  vm_compute in Hload. injection Hload as <- <-. split; reflexivity.
Defined.

Lemma ExpandPorts_first_error_witness :
  @ExpandPorts example_platform 10
    (example_host [PortInt 80; PortString "8000-8002"; PortString "100-50";
                   PortString "invalid"])
  = Some (inl (ReversedRange "100-50" 100 50)).
Proof.
  apply (@ExpandPorts_first_error example_platform _
           [PortInt 80; PortString "8000-8002"] [PortString "invalid"]
           (PortString "100-50")).
  - reflexivity.
  - repeat constructor.
  - repeat constructor.
  - reflexivity.
  - vm_compute. lia.
Defined.

(** X4.  Two ports get the same listen port exactly when they are the same
    port, or when one is below 1024 and the other is that port plus 10000:
    the listeners of the ports 80 and 10080 of one host ask for the same
    address. *)
Theorem ListenPort_clash (h1 h2 : HostConfig.t) (p1 p2 : Z) :
  is_int p1 -> is_int p2 ->
  (ForwardConfig.ListenPort (NewForwardConfig h1 p1) =
   ForwardConfig.ListenPort (NewForwardConfig h2 p2)
   <-> p1 = p2 \/ (p1 < 1024 <= p2 /\ p2 = 10000 + p1) \/
       (p2 < 1024 <= p1 /\ p1 = 10000 + p2)).
Proof.
  intros H1 H2. unfold NewForwardConfig. cbn [ForwardConfig.ListenPort].
  assert (W1 : p1 < 1024 -> wrap (10000 + p1) = 10000 + p1)
    by (intros; apply wrap_id; int_bounds; lia).
  assert (W2 : p2 < 1024 -> wrap (10000 + p2) = 10000 + p2)
    by (intros; apply wrap_id; int_bounds; lia).
  destruct (Z.ltb_spec p1 1024), (Z.ltb_spec p2 1024);
    rewrite ?W1, ?W2 by assumption; lia.
Qed.

Lemma ListenPort_clash_witness :
  ForwardConfig.ListenPort (NewForwardConfig (example_host []) 80) =
  ForwardConfig.ListenPort (NewForwardConfig (example_host []) 10080).
Proof.
  assert (H1 : is_int 80) by (int_bounds; lia).
  assert (H2 : is_int 10080) by (int_bounds; lia).
  apply (ListenPort_clash (example_host []) (example_host []) 80 10080 H1 H2).
  right. left. lia.
Defined.

(** ** Finding the configuration file (config.go, ssh.go) *)

(** X5.  A path [ExpandKeyPath] has expanded under an absolute home
    directory needs no further expansion: expanding it again, with or
    without a home directory, gives it back. *)
Theorem ExpandKeyPath_idempotent (home keyPath : string)
  (homeDir' : string + string) :
  Go.HasPrefix home "/" = true ->
  exists expanded,
    ExpandKeyPath (inr home) keyPath = inr expanded /\
    ExpandKeyPath homeDir' expanded = inr expanded.
Proof.
  intros Habs. unfold Go.HasPrefix in Habs.
  destruct home as [|c home']; [discriminate|].
  rewrite prefix_cons in Habs.
  destruct (Ascii.eqb "/" c) eqn:Ec; [|discriminate].
  apply Ascii.eqb_eq in Ec. subst c.
  assert (Hslash : forall rest, ExpandKeyPath homeDir' (String "/" rest) =
                                inr (String "/" rest)).
  { intros rest. reflexivity. }
  unfold ExpandKeyPath at 1.
  destruct (Go.HasPrefix keyPath "~/") eqn:E1.
  - eexists. split; [reflexivity|]. rewrite append_cons. apply Hslash.
  - destruct (String.eqb keyPath "~") eqn:E2.
    + eexists. split; [reflexivity|]. apply Hslash.
    + exists keyPath. split; [reflexivity|].
      unfold ExpandKeyPath. rewrite E1, E2. reflexivity.
Qed.

Lemma ExpandKeyPath_idempotent_witness :
  ExpandKeyPath (inr "/Users/alice") "~/.ssh/id_rsa" = inr "/Users/alice/.ssh/id_rsa" /\
  ExpandKeyPath (inl "$HOME is not defined") "/Users/alice/.ssh/id_rsa" =
    inr "/Users/alice/.ssh/id_rsa".
Proof.
  destruct (ExpandKeyPath_idempotent "/Users/alice" "~/.ssh/id_rsa"
              (inl "$HOME is not defined") eq_refl) as (expanded & H1 & H2).
  vm_compute in H1. injection H1 as <-. split; [reflexivity|exact H2].
Defined.

(** X6.  [FindConfigPath] returns only a path that exists, [config.yaml] of
    the current directory first and else [.config/portsmith/config.yaml]
    under the home directory; it fails exactly when the current directory
    has no [config.yaml] and the home directory is unknown or has none. *)
Theorem FindConfigPath_spec (stat : string -> bool) (homeDir : string + string) :
  match FindConfigPath stat homeDir with
  | inr path =>
      stat path = true /\
      (path = "config.yaml" \/
       stat "config.yaml" = false /\
       exists home, homeDir = inr home /\
                    path = (home ++ "/.config/portsmith/config.yaml")%string)
  | inl _ =>
      stat "config.yaml" = false /\
      forall home, homeDir = inr home ->
                   stat (home ++ "/.config/portsmith/config.yaml")%string = false
  end.
Proof.
  unfold FindConfigPath, DefaultConfigPath.
  destruct (stat "config.yaml") eqn:E1.
  { split; [exact E1|]. left. reflexivity. }
  destruct homeDir as [e|home].
  { cbn. split; [reflexivity|]. intros home [=]. }
  change (ExpandKeyPath (inr home) GlobalConfigPath)
    with (@inr string string (home ++ "/.config/portsmith/config.yaml")%string).
  cbv iota beta.
  destruct (stat (home ++ "/.config/portsmith/config.yaml")%string) eqn:E2.
  - split; [exact E2|]. right. split; [reflexivity|]. exists home. split; reflexivity.
  - split; [reflexivity|]. intros home' [= <-]. exact E2.
Qed.

(** ** Loading the authentication methods (ssh.go) *)


(** X7.  When [loadSSHAuthMethods] succeeds it returns two methods, public
    keys and keyboard-interactive, and it has found the keys either in the
    agent it asked (the configured identity agent before [SSH_AUTH_SOCK]) or
    in the key file. *)
Theorem loadSSHAuthMethods_methods (env : AuthEnv) (keyPath identityAgent : string)
  (methods : list AuthMethod) :
  loadSSHAuthMethods env keyPath identityAgent = inr methods ->
  methods = [PublicKeys; KeyboardInteractive] /\
  ((exists signers,
       agent_socket env identityAgent <> EmptyString /\
       env_agent env (agent_socket env identityAgent) = inr (inr (S signers))) \/
   (exists path key,
       ExpandKeyPath (env_homeDir env) keyPath = inr path /\
       env_ReadFile env path = inr key /\
       (env_ParsePrivateKey env key = KeyParsed \/
        env_ParsePrivateKey env key = PassphraseMissing))).
Proof.
  unfold loadSSHAuthMethods.
  assert (Hfile : load_key_file env keyPath = inr methods ->
            methods = [PublicKeys; KeyboardInteractive] /\
            exists path key,
              ExpandKeyPath (env_homeDir env) keyPath = inr path /\
              env_ReadFile env path = inr key /\
              (env_ParsePrivateKey env key = KeyParsed \/
               env_ParsePrivateKey env key = PassphraseMissing)).
  { unfold load_key_file.
    destruct (ExpandKeyPath _ keyPath) as [e|path]; [discriminate|].
    destruct (env_ReadFile env path) as [e|key] eqn:Eread; [discriminate|].
    destruct (env_ParsePrivateKey env key) eqn:Eparse.
    - intros [= <-]. split; [reflexivity|]. exists path, key. auto.
    - destruct (env_ReadPassword env) as [e|pass]; [discriminate|].
      destruct (env_ParsePrivateKeyWithPassphrase env key pass); [discriminate|].
      intros [= <-]. split; [reflexivity|]. exists path, key. auto.
    - discriminate. }
  destruct (agent_has_keys env identityAgent) eqn:Eagent.
  - intros [= <-]. split; [reflexivity|]. left. unfold agent_has_keys in Eagent.
    destruct (String.eqb_spec (agent_socket env identityAgent) EmptyString)
      as [Es|Es]; [discriminate|]. cbn [negb] in Eagent.
    destruct (env_agent env (agent_socket env identityAgent))
      as [e|[e|[|signers]]]; try discriminate.
    exists signers. split; [exact Es|reflexivity].
  - intros H. destruct (Hfile H) as [Hm Hex]. split; [exact Hm|]. right. exact Hex.
Qed.

Lemma loadSSHAuthMethods_methods_witness :
  loadSSHAuthMethods example_auth_env "~/.ssh/id_rsa" "~/agent.sock"
    = inr [PublicKeys; KeyboardInteractive] /\
  agent_socket example_auth_env "~/agent.sock" = "/Users/alice/agent.sock".
Proof.
  destruct (loadSSHAuthMethods_methods example_auth_env "~/.ssh/id_rsa"
              "~/agent.sock" [PublicKeys; KeyboardInteractive] eq_refl)
    as [_ _].
  split; reflexivity.
Defined.

Lemma LoadAuthMethodsWithRetry_socket_error (fuel n : nat) (pool : SSHClientPool)
  (keyPath identityAgent msg : string) :
  authMethods pool !! auth_cacheKey keyPath identityAgent = None ->
  Go.Contains msg "no such file" = true ->
  LoadAuthMethodsWithRetry fuel pool keyPath identityAgent (repeat (inl msg) n)
    = Waits.
Proof.
  intros Hmiss Hmsg. revert n. induction fuel as [|fuel IH]; intros n; [reflexivity|].
  cbn [LoadAuthMethodsWithRetry]. unfold LoadAuthMethods. rewrite Hmiss.
  destruct n as [|n]; [reflexivity|]. cbn [repeat].
  rewrite (Contains_app_r _ msg "no such file" Hmsg), orb_true_r. cbn [negb].
  apply IH.
Qed.

(** X8.  With no agent that has keys and a key file that is not there, the
    loader is asked again and again: however many times it has answered,
    [LoadAuthMethodsWithRetry] has not returned, and a [GetClient] that needs
    the methods has not either. *)
Theorem missing_key_file_never_returns (env : AuthEnv) (pool : SSHClientPool)
  (jumpHost : string) (jumpPort : Z) (keyPath identityAgent path e : string)
  (user : string + string) (dials : list (string + Client)) (fuel n : nat) :
  clients pool !! clientKey jumpHost jumpPort = None ->
  authMethods pool !! auth_cacheKey keyPath identityAgent = None ->
  agent_has_keys env identityAgent = false ->
  ExpandKeyPath (env_homeDir env) keyPath = inr path ->
  env_ReadFile env path = inl e ->
  Go.Contains e "no such file" = true ->
  LoadAuthMethodsWithRetry fuel pool keyPath identityAgent
    (auth_answers env keyPath identityAgent n) = Waits /\
  GetClient pool jumpHost jumpPort keyPath identityAgent
    (mkConnEnv (auth_answers env keyPath identityAgent n) user dials) = Waits.
Proof.
  intros Hclient Hmiss Hagent Hpath Hread He.
  assert (Hans : auth_answers env keyPath identityAgent n =
                 repeat (inl ("could not read key file " ++ path ++ ": " ++ e)%string) n).
  { unfold auth_answers, loadSSHAuthMethods, load_key_file.
    rewrite Hagent, Hpath, Hread. reflexivity. }
  assert (Hmsg : Go.Contains ("could not read key file " ++ path ++ ": " ++ e)
                   "no such file" = true).
  { apply (Contains_app_r "could not read key file "), Contains_app_r,
      (Contains_app_r ": "), He. }
  rewrite Hans. split.
  - apply LoadAuthMethodsWithRetry_socket_error; assumption.
  - unfold GetClient. rewrite Hclient, Hmiss. cbn [auth_results].
    rewrite LoadAuthMethodsWithRetry_socket_error by assumption. reflexivity.
Qed.

Lemma missing_key_file_never_returns_witness :
  GetClient NewSSHClientPool "jump.example.com" 22 "~/.ssh/id_rsa" EmptyString
    (mkConnEnv (auth_answers no_agent_env "~/.ssh/id_rsa" EmptyString 1000)
               (inr "alice") [inr 7%nat]) = Waits.
Proof.
  apply (missing_key_file_never_returns no_agent_env NewSSHClientPool
           "jump.example.com" 22 "~/.ssh/id_rsa" EmptyString
           "/Users/alice/.ssh/id_rsa"
           "open /Users/alice/.ssh/id_rsa: no such file or directory"
           (inr "alice") [inr 7%nat] 0 1000);
    reflexivity.
Defined.

(** ** The pool of SSH clients, continued (ssh.go) *)

Lemma LoadAuthMethodsWithRetry_closed (fuel : nat) (pool : SSHClientPool)
  (keyPath identityAgent : string) (loads : list (string + list AuthMethod))
  (e : error) (pool' : SSHClientPool) :
  LoadAuthMethodsWithRetry fuel pool keyPath identityAgent loads = Returns (e, pool') ->
  closedClients pool' = closedClients pool.
Proof.
  revert pool loads. induction fuel as [|fuel IH]; intros pool loads; [discriminate|].
  simpl. unfold LoadAuthMethods.
  destruct (authMethods pool !! auth_cacheKey keyPath identityAgent).
  - intros [= <- <-]. reflexivity.
  - destruct loads as [|[msg|methods] rest]; [discriminate| |].
    + destruct (negb _).
      * intros [= <- <-]. reflexivity.
      * apply IH.
    + intros [= <- <-]. reflexivity.
Qed.

(** What a failing [GetClient] leaves of the pool. *)
Lemma GetClient_failure_pool (pool : SSHClientPool) (h : string) (p : Z)
  (keyPath identityAgent : string) (env : ConnEnv) (e : string)
  (pool' : SSHClientPool) :
  GetClient pool h p keyPath identityAgent env = Returns (inl e, pool') ->
  clients pool' = clients pool /\ closedClients pool' = closedClients pool.
Proof.
  unfold GetClient.
  destruct (clients pool !! clientKey h p) as [c0|] eqn:Hc; [discriminate|].
  assert (Hconnect : forall pool1,
             match user_result env with
             | inl e => Returns (inl ("failed to get current user: " ++ e)%string, pool1)
             | inr _ =>
                 match dial_loop (clientKey h p) 1 (dial_results env) with
                 | Returns (inl e) => Returns (inl e, pool1)
                 | Returns (inr client) =>
                     Returns (inr client,
                              mkPool (<[clientKey h p := client]> (clients pool1))
                                     (authMethods pool1) (closedClients pool1))
                 | Panics msg => Panics msg
                 | Waits => Waits
                 end
             end = Returns (inl e, pool') -> pool' = pool1).
  { intros pool1. destruct (user_result env) as [e1|username].
    { intros [= _ <-]. reflexivity. }
    destruct (dial_loop _ 1 (dial_results env)) as [[e1|client]| |];
      try discriminate.
    intros [= _ <-]. reflexivity. }
  assert (Hload : forall fuel,
             match LoadAuthMethodsWithRetry fuel pool keyPath identityAgent
                     (auth_results env) with
             | Returns (Some e, pool') =>
                 Returns (inl ("failed to load SSH auth methods: " ++ e)%string, pool')
             | Returns (None, pool') =>
                 match authMethods pool' !! auth_cacheKey keyPath identityAgent with
                 | Some (m :: ms) =>
                     match user_result env with
                     | inl e =>
                         Returns (inl ("failed to get current user: " ++ e)%string, pool')
                     | inr _ =>
                         match dial_loop (clientKey h p) 1 (dial_results env) with
                         | Returns (inl e) => Returns (inl e, pool')
                         | Returns (inr client) =>
                             Returns (inr client,
                                      mkPool (<[clientKey h p := client]> (clients pool'))
                                             (authMethods pool') (closedClients pool'))
                         | Panics msg => Panics msg
                         | Waits => Waits
                         end
                     end
                 | _ =>
                     Returns (inl ("no authentication methods available for key " ++
                                   keyPath ++ " after loading")%string, pool')
                 end
             | Panics msg => Panics msg
             | Waits => Waits
             end = Returns (inl e, pool') ->
             clients pool' = clients pool /\ closedClients pool' = closedClients pool).
  { intros fuel.
    destruct (LoadAuthMethodsWithRetry fuel pool keyPath identityAgent _)
      as [[[e1|] pool1]| |] eqn:Hl; try discriminate.
    - intros [= _ <-]. split.
      + exact (LoadAuthMethodsWithRetry_clients _ _ _ _ _ _ _ Hl).
      + exact (LoadAuthMethodsWithRetry_closed _ _ _ _ _ _ _ Hl).
    - pose proof (LoadAuthMethodsWithRetry_clients _ _ _ _ _ _ _ Hl) as Hcl.
      pose proof (LoadAuthMethodsWithRetry_closed _ _ _ _ _ _ _ Hl) as Hcd.
      destruct (authMethods pool1 !! auth_cacheKey keyPath identityAgent)
        as [[|m ms]|].
      + intros [= _ <-]. split; assumption.
      + intros H. apply Hconnect in H. subst pool'. split; assumption.
      + intros [= _ <-]. split; assumption. }
  destruct (authMethods pool !! auth_cacheKey keyPath identityAgent)
    as [[|m ms]|] eqn:Ha.
  - apply Hload.
  - intros H. apply Hconnect in H. subst pool'. split; reflexivity.
  - apply Hload.
Qed.

(** X9.  A [GetClient] that returns an error leaves the clients of the pool
    as they were: nothing is cached, nothing is removed, nothing is
    closed. *)
Theorem GetClient_failure_keeps_clients (pool : SSHClientPool) (h : string) (p : Z)
  (keyPath identityAgent : string) (env : ConnEnv) (e : string)
  (pool' : SSHClientPool) :
  GetClient pool h p keyPath identityAgent env = Returns (inl e, pool') ->
  clients pool' = clients pool /\ closedClients pool' = closedClients pool.
Proof. apply GetClient_failure_pool. Qed.

Lemma GetClient_failure_keeps_clients_witness :
  exists e pool',
    GetClient NewSSHClientPool "jump.example.com" 22 "~/.ssh/id_rsa" EmptyString
      (mkConnEnv [inr [PublicKeys; KeyboardInteractive]] (inr "alice")
                 [inl "ssh: handshake failed: connection reset by peer"])
      = Returns (inl e, pool') /\
    clients pool' = ∅ /\
    authMethods pool' !! "~/.ssh/id_rsa" = Some [PublicKeys; KeyboardInteractive].
Proof.
  destruct (GetClient NewSSHClientPool "jump.example.com" 22 "~/.ssh/id_rsa"
              EmptyString
              (mkConnEnv [inr [PublicKeys; KeyboardInteractive]] (inr "alice")
                 [inl "ssh: handshake failed: connection reset by peer"]))
    as [[[e|c] pool']| |] eqn:E; try (vm_compute in E; discriminate E).
  exists e, pool'. split; [reflexivity|].
  destruct (GetClient_failure_keeps_clients _ _ _ _ _ _ _ _ E) as [Hc _].
  split; [exact Hc|]. vm_compute in E. injection E as _ <-. reflexivity.
Defined.

Lemma dial_loop_three (jumpAddr : string) (d1 d2 d3 : string + Client)
  (rest : list (string + Client)) :
  dial_loop jumpAddr 1 (d1 :: d2 :: d3 :: rest) = dial_loop jumpAddr 1 [d1; d2; d3] /\
  dial_loop jumpAddr 1 [d1; d2; d3] <> Waits.
Proof.
  cbn [dial_loop].
  destruct d1 as [e1|c1]; [|split; [reflexivity|discriminate]].
  destruct (negb _ || (1 =? maxRetries)); [split; [reflexivity|discriminate]|].
  destruct d2 as [e2|c2]; [|split; [reflexivity|discriminate]].
  destruct (negb _ || (1 + 1 =? maxRetries)); [split; [reflexivity|discriminate]|].
  destruct d3 as [e3|c3]; [|split; [reflexivity|discriminate]].
  change (1 + 1 + 1 =? maxRetries) with true. rewrite orb_true_r.
  split; [reflexivity|discriminate].
Qed.

(** X10.  [GetClient] dials the jump host at most three times: what it
    does depends on the answers of the first three dials only, and with
    three answers the dial loop has ended. *)
Theorem GetClient_dials_at_most_three (pool : SSHClientPool) (h : string) (p : Z)
  (keyPath identityAgent : string) (auths : list (string + list AuthMethod))
  (user : string + string) (d1 d2 d3 : string + Client)
  (rest : list (string + Client)) :
  GetClient pool h p keyPath identityAgent (mkConnEnv auths user (d1 :: d2 :: d3 :: rest))
  = GetClient pool h p keyPath identityAgent (mkConnEnv auths user [d1; d2; d3]) /\
  dial_loop (clientKey h p) 1 [d1; d2; d3] <> Waits.
Proof.
  destruct (dial_loop_three (clientKey h p) d1 d2 d3 rest) as [Heq Hne].
  split; [|exact Hne].
  unfold GetClient. cbn [dial_results user_result auth_results].
  rewrite Heq. reflexivity.
Qed.

(** X11.  [Close] closes every client of the pool and removes none: a
    [GetClient] after it, for a (host, port) that had a client, returns that
    client, which is closed, and dials nothing. *)
Theorem GetClient_after_Close (pool : SSHClientPool) (h : string) (p : Z)
  (keyPath identityAgent : string) (env : ConnEnv) (c : Client) :
  clients pool !! clientKey h p = Some c ->
  GetClient (PoolClose pool) h p keyPath identityAgent env
    = Returns (inr c, PoolClose pool) /\
  c ∈ closedClients (PoolClose pool).
Proof.
  intros Hc. split.
  - apply GetClient_cached. exact Hc.
  - unfold PoolClose. cbn [closedClients]. apply elem_of_union_l.
    apply elem_of_list_to_set.
    change (map snd (map_to_list (clients pool))) with ((map_to_list (clients pool)).*2).
    apply list_elem_of_fmap. exists (clientKey h p, c). split; [reflexivity|].
    apply elem_of_map_to_list. exact Hc.
Qed.

Lemma GetClient_after_Close_witness :
  exists pool,
    clients pool !! clientKey "jump.example.com" 22 = Some 7%nat /\
    GetClient (PoolClose pool) "jump.example.com" 22 "~/.ssh/id_rsa" EmptyString
      (dial_gives 9%nat) = Returns (inr 7%nat, PoolClose pool) /\
    7%nat ∈ closedClients (PoolClose pool).
Proof.
  exists (mkPool {[clientKey "jump.example.com" 22 := 7%nat]} ∅ ∅).
  assert (Hc : clients (mkPool {[clientKey "jump.example.com" 22 := 7%nat]} ∅ ∅)
               !! clientKey "jump.example.com" 22 = Some 7%nat)
    by apply lookup_singleton_eq.
  split; [exact Hc|].
  exact (GetClient_after_Close _ "jump.example.com" 22 "~/.ssh/id_rsa" EmptyString
           (dial_gives 9%nat) 7%nat Hc).
Defined.

(** X12.  [RemoveClient] closes the client of its (host, port) and removes
    it from the pool; the clients of every other (host, port), the
    authentication methods and, when the pair has no client, the whole pool
    stay as they are. *)
Theorem RemoveClient_spec (pool : SSHClientPool) (h : string) (p : Z) :
  clients (RemoveClient pool h p) !! clientKey h p = None /\
  (forall h' p', (h', p') <> (h, p) ->
     clients (RemoveClient pool h p) !! clientKey h' p' =
     clients pool !! clientKey h' p') /\
  authMethods (RemoveClient pool h p) = authMethods pool /\
  closedClients (RemoveClient pool h p) =
    match clients pool !! clientKey h p with
    | Some c => {[c]} ∪ closedClients pool
    | None => closedClients pool
    end /\
  (clients pool !! clientKey h p = None -> RemoveClient pool h p = pool).
Proof.
  split; [apply RemoveClient_same|].
  split; [intros h' p' Hne; apply RemoveClient_other; congruence|].
  unfold RemoveClient.
  destruct (clients pool !! clientKey h p) as [c|] eqn:Hc; cbn.
  - repeat split. discriminate.
  - repeat split.
Qed.

(** ** Setting up the network (network.go) *)

Lemma listeners_app (tr1 tr2 : list Event) :
  listeners (tr1 ++ tr2) = listeners tr1 ++ listeners tr2.
Proof. apply omap_app. Qed.

Lemma helper_calls_app (tr1 tr2 : list Event) :
  helper_calls (tr1 ++ tr2) = helper_calls tr1 ++ helper_calls tr2.
Proof. apply omap_app. Qed.

Lemma set_cleanup_id (df : DynamicForwarder) : set_cleanup df (cleanup df) = df.
Proof. destruct df. reflexivity. Qed.

Lemma set_cleanup_twice (df : DynamicForwarder) (a b : list Undo) :
  set_cleanup (set_cleanup df a) b = set_cleanup df b.
Proof. reflexivity. Qed.

Section MoreNetwork.
Context {platform : Platform}.

Lemma add_hosts_loop_success (ip : string) (hostnames : list string) (s s' : Sys) :
  add_hosts_loop ip hostnames s = (None, s') ->
  trace s' = trace s ++
             map (fun hostname => EvHelper ["add-host"; ip; hostname]) hostnames.
Proof.
  revert s. induction hostnames as [|hostname rest IH]; intros s H.
  - injection H as <-. rewrite app_nil_r. reflexivity.
  - cbn [add_hosts_loop] in H.
    pose proof (runHelper_trace ["add-host"; ip; hostname] s) as Ht.
    destruct (runHelper ["add-host"; ip; hostname] s) as [[e|] s1];
      [discriminate|].
    cbn [snd] in Ht. rewrite (IH _ H), Ht, <- app_assoc. reflexivity.
Qed.

(** The two steps of [SetupNetwork] for one host, when both succeed. *)
Lemma setup_host_success (config : HostConfig.t) (s : Sys) (u1 u2 : Undo)
  (s1 s2 : Sys) :
  SetupLoopbackAlias (HostConfig.LocalIP config) s = ((Some u1, None), s1) ->
  AddHostsEntries (HostConfig.LocalIP config) (HostConfig.Hostnames config) s1
    = ((Some u2, None), s2) ->
  [u1; u2] = host_undos config /\
  trace s2 = trace s ++ host_setup_events config.
Proof.
  unfold SetupLoopbackAlias, AddHostsEntries, host_undos, host_setup_events.
  pose proof (runHelper_trace ["add-alias"; HostConfig.LocalIP config] s) as Ht.
  destruct (runHelper ["add-alias"; HostConfig.LocalIP config] s) as [[e|] s1'];
    [discriminate|].
  intros [= <- <-]. cbn [snd] in Ht.
  destruct (length (HostConfig.Hostnames config) =? 0)%nat eqn:Elen.
  - intros [= <- <-]. split; [reflexivity|].
    apply Nat.eqb_eq in Elen. apply length_zero_iff_nil in Elen.
    rewrite Elen, Ht. reflexivity.
  - destruct (add_hosts_loop _ _ s1') as [[e|] s2'] eqn:Hloop; [discriminate|].
    intros [= <- <-]. split; [reflexivity|].
    rewrite (add_hosts_loop_success _ _ _ _ Hloop), Ht, <- app_assoc. reflexivity.
Qed.

Lemma setup_loop_success (configs : list HostConfig.t) (acc undos : list Undo)
  (s s' : Sys) :
  setup_loop configs acc s = ((undos, None), s') ->
  undos = acc ++ concat (map host_undos configs) /\
  trace s' = trace s ++ concat (map host_setup_events configs).
Proof.
  revert acc s. induction configs as [|config rest IH]; intros acc s H.
  - injection H as <- <-. rewrite !app_nil_r. split; reflexivity.
  - cbn [setup_loop] in H.
    destruct (SetupLoopbackAlias (HostConfig.LocalIP config) s)
      as [[[u1|] [e1|]] s1] eqn:H1; try discriminate.
    destruct (AddHostsEntries (HostConfig.LocalIP config)
                (HostConfig.Hostnames config) s1)
      as [[[u2|] [e2|]] s2] eqn:H2; try discriminate.
    destruct (setup_host_success _ _ _ _ _ _ H1 H2) as [Hu Ht].
    destruct (IH _ _ H) as [-> ->]. cbn [map concat].
    rewrite <- Hu, Ht, <- !app_assoc. split; reflexivity.
Qed.

(** X13.  When [SetupNetwork] succeeds it has called the helper once per
    host to add the alias and once per host name to add the resolver
    entry, host after host in the order of the configuration, and it returns
    two undo closures per host, in that order: the one of the alias, then the
    one of the host names (which does nothing when the host has none). *)
Theorem SetupNetwork_success (configs : list HostConfig.t) (undos : list Undo)
  (s s' : Sys) :
  SetupNetwork configs s = ((undos, None), s') ->
  undos = concat (map host_undos configs) /\
  length undos = (2 * length configs)%nat /\
  trace s' = trace s ++ concat (map host_setup_events configs).
Proof.
  intros H. destruct (setup_loop_success _ _ _ _ _ H) as [-> Ht].
  split; [reflexivity|]. split; [|exact Ht].
  cbn [app]. clear. induction configs as [|c l IH]; [reflexivity|].
  cbn [map concat]. rewrite length_app, IH. cbn [host_undos length]. lia.
Qed.

(** What [SetupNetwork] has done when it fails: the hosts before the one
    that fails are set up, the others are not looked at. *)
Lemma setup_loop_failure (configs : list HostConfig.t) (acc undos : list Undo)
  (s s' : Sys) (msg : string) :
  setup_loop configs acc s = ((undos, Some msg), s') ->
  exists pre bad post s1,
    configs = pre ++ bad :: post /\
    setup_loop pre acc s = ((acc ++ concat (map host_undos pre), None), s1) /\
    ((exists e,
        SetupLoopbackAlias (HostConfig.LocalIP bad) s1 = ((None, Some e), s') /\
        undos = acc ++ concat (map host_undos pre)) \/
     (exists e s2,
        SetupLoopbackAlias (HostConfig.LocalIP bad) s1 =
          ((Some (UndoLoopbackAlias (HostConfig.LocalIP bad)), None), s2) /\
        AddHostsEntries (HostConfig.LocalIP bad) (HostConfig.Hostnames bad) s2 =
          ((None, Some e), s') /\
        undos = acc ++ concat (map host_undos pre) ++
                [UndoLoopbackAlias (HostConfig.LocalIP bad)])).
Proof.
  revert acc s. induction configs as [|config rest IH]; intros acc s H;
    [discriminate|].
  cbn [setup_loop] in H.
  destruct (SetupLoopbackAlias (HostConfig.LocalIP config) s)
    as [[u1 e1] s1] eqn:H1.
  assert (Hshape : (exists e, u1 = None /\ e1 = Some e) \/
                   (u1 = Some (UndoLoopbackAlias (HostConfig.LocalIP config)) /\
                    e1 = None)).
  { unfold SetupLoopbackAlias in H1.
    destruct (runHelper _ s) as [[e|] s1']; injection H1 as <- <- <-; eauto. }
  destruct Hshape as [(e & -> & ->)|[-> ->]].
  { injection H as <- _ <-. exists [], config, rest, s.
    split; [reflexivity|]. cbn [setup_loop map concat]. rewrite app_nil_r.
    split; [reflexivity|]. left. exists e. split; [exact H1|reflexivity]. }
  destruct (AddHostsEntries (HostConfig.LocalIP config)
              (HostConfig.Hostnames config) s1) as [[u2 e2] s2] eqn:H2.
  assert (Hshape2 : (exists e, u2 = None /\ e2 = Some e) \/
                    (exists u, u2 = Some u /\ e2 = None)).
  { unfold AddHostsEntries in H2.
    destruct (length (HostConfig.Hostnames config) =? 0)%nat.
    - injection H2 as <- <- <-. eauto.
    - destruct (add_hosts_loop _ _ s1) as [[e|] s2']; injection H2 as <- <- <-;
        eauto. }
  destruct Hshape2 as [(e & -> & ->)|(u & -> & ->)].
  { injection H as <- _ <-. exists [], config, rest, s.
    split; [reflexivity|]. cbn [setup_loop map concat]. rewrite app_nil_r.
    split; [reflexivity|]. right. exists e, s1.
    split; [exact H1|]. split; [exact H2|reflexivity]. }
  destruct (setup_host_success _ _ _ _ _ _ H1 H2) as [Hu _].
  destruct (IH _ _ H) as (pre & bad & post & s3 & -> & Hpre & Hcase).
  exists (config :: pre), bad, post, s3. split; [reflexivity|].
  cbn [setup_loop map concat]. rewrite H1, H2, <- Hu.
  split.
  { rewrite Hpre. cbn [app]. rewrite <- !app_assoc. reflexivity. }
  destruct Hcase as [(e & Ha & ->)|(e & s4 & Ha & Hb & ->)].
  - left. exists e. split; [exact Ha|]. cbn [app]. rewrite <- !app_assoc.
    reflexivity.
  - right. exists e, s4. split; [exact Ha|]. split; [exact Hb|].
    cbn [app]. rewrite <- !app_assoc. reflexivity.
Qed.

(** X14.  When [SetupNetwork] fails, it fails on the first host whose alias
    or resolver entries the helper refuses: the hosts before it are set up
    and the undo closures returned with the error are theirs, followed by
    the one of the failing host's alias when it is the resolver entries that
    failed; the hosts after it are not touched. *)
Theorem SetupNetwork_failure (configs : list HostConfig.t) (undos : list Undo)
  (s s' : Sys) (msg : string) :
  SetupNetwork configs s = ((undos, Some msg), s') ->
  exists pre bad post s1,
    configs = pre ++ bad :: post /\
    SetupNetwork pre s = ((concat (map host_undos pre), None), s1) /\
    ((exists e,
        SetupLoopbackAlias (HostConfig.LocalIP bad) s1 = ((None, Some e), s') /\
        undos = concat (map host_undos pre)) \/
     (exists e s2,
        SetupLoopbackAlias (HostConfig.LocalIP bad) s1 =
          ((Some (UndoLoopbackAlias (HostConfig.LocalIP bad)), None), s2) /\
        AddHostsEntries (HostConfig.LocalIP bad) (HostConfig.Hostnames bad) s2 =
          ((None, Some e), s') /\
        undos = concat (map host_undos pre) ++
                [UndoLoopbackAlias (HostConfig.LocalIP bad)])).
Proof.
  intros H. exact (setup_loop_failure configs [] undos s s' msg H).
Qed.

End MoreNetwork.

Lemma SetupNetwork_success_witness :
  exists undos s',
    @SetupNetwork example_platform
      [example_host [PortInt 22];
       HostConfig.mk "127.0.0.3" [] "10.0.0.5" "jump.example.com" 22
                     "~/.ssh/id_rsa" EmptyString []]
      (mkSys (example_world ("127.0.0.1 localhost" ++ nl)) [])
      = ((undos, None), s') /\
    undos = [UndoLoopbackAlias "127.0.0.2"; UndoNothing;
             UndoLoopbackAlias "127.0.0.3"; UndoNothing] /\
    helper_calls (trace s') = [["add-alias"; "127.0.0.2"]; ["add-alias"; "127.0.0.3"]].
Proof.
  destruct (@SetupNetwork example_platform
              [example_host [PortInt 22];
               HostConfig.mk "127.0.0.3" [] "10.0.0.5" "jump.example.com" 22
                             "~/.ssh/id_rsa" EmptyString []]
              (mkSys (example_world ("127.0.0.1 localhost" ++ nl)) []))
    as [[undos [e|]] s'] eqn:E; [vm_compute in E; discriminate E|].
  destruct (@SetupNetwork_success example_platform _ _ _ _ E) as (Hu & _ & Ht).
  exists undos, s'. split; [reflexivity|]. split; [exact Hu|].
  rewrite Ht. reflexivity.
Defined.

Lemma SetupNetwork_failure_witness :
  exists undos msg s',
    @SetupNetwork example_platform bad_second_host
      (mkSys (example_world ("127.0.0.1 localhost" ++ nl)) [])
      = ((undos, Some msg), s') /\
    undos = [UndoLoopbackAlias "127.0.0.2"; UndoNothing] /\
    lo0 (world s') = ["127.0.0.1"; "127.0.0.2"].
Proof.
  destruct (@SetupNetwork example_platform bad_second_host
              (mkSys (example_world ("127.0.0.1 localhost" ++ nl)) []))
    as [[undos [msg|]] s'] eqn:E; [|vm_compute in E; discriminate E].
  destruct (@SetupNetwork_failure example_platform _ _ _ _ _ E)
    as (pre & bad & post & s1 & _).
  exists undos, msg, s'. split; [reflexivity|].
  vm_compute in E. injection E as <- _ <-. split; reflexivity.
Defined.

(** ** Starting and stopping the engine (forwarder.go) *)

Section MoreForwarder.
Context {platform : Platform}.

Lemma ports_loop_success (df : DynamicForwarder) (cfg : HostConfig.t)
  (ports : list Z) (s : Sys) (df' : DynamicForwarder) (s' : Sys) :
  ports_loop df cfg ports s = (None, df', s') ->
  df' = set_cleanup df (cleanup df ++ redirect_undos (endpoints cfg ports)) /\
  trace s' = trace s ++ concat (map endpoint_events (endpoints cfg ports)).
Proof.
  revert df s. induction ports as [|port rest IH]; intros df s H.
  - injection H as <- <-. unfold redirect_undos. cbn.
    rewrite !app_nil_r, set_cleanup_id. split; reflexivity.
  - cbn [ports_loop] in H. unfold redirect_undos, endpoint_events.
    cbn [endpoints map List.filter concat].
    destruct (NeedsPFRedirect (NewForwardConfig cfg port)) eqn:Eneed.
    + pose proof (SetupPFRedirect_trace
                    (ForwardConfig.LocalIP (NewForwardConfig cfg port))
                    (ForwardConfig.Port (NewForwardConfig cfg port))
                    (ForwardConfig.ListenPort (NewForwardConfig cfg port)) s) as Ht.
      destruct (SetupPFRedirect _ _ _ s) as [[u e] s1] eqn:Hpf. cbn [snd] in Ht.
      assert (Hu : u = Some (UndoPFRedirect
                               (ForwardConfig.LocalIP (NewForwardConfig cfg port))
                               (ForwardConfig.Port (NewForwardConfig cfg port))
                               (ForwardConfig.ListenPort (NewForwardConfig cfg port)))
                   /\ e = None).
      { unfold SetupPFRedirect in Hpf.
        destruct (runHelper _ s) as [[e'|] s1']; injection Hpf as <- <- <-.
        - discriminate H.
        - split; reflexivity. }
      destruct Hu as [-> ->].
      destruct (IH _ _ H) as [-> ->]. cbn [cleanup set_cleanup trace emit map].
      rewrite Ht, <- !app_assoc. split; reflexivity.
    + destruct (IH _ _ H) as [-> ->]. cbn [trace emit].
      rewrite <- !app_assoc. split; reflexivity.
Qed.

Lemma redirect_undos_app (l1 l2 : list ForwardConfig.t) :
  redirect_undos (l1 ++ l2) = redirect_undos l1 ++ redirect_undos l2.
Proof. unfold redirect_undos. rewrite List.filter_app, map_app. reflexivity. Qed.

Lemma hosts_loop_success (fuel : nat) (df : DynamicForwarder)
  (cfgs : list HostConfig.t) (s : Sys) (df' : DynamicForwarder) (s' : Sys) :
  hosts_loop fuel df cfgs s = (Returns (None, df'), s') ->
  exists portss,
    Forall2 (fun cfg ports => ExpandPorts fuel cfg = Some (inr ports)) cfgs portss /\
    df' = set_cleanup df (cleanup df ++ redirect_undos (all_endpoints cfgs portss)) /\
    trace s' = trace s ++ concat (map endpoint_events (all_endpoints cfgs portss)).
Proof.
  revert df s. induction cfgs as [|cfg rest IH]; intros df s H.
  - injection H as <- <-. exists []. split; [constructor|].
    unfold all_endpoints, redirect_undos. cbn.
    rewrite !app_nil_r, set_cleanup_id. split; reflexivity.
  - cbn [hosts_loop] in H.
    destruct (ExpandPorts fuel cfg) as [[e|ports]|] eqn:Eports; try discriminate.
    assert (Hstep : exists df1 s1,
               ports_loop df cfg ports s = (None, df1, s1) /\
               hosts_loop fuel df1 rest s1 = (Returns (None, df'), s')).
    { destruct (length ports =? 0)%nat eqn:Elen.
      - apply Nat.eqb_eq, length_zero_iff_nil in Elen. subst ports.
        exists df, s. split; [reflexivity|exact H].
      - destruct (ports_loop df cfg ports s) as [[[e|] df1] s1]; [discriminate|].
        exists df1, s1. split; [reflexivity|exact H]. }
    destruct Hstep as (df1 & s1 & Hports & Hrest).
    destruct (ports_loop_success _ _ _ _ _ _ Hports) as [-> Ht1].
    destruct (IH _ _ Hrest) as (portss & HF & -> & Ht).
    exists (ports :: portss). split; [constructor; assumption|].
    unfold all_endpoints in *. cbn [zip_with concat].
    rewrite redirect_undos_app, map_app, concat_app, Ht, Ht1.
    cbn [cleanup set_cleanup]. rewrite <- !app_assoc. split; reflexivity.
Qed.

Lemma listeners_host_setup (hosts : list HostConfig.t) :
  listeners (concat (map host_setup_events hosts)) = [].
Proof.
  induction hosts as [|c l IH]; [reflexivity|].
  cbn [map concat]. rewrite listeners_app, IH, app_nil_r.
  unfold host_setup_events. cbn [listeners omap].
  induction (HostConfig.Hostnames c) as [|n ns IHn]; [reflexivity|exact IHn].
Qed.

Lemma listeners_endpoint_events (fwds : list ForwardConfig.t) :
  listeners (concat (map endpoint_events fwds)) = fwds.
Proof.
  induction fwds as [|fc l IH]; [reflexivity|].
  cbn [map concat]. rewrite listeners_app, IH. unfold endpoint_events.
  destruct (NeedsPFRedirect fc); reflexivity.
Qed.

Lemma ports_loop_error (df : DynamicForwarder) (cfg : HostConfig.t)
  (ports : list Z) (s : Sys) (e : StartError) (df' : DynamicForwarder) (s' : Sys) :
  ports_loop df cfg ports s = (Some e, df', s') ->
  exists ip port msg, e = RedirectFailed ip port msg.
Proof.
  revert df s. induction ports as [|port rest IH]; intros df s H; [discriminate|].
  cbn [ports_loop] in H. destruct (NeedsPFRedirect _).
  - destruct (SetupPFRedirect _ _ _ s) as [[[u|] [e1|]] s1];
      try (injection H as <- _ _; eauto); exact (IH _ _ H).
  - exact (IH _ _ H).
Qed.

(** The errors of the fourth step of [Start]. *)
Lemma hosts_loop_error (fuel : nat) (df : DynamicForwarder)
  (cfgs : list HostConfig.t) (s : Sys) (e : StartError) (df' : DynamicForwarder)
  (s' : Sys) :
  hosts_loop fuel df cfgs s = (Returns (Some e, df'), s') ->
  (exists name ce, e = ExpandFailed name ce) \/
  (exists ip port msg, e = RedirectFailed ip port msg).
Proof.
  revert df s. induction cfgs as [|cfg rest IH]; intros df s H; [discriminate|].
  cbn [hosts_loop] in H.
  destruct (ExpandPorts fuel cfg) as [[ce|ports]|]; try discriminate.
  - injection H as <- _ _. left. eauto.
  - destruct (length ports =? 0)%nat; [exact (IH _ _ H)|].
    destruct (ports_loop df cfg ports s) as [[[e1|] df1] s1] eqn:Hp.
    + injection H as <- _ _. right. exact (ports_loop_error _ _ _ _ _ _ _ Hp).
    + exact (IH _ _ H).
Qed.

Lemma hosts_loop_no_panic (fuel : nat) (df : DynamicForwarder)
  (cfgs : list HostConfig.t) (s : Sys) (msg : string) (s' : Sys) :
  hosts_loop fuel df cfgs s <> (Panics msg, s').
Proof.
  revert df s. induction cfgs as [|cfg rest IH]; intros df s; [discriminate|].
  cbn [hosts_loop]. destruct (ExpandPorts fuel cfg) as [[e|ports]|];
    try discriminate.
  destruct (length ports =? 0)%nat; [apply IH|].
  destruct (ports_loop df cfg ports s) as [[[e|] df1] s1]; [discriminate|apply IH].
Qed.

(** X15.  A [Start] that succeeds has done this, in this order: the three
    invocations of the bulk cleanup; for each host of the configuration it
    has just read, the alias and the resolver entries; for each port of each
    host, the redirect when the port is below 1024 and then the listener;
    last, the engine is marked running.  The engine then holds the hosts
    read, an empty error window, the pool it had, a cleanup stack with the
    undos of the hosts followed by those of the redirects on top of what it
    held, and the Healthy status is queued if the status channel has
    room. *)
Theorem Start_success (df : DynamicForwarder) (src : ConfigSource) (fuel : nat)
  (s : Sys) (df' : DynamicForwarder) (s' : Sys) :
  Start df src fuel s = (Returns (None, df'), s') ->
  exists hosts portss,
    fst (LoadConfig src) = inr hosts /\
    Forall2 (fun cfg ports => ExpandPorts fuel cfg = Some (inr ports)) hosts portss /\
    trace s' = trace s ++ bulk_cleanup_events ++
               concat (map host_setup_events hosts) ++
               concat (map endpoint_events (all_endpoints hosts portss)) ++
               [EvRunning true] /\
    listeners (trace s') = listeners (trace s) ++ all_endpoints hosts portss /\
    configs df' = hosts /\
    running df' = true /\ errorCount df' = 0 /\ lastErrors df' = [] /\
    sshPool df' = sshPool df /\
    cleanup df' = cleanup df ++ concat (map host_undos hosts) ++
                  redirect_undos (all_endpoints hosts portss) /\
    chan_closed (statusChan df) = false /\
    statusChan df' = after_send (statusChan df) started_status.
Proof.
  intros H. unfold Start in H.
  destruct (running df) eqn:Hrun; [discriminate|].
  unfold reloadConfig in H.
  destruct (fst (LoadConfig src)) as [msg|hosts] eqn:Hload; [discriminate|].
  pose proof (Cleanup_trace s) as Hc.
  destruct (Cleanup s) as [ec s1]. cbn [snd] in Hc.
  unfold setupNetwork, SetupNetwork in H. cbn [configs set_configs] in H.
  destruct (setup_loop hosts [] s1) as [[undos [e1|]] s2] eqn:Hsetup;
    [discriminate|].
  destruct (setup_loop_success _ _ _ _ _ Hsetup) as [-> Ht2]. cbn [app] in *.
  cbn [configs set_configs set_cleanup cleanup] in H.
  destruct (hosts_loop fuel _ hosts s2) as [[[[e2|] df2]| |] s3] eqn:Hloop;
    try discriminate.
  destruct (hosts_loop_success _ _ _ _ _ _ Hloop) as (portss & HF & -> & Ht3).
  cbn [cleanup set_cleanup statusChan clearErrors set_errors set_running
       set_configs] in H.
  unfold try_send in H.
  destruct (chan_closed (statusChan df)) eqn:Hopen; [discriminate|].
  exists hosts, portss. split; [reflexivity|]. split; [exact HF|].
  assert (Htrace : trace (emit (EvRunning true) s3) =
                   trace s ++ bulk_cleanup_events ++
                   concat (map host_setup_events hosts) ++
                   concat (map endpoint_events (all_endpoints hosts portss)) ++
                   [EvRunning true]).
  { cbn [trace emit]. rewrite Ht3, Ht2, Hc, <- !app_assoc. reflexivity. }
  assert (Hlisten : listeners (trace (emit (EvRunning true) s3)) =
                    listeners (trace s) ++ all_endpoints hosts portss).
  { rewrite Htrace, !listeners_app. cbn [bulk_cleanup_events listeners omap].
    cbn [app].
    rewrite listeners_host_setup, listeners_endpoint_events.
    cbn [app omap]. rewrite app_nil_r. reflexivity. }
  unfold after_send, started_status.
  destruct (length (chan_buf (statusChan df)) <? chan_cap (statusChan df))%nat;
    injection H as <- <-;
    (split; [exact Htrace|]); (split; [exact Hlisten|]);
    cbn; rewrite ?app_assoc; repeat split; reflexivity.
Qed.

(** X16.  An engine that has started refuses to start again: a second
    [Start] returns the error of a running engine and does nothing. *)
Theorem Start_twice (df : DynamicForwarder) (src : ConfigSource) (fuel : nat)
  (s : Sys) (df' : DynamicForwarder) (s' : Sys)
  (src2 : ConfigSource) (fuel2 : nat) (s2 : Sys) :
  Start df src fuel s = (Returns (None, df'), s') ->
  Start df' src2 fuel2 s2 = (Returns (Some AlreadyRunning, df'), s2).
Proof.
  intros H.
  assert (Hrun : running df' = true).
  { unfold Start in H.
    destruct (running df); [discriminate|].
    destruct (reloadConfig df src) as [[e|] df0]; [discriminate|].
    destruct (Cleanup s) as [ec s1].
    destruct (setupNetwork df0 s1) as [[[e|] df1] s2']; [discriminate|].
    destruct (hosts_loop fuel df1 (configs df1) s2') as [[[[e|] df2]| |] s3];
      try discriminate.
    destruct (try_send _ _); try discriminate.
    injection H as <- _. reflexivity. }
  unfold Start. rewrite Hrun. reflexivity.
Qed.

(** X17.  When [SetupNetwork] fails, [Start] returns its error and the
    engine keeps the cleanup stack it had: the undo closures [SetupNetwork]
    returned with the error, those of the hosts set up before the failure,
    are dropped, so a later [Stop] does not undo them. *)
Theorem Start_setup_failure (df : DynamicForwarder) (src : ConfigSource)
  (fuel : nat) (s : Sys) (msg : string) (df' : DynamicForwarder) (s' : Sys) :
  Start df src fuel s = (Returns (Some (SetupFailed msg), df'), s') ->
  exists hosts undos,
    fst (LoadConfig src) = inr hosts /\
    SetupNetwork hosts (snd (Cleanup s)) = ((undos, Some msg), s') /\
    df' = set_configs df hosts /\
    cleanup df' = cleanup df /\ running df' = false /\
    forall s2, Stop df' s2 = (Returns (None, df'), s2).
Proof.
  intros H. unfold Start in H.
  destruct (running df) eqn:Hrun; [discriminate|].
  unfold reloadConfig in H.
  destruct (fst (LoadConfig src)) as [e|hosts] eqn:Hload; [discriminate|].
  destruct (Cleanup s) as [ec s1]. cbn [snd].
  unfold setupNetwork in H. cbn [configs set_configs] in H.
  destruct (SetupNetwork hosts s1) as [[undos [e1|]] s2] eqn:Hsetup.
  - injection H as <- <- <-. exists hosts, undos.
    split; [reflexivity|]. split; [exact Hsetup|]. split; [reflexivity|].
    split; [reflexivity|]. split; [exact Hrun|].
    intros s2'. unfold Stop. cbn [running set_configs]. rewrite Hrun. reflexivity.
  - destruct (hosts_loop fuel _ _ s2) as [[[[e2|] df2]| |] s3] eqn:Hloop;
      try discriminate.
    + injection H as -> _ _. exfalso.
      destruct (hosts_loop_error _ _ _ _ _ _ _ Hloop)
        as [(? & ? & He)|(? & ? & ? & He)]; discriminate He.
    + destruct (try_send _ _); discriminate.
Qed.

(** X18.  [Stop] can be called again, [Close] cannot: after a [Stop] of a
    running engine, another [Stop] does nothing, while a [Close] panics on
    the status channel that is already closed, before it touches the pool or
    the cleanup stack. *)
Theorem Stop_twice (df : DynamicForwarder) (s : Sys) (s2 : Sys) :
  running df = true ->
  chan_closed (statusChan df) = false ->
  exists df' s',
    Stop df s = (Returns (None, df'), s') /\
    Stop df' s2 = (Returns (None, df'), s2) /\
    Close df' s2 = (Panics "close of closed channel", s2).
Proof.
  intros Hrun Hopen. unfold Stop at 1, Close at 1. rewrite Hrun. cbn [negb].
  unfold close_chan. cbn [statusChan set_running]. rewrite Hopen.
  eexists. eexists. split; [reflexivity|]. split; reflexivity.
Qed.

(** X19.  An engine that has been stopped cannot be started again: its
    status channel is closed, so a [Start] that gets through its setup
    panics when it sends the Healthy status; whatever happens, it does not
    return without an error. *)
Theorem Start_after_Stop (df : DynamicForwarder) (src : ConfigSource) (fuel : nat)
  (s : Sys) :
  chan_closed (statusChan df) = true ->
  exists o s',
    Start df src fuel s = (o, s') /\
    (o = Panics "send on closed channel" \/ o = Waits \/
     exists e df', o = Returns (Some e, df')).
Proof.
  intros Hclosed. unfold Start.
  destruct (running df) eqn:Hrun; [eauto 8|].
  unfold reloadConfig.
  destruct (fst (LoadConfig src)) as [e|hosts] eqn:Hload; [eauto 8|].
  destruct (Cleanup s) as [ec s1].
  unfold setupNetwork. cbn [configs set_configs].
  destruct (SetupNetwork hosts s1) as [[undos [e1|]] s2]; [eauto 8|].
  destruct (hosts_loop fuel _ _ s2) as [[[[e2|] df2]| |] s3] eqn:Hloop.
  - eauto 8.
  - destruct (hosts_loop_spec _ _ _ _ _ _ _ Hloop) as (tr & _ & _ & (_ & Hch & _)).
    cbn [statusChan clearErrors set_errors set_running]. unfold try_send.
    cbn [statusChan set_cleanup set_configs] in Hch. rewrite Hch, Hclosed.
    eauto 8.
  - exfalso. exact (hosts_loop_no_panic _ _ _ _ _ _ Hloop).
  - eauto 8.
Qed.

End MoreForwarder.

Lemma Start_success_witness :
  exists df' s',
    example_start [PortInt 22; PortInt 8080] = (Returns (None, df'), s') /\
    map ForwardConfig.ListenPort (listeners (trace s')) = [10022; 8080] /\
    cleanup df' = [UndoLoopbackAlias "127.0.0.2";
                   UndoHostsEntries "127.0.0.2" ["app.internal.example.com"];
                   UndoPFRedirect "127.0.0.2" 22 10022] /\
    chan_buf (statusChan df') = [started_status].
Proof.
  destruct (example_start [PortInt 22; PortInt 8080])
    as [[[[e|] df']| |] s'] eqn:E; try (vm_compute in E; discriminate E).
  unfold example_start in E.
  destruct (@Start_success example_platform _ _ _ _ _ _ E)
    as (hosts & portss & Hload & _ & _ & Hl & _ & _ & _ & _ & _ & Hc & _ & Hch).
  exists df', s'. split; [reflexivity|].
  vm_compute in E. injection E as <- <-. repeat split.
Defined.

Lemma Start_twice_witness :
  exists df' s',
    example_start [PortInt 22; PortInt 8080] = (Returns (None, df'), s') /\
    @Start example_platform df' (Parsed []) 0 s' =
      (Returns (Some AlreadyRunning, df'), s').
Proof.
  destruct (example_start [PortInt 22; PortInt 8080])
    as [[[[e|] df']| |] s'] eqn:E; try (vm_compute in E; discriminate E).
  exists df', s'. split; [reflexivity|].
  unfold example_start in E.
  exact (@Start_twice example_platform _ _ _ _ _ _ (Parsed []) 0%nat s' E).
Defined.

Lemma Start_setup_failure_witness :
  exists msg df' s' hosts undos,
    example_failed_start = (Returns (Some (SetupFailed msg), df'), s') /\
    fst (@LoadConfig example_platform (Parsed bad_second_host)) = inr hosts /\
    fst (fst (@SetupNetwork example_platform hosts
                (snd (@Cleanup example_platform
                        (mkSys (example_world ("127.0.0.1 localhost" ++ nl)) [])))))
      = undos /\
    undos = [UndoLoopbackAlias "127.0.0.2";
             UndoHostsEntries "127.0.0.2" ["app.internal.example.com"]] /\
    cleanup df' = [] /\
    lo0 (world s') = ["127.0.0.1"; "127.0.0.2"].
Proof.
  destruct example_failed_start as [[[[e|] df']| |] s'] eqn:E;
    try (vm_compute in E; discriminate E).
  destruct e as [|m|msg|n ce|ip p m]; try (vm_compute in E; discriminate E).
  unfold example_failed_start in E.
  destruct (@Start_setup_failure example_platform _ _ _ _ _ _ _ E)
    as (hosts & undos & Hload & Hsetup & _ & Hc & _).
  exists msg, df', s', hosts, undos. split; [reflexivity|].
  split; [exact Hload|]. split; [rewrite Hsetup; reflexivity|].
  vm_compute in Hload. injection Hload as <-.
  vm_compute in Hsetup. injection Hsetup as <- _ <-.
  split; [reflexivity|]. split; [exact Hc|reflexivity].
Defined.

Lemma Stop_twice_witness :
  exists df' s',
    @Stop example_platform started_engine started_host = (Returns (None, df'), s') /\
    @Stop example_platform df' s' = (Returns (None, df'), s') /\
    @Close example_platform df' s' = (Panics "close of closed channel", s').
Proof.
  assert (Hrun : running started_engine = true) by (vm_compute; reflexivity).
  assert (Hopen : chan_closed (statusChan started_engine) = false)
    by (vm_compute; reflexivity).
  destruct (@Stop example_platform started_engine started_host)
    as [o s'] eqn:E.
  destruct (@Stop_twice example_platform started_engine started_host s' Hrun Hopen)
    as (df1 & s1 & H1 & H2 & H3).
  rewrite E in H1. injection H1 as -> ->.
  exists df1, s1. split; [reflexivity|]. split; [exact H2|exact H3].
Defined.

Lemma Start_after_Stop_witness :
  chan_closed (statusChan stopped_engine) = true /\
  fst (@Start example_platform stopped_engine
         (Parsed [example_host [PortInt 22; PortInt 8080]]) 100 started_host)
  = Panics "send on closed channel".
Proof.
  assert (Hclosed : chan_closed (statusChan stopped_engine) = true)
    by (vm_compute; reflexivity).
  split; [exact Hclosed|].
  destruct (@Start_after_Stop example_platform stopped_engine
              (Parsed [example_host [PortInt 22; PortInt 8080]]) 100 started_host
              Hclosed) as (o & s' & H & _).
  rewrite H. vm_compute in H. injection H as <- _. reflexivity.
Defined.

(** ** Connection handlers (forwarder.go) *)

Lemma GetClient_closed (pool : SSHClientPool) (h : string) (p : Z)
  (keyPath identityAgent : string) (env : ConnEnv) (r : string + Client)
  (pool' : SSHClientPool) :
  GetClient pool h p keyPath identityAgent env = Returns (r, pool') ->
  closedClients pool' = closedClients pool.
Proof.
  unfold GetClient.
  destruct (clients pool !! clientKey h p) as [c0|]; [intros [= _ <-]; reflexivity|].
  assert (Hconnect : forall pool1,
             match user_result env with
             | inl e => Returns (inl ("failed to get current user: " ++ e)%string, pool1)
             | inr _ =>
                 match dial_loop (clientKey h p) 1 (dial_results env) with
                 | Returns (inl e) => Returns (inl e, pool1)
                 | Returns (inr client) =>
                     Returns (inr client,
                              mkPool (<[clientKey h p := client]> (clients pool1))
                                     (authMethods pool1) (closedClients pool1))
                 | Panics msg => Panics msg
                 | Waits => Waits
                 end
             end = Returns (r, pool') -> closedClients pool' = closedClients pool1).
  { intros pool1. destruct (user_result env) as [e1|username].
    { intros [= _ <-]. reflexivity. }
    destruct (dial_loop _ 1 (dial_results env)) as [[e1|client]| |];
      try discriminate; intros [= _ <-]; reflexivity. }
  assert (Hload : forall fuel,
             match LoadAuthMethodsWithRetry fuel pool keyPath identityAgent
                     (auth_results env) with
             | Returns (Some e, pool') =>
                 Returns (inl ("failed to load SSH auth methods: " ++ e)%string, pool')
             | Returns (None, pool') =>
                 match authMethods pool' !! auth_cacheKey keyPath identityAgent with
                 | Some (m :: ms) =>
                     match user_result env with
                     | inl e =>
                         Returns (inl ("failed to get current user: " ++ e)%string, pool')
                     | inr _ =>
                         match dial_loop (clientKey h p) 1 (dial_results env) with
                         | Returns (inl e) => Returns (inl e, pool')
                         | Returns (inr client) =>
                             Returns (inr client,
                                      mkPool (<[clientKey h p := client]> (clients pool'))
                                             (authMethods pool') (closedClients pool'))
                         | Panics msg => Panics msg
                         | Waits => Waits
                         end
                     end
                 | _ =>
                     Returns (inl ("no authentication methods available for key " ++
                                   keyPath ++ " after loading")%string, pool')
                 end
             | Panics msg => Panics msg
             | Waits => Waits
             end = Returns (r, pool') -> closedClients pool' = closedClients pool).
  { intros fuel.
    destruct (LoadAuthMethodsWithRetry fuel pool keyPath identityAgent _)
      as [[[e1|] pool1]| |] eqn:Hl; try discriminate.
    - intros [= _ <-]. exact (LoadAuthMethodsWithRetry_closed _ _ _ _ _ _ _ Hl).
    - pose proof (LoadAuthMethodsWithRetry_closed _ _ _ _ _ _ _ Hl) as Hcd.
      destruct (authMethods pool1 !! auth_cacheKey keyPath identityAgent)
        as [[|m ms]|].
      + intros [= _ <-]. exact Hcd.
      + intros H. rewrite (Hconnect _ H). exact Hcd.
      + intros [= _ <-]. exact Hcd. }
  destruct (authMethods pool !! auth_cacheKey keyPath identityAgent)
    as [[|m ms]|] eqn:Ha.
  - apply Hload.
  - apply Hconnect.
  - apply Hload.
Qed.

Lemma set_sshPool_id (df : DynamicForwarder) : set_sshPool df (sshPool df) = df.
Proof. destruct df. reflexivity. Qed.

Section MoreHandlers.
Context {platform : Platform}.

(** X20.  A handler that finds a cached client whose dial fails treats the
    connection as stale: it closes that client and removes it from the
    pool, then asks for a new one.  If that succeeds and the second dial
    succeeds, the new client, dialled by this call, is the cached one and no
    error is recorded; if the second dial fails the error ["dial failed"]
    is recorded; if no new client can be had the pool has no client for the
    jump host and the error ["reconnect failed"] is recorded. *)
Theorem forwardConnection_stale_client (df : DynamicForwarder)
  (cfg : ForwardConfig.t) (env : HandlerEnv) (c : Client) (e : string)
  (r2 : string + Client) (pool2 : SSHClientPool) :
  clients (sshPool df) !!
    clientKey (ForwardConfig.JumpHost cfg) (ForwardConfig.JumpPort cfg) = Some c ->
  first_dial env = Some e ->
  GetClient (RemoveClient (sshPool df) (ForwardConfig.JumpHost cfg)
                          (ForwardConfig.JumpPort cfg))
            (ForwardConfig.JumpHost cfg) (ForwardConfig.JumpPort cfg)
            (ForwardConfig.KeyPath cfg) (ForwardConfig.IdentityAgent cfg)
            (second_client env) = Returns (r2, pool2) ->
  c ∈ closedClients pool2 /\
  match r2, second_dial env with
  | inr c2, None =>
      forwardConnection df cfg env = Returns (set_sshPool df pool2) /\
      clients pool2 !!
        clientKey (ForwardConfig.JumpHost cfg) (ForwardConfig.JumpPort cfg) = Some c2 /\
      In (inr c2) (dial_results (second_client env))
  | inr c2, Some e2 =>
      forwardConnection df cfg env =
      recordError (set_sshPool df pool2) (now env)
        ("dial failed for " ++
         (ForwardConfig.RemoteHost cfg ++ ":" ++ Go.Itoa (ForwardConfig.Port cfg)) ++
         ": " ++ e2)
  | inl e2, _ =>
      forwardConnection df cfg env =
      recordError (set_sshPool df pool2) (now env)
        ("reconnect failed for " ++ ForwardConfig.JumpHost cfg ++ ": " ++ e2) /\
      clients pool2 !!
        clientKey (ForwardConfig.JumpHost cfg) (ForwardConfig.JumpPort cfg) = None
  end.
Proof.
  intros Hc Hdial Hget. split.
  - rewrite (GetClient_closed _ _ _ _ _ _ _ _ Hget).
    unfold RemoveClient. rewrite Hc. cbn [closedClients].
    apply elem_of_union_l, elem_of_singleton. reflexivity.
  - assert (Hfc : forwardConnection df cfg env =
                  match r2 with
                  | inl e2 =>
                      recordError (set_sshPool df pool2) (now env)
                        ("reconnect failed for " ++ ForwardConfig.JumpHost cfg ++
                         ": " ++ e2)
                  | inr _ =>
                      match second_dial env with
                      | None => Returns (set_sshPool df pool2)
                      | Some e2 =>
                          recordError (set_sshPool df pool2) (now env)
                            ("dial failed for " ++
                             (ForwardConfig.RemoteHost cfg ++ ":" ++
                              Go.Itoa (ForwardConfig.Port cfg)) ++ ": " ++ e2)
                      end
                  end).
    { unfold forwardConnection, with_pool.
      rewrite (GetClient_cached _ _ _ _ _ _ _ Hc), Hdial.
      cbn [sshPool set_sshPool]. rewrite Hget.
      destruct r2 as [e2|c2]; [reflexivity|].
      destruct (second_dial env); reflexivity. }
    destruct (GetClient_clients _ _ _ _ _ _ _ _ Hget) as (_ & Hcached & Hfresh).
    destruct r2 as [e2|c2].
    + split; [exact Hfc|].
      destruct (GetClient_failure_pool _ _ _ _ _ _ _ _ Hget) as [-> _].
      apply RemoveClient_same.
    + destruct (second_dial env) as [e2|]; [exact Hfc|].
      split; [exact Hfc|]. split; [exact (Hcached c2 eq_refl)|].
      exact (Hfresh (RemoveClient_same _ _ _) c2 eq_refl).
Qed.

End MoreHandlers.

Lemma forwardConnection_stale_client_witness :
  exists pool2,
    @forwardConnection busy_engine example_endpoint stale_handler
      = Returns (set_sshPool busy_engine pool2) /\
    clients pool2 !! clientKey "jump.example.com" 22 = Some 9%nat /\
    7%nat ∈ closedClients pool2.
Proof.
  assert (Hc : clients (sshPool busy_engine) !!
                 clientKey (ForwardConfig.JumpHost example_endpoint)
                           (ForwardConfig.JumpPort example_endpoint) = Some 7%nat)
    by (vm_compute; reflexivity).
  destruct (GetClient
              (RemoveClient (sshPool busy_engine)
                 (ForwardConfig.JumpHost example_endpoint)
                 (ForwardConfig.JumpPort example_endpoint))
              (ForwardConfig.JumpHost example_endpoint)
              (ForwardConfig.JumpPort example_endpoint)
              (ForwardConfig.KeyPath example_endpoint)
              (ForwardConfig.IdentityAgent example_endpoint)
              (second_client stale_handler)) as [[r2 pool2]| |] eqn:Hget;
    try (vm_compute in Hget; discriminate Hget).
  assert (Hr : r2 = inr 9%nat) by (vm_compute in Hget; congruence).
  subst r2.
  destruct (@forwardConnection_stale_client busy_engine example_endpoint
              stale_handler 7%nat "EOF" (inr 9%nat) pool2 Hc eq_refl Hget)
    as (Hclosed & Hfc & Hnew & _).
  exists pool2. split; [exact Hfc|]. split; [exact Hnew|exact Hclosed].
Defined.

(** ** Lines of text *)

Lemma Split_lines_one_line (s : string) :
  Forall (fun line => one_line line = true) (Go.Split s Go.newline).
Proof.
  induction s as [|a s IH]; [repeat constructor|].
  cbn [Go.Split]. destruct (Ascii.eqb a Go.newline) eqn:Ea.
  - constructor; [reflexivity|exact IH].
  - destruct (Go.Split s Go.newline) as [|piece pieces];
      [repeat constructor; unfold one_line; cbn; rewrite Ea; reflexivity|].
    inversion IH as [|? ? Hp Hps]; subst. constructor; [|exact Hps].
    unfold one_line in *. cbn. rewrite Ea, Hp. reflexivity.
Qed.

(** Splitting what [Join] has joined gives the lines back, when there is at
    least one and none has a line feed. *)
Lemma Split_Join (l : list string) :
  l <> [] -> Forall (fun line => one_line line = true) l ->
  Go.Split (Go.Join l nl) Go.newline = l.
Proof.
  unfold Go.Join. induction l as [|x l IH]; [contradiction|].
  intros _ HF. inversion HF as [|? ? Hx Hl]; subst.
  destruct l as [|y l].
  - cbn. apply Split_one_line, Hx.
  - change (String.concat nl (x :: y :: l))
      with (x ++ String Go.newline (String.concat nl (y :: l)))%string.
    rewrite Split_app_sep, (Split_one_line _ Hx), IH; [reflexivity|discriminate|exact Hl].
Qed.

Lemma Forall_filter {A : Type} (P : A -> Prop) (f : A -> bool) (l : list A) :
  Forall P l -> Forall P (List.filter f l).
Proof.
  induction 1 as [|a l Ha Hl IH]; [constructor|].
  cbn. destruct (f a); [constructor; assumption|assumption].
Qed.

(** The lines of a file written from the kept lines of another. *)
Lemma Split_Join_filter (f : string -> bool) (s : string) :
  Go.Split (Go.Join (List.filter f (Go.Split s Go.newline)) nl) Go.newline =
  written_lines (List.filter f (Go.Split s Go.newline)).
Proof.
  pose proof (Forall_filter _ f _ (Split_lines_one_line s)) as HF.
  destruct (List.filter f (Go.Split s Go.newline)) as [|x l] eqn:E; [reflexivity|].
  apply Split_Join; [discriminate|exact HF].
Qed.

Lemma prefix_inv (sub s : string) :
  String.prefix sub s = true -> exists b, s = (sub ++ b)%string.
Proof.
  revert s. induction sub as [|a sub IH]; intros s H.
  - exists s. reflexivity.
  - destruct s as [|c s]; [discriminate|]. rewrite prefix_cons in H.
    destruct (Ascii.eqb a c) eqn:E; [|discriminate].
    apply Ascii.eqb_eq in E. subst c. destruct (IH _ H) as [b ->].
    exists b. reflexivity.
Qed.

Lemma Contains_inv (s sub : string) :
  Go.Contains s sub = true -> exists a b, s = (a ++ sub ++ b)%string.
Proof.
  induction s as [|c s IH]; cbn [Go.Contains]; intros H.
  - apply orb_true_iff in H as [H|H]; [|discriminate].
    destruct (prefix_inv _ _ H) as [b Hb]. exists EmptyString, b. exact Hb.
  - apply orb_true_iff in H as [H|H].
    + destruct (prefix_inv _ _ H) as [b Hb]. exists EmptyString, b. exact Hb.
    + destruct (IH H) as (a & b & ->). exists (String c a), b. reflexivity.
Qed.

Lemma Contains_mid (a sub b : string) : Go.Contains (a ++ sub ++ b) sub = true.
Proof. apply Contains_app_r, Contains_here. Qed.

(** A part of a part is a part. *)
Lemma Contains_trans (s t u : string) :
  Go.Contains s t = true -> Go.Contains t u = true -> Go.Contains s u = true.
Proof.
  intros Hst Htu.
  destruct (Contains_inv _ _ Hst) as (a & b & ->).
  destruct (Contains_inv _ _ Htu) as (c & d & ->).
  rewrite !append_assoc, <- (append_assoc a c). apply Contains_mid.
Qed.

(** ** The helper: resolver entries, continued *)

(** What is left of a file when the lines a test picks are dropped. *)
Lemma drop_lines_spec (f : string -> bool) (s : string) :
  f EmptyString = false ->
  let kept := List.filter (fun line => negb (f line)) (Go.Split s Go.newline) in
  let out := Go.Join kept nl in
  Go.Split out Go.newline = written_lines kept /\
  existsb f (Go.Split out Go.newline) = false /\
  (existsb f (Go.Split s Go.newline) = false -> out = s).
Proof.
  intros Hf kept out. subst out.
  pose proof (Split_Join_filter (fun line => negb (f line)) s) as Hsplit.
  fold kept in Hsplit. split; [exact Hsplit|]. split.
  - rewrite Hsplit. destruct kept as [|x l] eqn:E.
    + cbn. rewrite Hf. reflexivity.
    + cbn [written_lines]. rewrite <- E. subst kept.
      destruct (existsb f _) eqn:Ex; [|reflexivity].
      apply existsb_exists in Ex as (line & Hin & Hline).
      apply filter_In in Hin as [_ Hn]. rewrite Hline in Hn. discriminate.
  - intros Hnone. subst kept. destruct (filter_none _ _ Hnone) as [-> _].
    apply Join_Split.
Qed.

Lemma set_hostsFile_id (w : World) : set_hostsFile w (hostsFile w) = w.
Proof. destruct w. reflexivity. Qed.

Lemma existsb_length_filter {A : Type} (f : A -> bool) (l : list A) :
  (length (List.filter f l) =? 0)%nat = negb (existsb f l).
Proof.
  induction l as [|a l IH]; [reflexivity|].
  cbn. destruct (f a); [reflexivity|exact IH].
Qed.

(** X21.  On a host whose resolver file can be read and written, which is
    what the model of the helper takes for granted, [remove-hosts] drops
    from the file every line that contains the marker
    [# portsmith-dynamic-forward] and keeps the other lines, in order; it
    changes nothing else; when no line has the marker the file is not
    written and stays byte for byte; running it again changes nothing. *)
Theorem removeHosts_spec (w : World) :
  exists w',
    removeHosts w = (None, w') /\
    w' = set_hostsFile w (hostsFile w') /\
    Go.Split (hostsFile w') Go.newline =
      written_lines
        (List.filter (fun line => negb (Go.Contains line hostsMarker))
                     (Go.Split (hostsFile w) Go.newline)) /\
    existsb (fun line => Go.Contains line hostsMarker)
            (Go.Split (hostsFile w') Go.newline) = false /\
    (existsb (fun line => Go.Contains line hostsMarker)
             (Go.Split (hostsFile w) Go.newline) = false -> w' = w) /\
    removeHosts w' = (None, w').
Proof.
  destruct (drop_lines_spec (fun line => Go.Contains line hostsMarker)
              (hostsFile w) eq_refl) as (Hsplit & Hnone & Hsame).
  cbv zeta in Hsplit, Hnone, Hsame.
  assert (Hidem : forall w1,
             existsb (fun line => Go.Contains line hostsMarker)
                     (Go.Split (hostsFile w1) Go.newline) = false ->
             removeHosts w1 = (None, w1)).
  { intros w1 H1. unfold removeHosts.
    rewrite existsb_length_filter, H1. reflexivity. }
  unfold removeHosts at 1. rewrite existsb_length_filter.
  destruct (existsb _ (Go.Split (hostsFile w) Go.newline)) eqn:Ex; cbn [negb].
  - eexists. split; [reflexivity|]. cbn [hostsFile set_hostsFile].
    split; [reflexivity|]. split; [exact Hsplit|]. split; [exact Hnone|].
    split; [discriminate|]. apply Hidem. exact Hnone.
  - exists w. split; [reflexivity|]. split; [symmetry; apply set_hostsFile_id|].
    rewrite (Hsame eq_refl) in Hsplit. split; [exact Hsplit|].
    split; [exact Ex|]. split; [reflexivity|]. apply Hidem. exact Ex.
Qed.

Section MoreHosts.
Context {platform : Platform}.

(** X22.  [remove-host IP NAME] drops from the resolver file every line
    that contains the marker, the name and the address, each anywhere in the
    line, and keeps the other lines, in order; it changes nothing else;
    afterwards no line matches, and a file that had no matching line comes
    back byte for byte. *)
Theorem removeHost_spec (w : World) (ip hostname : string) :
  validateIP ip = None ->
  validateHostname hostname = None ->
  exists w',
    removeHost ip hostname w = (None, w') /\
    w' = set_hostsFile w (hostsFile w') /\
    Go.Split (hostsFile w') Go.newline =
      written_lines
        (List.filter (fun line => negb (line_matches ip hostname line))
                     (Go.Split (hostsFile w) Go.newline)) /\
    matching_lines ip hostname w' = 0%nat /\
    (matching_lines ip hostname w = 0%nat -> w' = w).
Proof.
  intros Hip Hname.
  destruct (drop_lines_spec (line_matches ip hostname) (hostsFile w)
              (line_matches_empty ip hostname)) as (Hsplit & Hnone & Hsame).
  cbv zeta in Hsplit, Hnone, Hsame.
  unfold removeHost. rewrite Hip, Hname.
  eexists. split; [reflexivity|]. cbn [hostsFile set_hostsFile].
  split; [reflexivity|]. split; [exact Hsplit|]. split.
  - unfold matching_lines. cbn [hostsFile set_hostsFile].
    destruct (filter_none _ _ Hnone) as [_ ->]. reflexivity.
  - unfold matching_lines. intros H0. rewrite Hsame.
    + apply set_hostsFile_id.
    + apply Nat.eqb_eq in H0. rewrite existsb_length_filter in H0.
      apply negb_true_iff in H0. exact H0.
Qed.

Lemma line_matches_weaken (ip1 h1 ip2 h2 line : string) :
  Go.Contains ip1 ip2 = true -> Go.Contains h1 h2 = true ->
  line_matches ip1 h1 line = true -> line_matches ip2 h2 line = true.
Proof.
  unfold line_matches. intros Hip Hh H.
  apply andb_true_iff in H as [H H3]. apply andb_true_iff in H as [H1 H2].
  rewrite H1, (Contains_trans _ _ _ H2 Hh), (Contains_trans _ _ _ H3 Hip).
  reflexivity.
Qed.

Lemma addHost_matches (w w1 : World) (ip hostname : string) :
  validateIP ip = None -> validateHostname hostname = None ->
  one_line (hosts_entry ip hostname) = true ->
  addHost ip hostname w = (None, w1) ->
  existsb (line_matches ip hostname) (Go.Split (hostsFile w1) Go.newline) = true.
Proof.
  intros Hip Hname Hone. unfold addHost. rewrite Hip, Hname.
  destruct (existsb (line_matches ip hostname) (Go.Split (hostsFile w) Go.newline))
    eqn:Ex.
  - intros [= <-]. exact Ex.
  - intros [= <-]. cbn [hostsFile set_hostsFile].
    destruct (hosts_append_entry ip hostname (hostsFile w) (hosts_entry ip hostname)
                Hone (line_matches_entry _ _) Ex) as (Hex & _).
    cbv zeta in Hex. unfold hosts_entry in Hex.
    rewrite !append_assoc in Hex. rewrite !append_assoc. exact Hex.
Qed.

End MoreHosts.

Section ShadowedNames.
Context {platform : Platform}.

Hypothesis net_ParseIP_one_line :
  forall s ip, net_ParseIP s = Some ip -> Go.Contains s nl = false.

(** X23.  [add-host] and [remove-host] find the entry of a pair by looking
    for the name and for the address anywhere in a marked line.  So once a
    name is entered for an address, [add-host] of a name that occurs inside
    it, for an address that occurs inside its address, adds nothing, and
    [remove-host] of that second pair removes the entry of the first. *)
Theorem addHost_shadowed (w : World) (ip1 h1 ip2 h2 : string) :
  validateIP ip1 = None -> validateHostname h1 = None ->
  validateIP ip2 = None -> validateHostname h2 = None ->
  Go.Contains ip1 ip2 = true -> Go.Contains h1 h2 = true ->
  exists w1 w2,
    addHost ip1 h1 w = (None, w1) /\
    addHost ip2 h2 w1 = (None, w1) /\
    removeHost ip2 h2 w1 = (None, w2) /\
    matching_lines ip1 h1 w2 = 0%nat.
Proof.
  intros Hip1 Hh1 Hip2 Hh2 Hip Hh.
  destruct (addHost ip1 h1 w) as [e w1] eqn:Hadd.
  assert (He : e = None).
  { unfold addHost in Hadd. rewrite Hip1, Hh1 in Hadd.
    destruct (existsb _ _); injection Hadd as <- _; reflexivity. }
  subst e.
  pose proof (addHost_matches w w1 ip1 h1 Hip1 Hh1
                (hosts_entry_one_line net_ParseIP_one_line _ _ Hip1 Hh1) Hadd) as Hex.
  assert (Hex2 : existsb (line_matches ip2 h2)
                   (Go.Split (hostsFile w1) Go.newline) = true).
  { apply existsb_exists in Hex as (line & Hin & Hline).
    apply existsb_exists. exists line. split; [exact Hin|].
    exact (line_matches_weaken _ _ _ _ _ Hip Hh Hline). }
  destruct (drop_lines_spec (line_matches ip2 h2) (hostsFile w1)
              (line_matches_empty ip2 h2)) as (_ & Hnone & _).
  cbv zeta in Hnone.
  exists w1. eexists. split; [reflexivity|]. split.
  { unfold addHost. rewrite Hip2, Hh2, Hex2. reflexivity. }
  split.
  { unfold removeHost. rewrite Hip2, Hh2. reflexivity. }
  unfold matching_lines. cbn [hostsFile set_hostsFile].
  apply length_zero_iff_nil.
  destruct (List.filter (line_matches ip1 h1) _) as [|line l] eqn:E; [reflexivity|].
  exfalso.
  assert (Hin : In line (line :: l)) by (left; reflexivity).
  rewrite <- E in Hin. apply filter_In in Hin as [Hin Hline].
  pose proof (line_matches_weaken _ _ _ _ _ Hip Hh Hline) as Hline2.
  assert (Hex3 : existsb (line_matches ip2 h2)
                   (Go.Split
                      (Go.Join
                         (List.filter (fun line => negb (line_matches ip2 h2 line))
                            (Go.Split (hostsFile w1) Go.newline)) nl) Go.newline)
                 = true).
  { apply existsb_exists. exists line. split; assumption. }
  rewrite Hnone in Hex3. discriminate.
Qed.

End ShadowedNames.

Lemma addHost_shadowed_witness :
  exists w1 w2,
    @addHost example_platform "127.0.0.2" "app.internal"
      (example_world ("127.0.0.1 localhost" ++ nl)) = (None, w1) /\
    hostsFile w1 =
      ("127.0.0.1 localhost" ++ nl ++
       "127.0.0.2 app.internal # portsmith-dynamic-forward" ++ nl)%string /\
    @addHost example_platform "127.0.0.2" "app" w1 = (None, w1) /\
    @removeHost example_platform "127.0.0.2" "app" w1 = (None, w2) /\
    hostsFile w2 = ("127.0.0.1 localhost" ++ nl)%string.
Proof.
  destruct (@addHost_shadowed example_platform parse_ipv4_one_line
              (example_world ("127.0.0.1 localhost" ++ nl))
              "127.0.0.2" "app.internal" "127.0.0.2" "app"
              eq_refl eq_refl eq_refl eq_refl eq_refl eq_refl)
    as (w1 & w2 & H1 & H2 & H3 & _).
  exists w1, w2. split; [exact H1|].
  vm_compute in H1. injection H1 as <-. split; [reflexivity|].
  split; [exact H2|]. split; [exact H3|].
  vm_compute in H3. injection H3 as <-. reflexivity.
Defined.

Lemma removeHost_spec_witness :
  exists w',
    @removeHost example_platform "127.0.0.2" "test.local"
      (example_world ("127.0.0.1 localhost" ++ nl ++
                      "127.0.0.2 test.local # portsmith-dynamic-forward" ++ nl ++
                      "127.0.0.3 another.local # portsmith-dynamic-forward" ++ nl))
    = (None, w') /\
    hostsFile w' =
      ("127.0.0.1 localhost" ++ nl ++
       "127.0.0.3 another.local # portsmith-dynamic-forward" ++ nl)%string.
Proof.
  destruct (@removeHost_spec example_platform
              (example_world ("127.0.0.1 localhost" ++ nl ++
                      "127.0.0.2 test.local # portsmith-dynamic-forward" ++ nl ++
                      "127.0.0.3 another.local # portsmith-dynamic-forward" ++ nl))
              "127.0.0.2" "test.local" eq_refl eq_refl)
    as (w' & H & _).
  exists w'. split; [exact H|]. vm_compute in H. injection H as <-. reflexivity.
Defined.

(** ** The helper: what it refuses *)

Section MoreHelper.
Context {platform : Platform}.

(** X24.  The helper touches nothing for an address that is not a loopback
    address: each of the six commands that take an address exits with
    status 1 and leaves the host as it is when [validateIP] refuses the
    address, whatever the other arguments are. *)
Theorem helper_refuses_address (command ip e : string) (rest : list string)
  (w : World) :
  validateIP ip = Some e ->
  In command ["add-alias"; "remove-alias"; "add-host"; "remove-host";
              "add-pf-redirect"; "remove-pf-redirect"] ->
  helper_main (command :: ip :: rest) w = (1, w).
Proof.
  intros Hip Hcmd.
  assert (Hhost : forall hostname, addHost ip hostname w = (Some e, w))
    by (intros; unfold addHost; rewrite Hip; reflexivity).
  assert (Hrhost : forall hostname, removeHost ip hostname w = (Some e, w))
    by (intros; unfold removeHost; rewrite Hip; reflexivity).
  assert (Hpf : forall f t, addPFRedirect ip f t w = (Some e, w))
    by (intros; unfold addPFRedirect; rewrite Hip; reflexivity).
  assert (Hrpf : forall f t, removePFRedirect ip f t w = (Some e, w))
    by (intros; unfold removePFRedirect; rewrite Hip; reflexivity).
  cbn [In] in Hcmd.
  destruct Hcmd as [<-|[<-|[<-|[<-|[<-|[<-|[]]]]]]]; cbn [helper_main String.eqb
    Ascii.eqb Bool.eqb].
  - destruct rest; [|reflexivity]. unfold addAlias. rewrite Hip. reflexivity.
  - destruct rest; [|reflexivity]. unfold removeAlias. rewrite Hip. reflexivity.
  - destruct rest as [|hostname [|]]; [reflexivity| |reflexivity].
    rewrite Hhost. reflexivity.
  - destruct rest as [|hostname [|]]; [reflexivity| |reflexivity].
    rewrite Hrhost. reflexivity.
  - destruct rest as [|f [|t [|]]]; try reflexivity.
    destruct (Go.Sscanf_d f); [|reflexivity].
    destruct (Go.Sscanf_d t); [|reflexivity]. rewrite Hpf. reflexivity.
  - destruct rest as [|f [|t [|]]]; try reflexivity.
    destruct (Go.Sscanf_d f); [|reflexivity].
    destruct (Go.Sscanf_d t); [|reflexivity]. rewrite Hrpf. reflexivity.
Qed.

End MoreHelper.

Lemma helper_refuses_address_witness :
  @helper_main example_platform ["add-host"; "192.168.1.1"; "test.local"]
    (example_world ("127.0.0.1 localhost" ++ nl))
  = (1, example_world ("127.0.0.1 localhost" ++ nl)).
Proof.
  apply (@helper_refuses_address example_platform "add-host" "192.168.1.1"
           "only loopback addresses allowed: 192.168.1.1").
  - reflexivity.
  - right. right. left. reflexivity.
Defined.

(** ** Port numbers on the helper's command line (network.go, helper) *)

(** [%d] of [fmt.Sscanf] reads back what [%d] of [fmt.Sprintf] wrote. *)
Lemma Sscanf_d_Itoa (z : Z) : is_int z -> Go.Sscanf_d (Go.Itoa z) = Some z.
Proof.
  intros Hz. unfold Go.Sscanf_d.
  rewrite <- (append_nil_r (Go.Itoa z)), (scanInt_Itoa z EmptyString Hz eq_refl).
  reflexivity.
Qed.

Section MorePF.
Context {platform : Platform}.

Lemma helper_add_pf (ip : string) (fromPort toPort : Z) (w : World) :
  is_int fromPort -> is_int toPort ->
  helper_main ["add-pf-redirect"; ip; Go.Itoa fromPort; Go.Itoa toPort] w =
  match addPFRedirect ip fromPort toPort w with
  | (None, w') => (0, w')
  | (Some _, w') => (1, w')
  end.
Proof.
  intros Hf Ht. cbn [helper_main String.eqb Ascii.eqb Bool.eqb].
  rewrite (Sscanf_d_Itoa _ Hf), (Sscanf_d_Itoa _ Ht). reflexivity.
Qed.

Lemma helper_remove_pf (ip : string) (fromPort toPort : Z) (w : World) :
  is_int fromPort -> is_int toPort ->
  helper_main ["remove-pf-redirect"; ip; Go.Itoa fromPort; Go.Itoa toPort] w =
  match removePFRedirect ip fromPort toPort w with
  | (None, w') => (0, w')
  | (Some _, w') => (1, w')
  end.
Proof.
  intros Hf Ht. cbn [helper_main String.eqb Ascii.eqb Bool.eqb].
  rewrite (Sscanf_d_Itoa _ Hf), (Sscanf_d_Itoa _ Ht). reflexivity.
Qed.

(** X25.  The port numbers [SetupPFRedirect] prints on the helper's command
    line are the ones the helper reads: the call does to the host what
    [addPFRedirect] does with these numbers, returns an undo closure exactly
    when [addPFRedirect] succeeds, and that closure does what
    [removePFRedirect] does with the same numbers.  For a port outside
    1..65535 the helper refuses and the host is left as it is. *)
Theorem SetupPFRedirect_spec (ip : string) (fromPort toPort : Z) (s : Sys) :
  is_int fromPort -> is_int toPort ->
  world (snd (SetupPFRedirect ip fromPort toPort s)) =
    snd (addPFRedirect ip fromPort toPort (world s)) /\
  fst (fst (SetupPFRedirect ip fromPort toPort s)) =
    match fst (addPFRedirect ip fromPort toPort (world s)) with
    | None => Some (UndoPFRedirect ip fromPort toPort)
    | Some _ => None
    end /\
  world (snd (run_undo (UndoPFRedirect ip fromPort toPort) s)) =
    snd (removePFRedirect ip fromPort toPort (world s)) /\
  (~ (1 <= fromPort <= 65535 /\ 1 <= toPort <= 65535) ->
   fst (fst (SetupPFRedirect ip fromPort toPort s)) = None /\
   world (snd (SetupPFRedirect ip fromPort toPort s)) = world s).
Proof.
  intros Hf Ht.
  assert (Hadd : forall w,
             world (snd (SetupPFRedirect ip fromPort toPort (mkSys w (trace s)))) =
               snd (addPFRedirect ip fromPort toPort w) /\
             fst (fst (SetupPFRedirect ip fromPort toPort (mkSys w (trace s)))) =
               match fst (addPFRedirect ip fromPort toPort w) with
               | None => Some (UndoPFRedirect ip fromPort toPort)
               | Some _ => None
               end).
  { intros w. unfold SetupPFRedirect, runHelper. cbn [world trace].
    rewrite (helper_add_pf ip fromPort toPort w Hf Ht).
    destruct (addPFRedirect ip fromPort toPort w) as [[e|] w']; split; reflexivity. }
  assert (Hs : s = mkSys (world s) (trace s)) by (destruct s; reflexivity).
  destruct (Hadd (world s)) as [H1 H2]. rewrite <- Hs in H1, H2.
  split; [exact H1|]. split; [exact H2|]. split.
  - unfold run_undo, runHelper. cbn [world trace emit].
    rewrite (helper_remove_pf ip fromPort toPort (world s) Hf Ht).
    destruct (removePFRedirect ip fromPort toPort (world s)) as [[e|] w'];
      reflexivity.
  - intros Hbad. rewrite H1, H2. unfold addPFRedirect.
    destruct (validateIP ip); [split; reflexivity|].
    replace ((fromPort <? 1) || (65535 <? fromPort) || (toPort <? 1) ||
             (65535 <? toPort)) with true; [split; reflexivity|].
    symmetry. rewrite !orb_true_iff, !Z.ltb_lt. lia.
Qed.

End MorePF.

Lemma SetupPFRedirect_spec_witness :
  fst (@SetupPFRedirect example_platform "127.0.0.2" 0 10000
         (mkSys (example_world ("127.0.0.1 localhost" ++ nl)) []))
  = (None,
     Some "failed to add pf redirect 127.0.0.2:0 -> 127.0.0.2:10000: exit status 1") /\
  fst (fst (@SetupPFRedirect example_platform "127.0.0.2" 443 10443
              (mkSys (example_world ("127.0.0.1 localhost" ++ nl)) [])))
  = Some (UndoPFRedirect "127.0.0.2" 443 10443).
Proof.
  assert (H0 : is_int 0) by (int_bounds; lia).
  assert (H1 : is_int 10000) by (int_bounds; lia).
  assert (H2 : is_int 443) by (int_bounds; lia).
  assert (H3 : is_int 10443) by (int_bounds; lia).
  destruct (@SetupPFRedirect_spec example_platform "127.0.0.2" 0 10000
              (mkSys (example_world ("127.0.0.1 localhost" ++ nl)) []) H0 H1)
    as (_ & _ & _ & Hbad).
  destruct (@SetupPFRedirect_spec example_platform "127.0.0.2" 443 10443
              (mkSys (example_world ("127.0.0.1 localhost" ++ nl)) []) H2 H3)
    as (_ & Hok & _).
  split; [reflexivity|]. rewrite Hok. reflexivity.
Defined.

(** ** White space at the ends of a string *)

Lemma rev_app_spec (s t : string) :
  String.rev_app s t = (String.rev s ++ t)%string.
Proof.
  unfold String.rev. revert t. induction s as [|a s IH]; intros t; [reflexivity|].
  cbn [String.rev_app]. rewrite (IH (String a t)), (IH (String a EmptyString)).
  rewrite append_assoc. reflexivity.
Qed.

Lemma rev_cons (a : ascii) (s : string) :
  String.rev (String a s) = (String.rev s ++ String a EmptyString)%string.
Proof. unfold String.rev at 1. cbn [String.rev_app]. apply rev_app_spec. Qed.

Lemma rev_append (s t : string) :
  String.rev (s ++ t) = (String.rev t ++ String.rev s)%string.
Proof.
  induction s as [|a s IH].
  - rewrite append_nil_l. change (String.rev EmptyString) with EmptyString.
    rewrite append_nil_r. reflexivity.
  - rewrite append_cons, !rev_cons, IH, append_assoc. reflexivity.
Qed.

Lemma rev_involutive (s : string) : String.rev (String.rev s) = s.
Proof.
  induction s as [|a s IH]; [reflexivity|].
  rewrite rev_cons, rev_append, IH. reflexivity.
Qed.

Lemma string_forallb_app (f : ascii -> bool) (s t : string) :
  string_forallb f (s ++ t) = string_forallb f s && string_forallb f t.
Proof.
  induction s as [|a s IH]; [reflexivity|].
  rewrite append_cons. cbn [string_forallb]. rewrite IH, andb_assoc. reflexivity.
Qed.

Lemma string_forallb_rev (f : ascii -> bool) (s : string) :
  string_forallb f (String.rev s) = string_forallb f s.
Proof.
  induction s as [|a s IH]; [reflexivity|].
  rewrite rev_cons, string_forallb_app, IH. cbn [string_forallb].
  rewrite andb_true_r. apply andb_comm.
Qed.

Lemma head_plain_app (s t : string) :
  head_plain s = true -> head_plain (s ++ t) = true.
Proof. destruct s; [discriminate|]. rewrite append_cons. exact id. Qed.

(** A string of plain bytes starts and ends with one. *)
Lemma plain_ends (s : string) :
  plain s = true -> head_plain s = true /\ head_plain (String.rev s) = true.
Proof.
  unfold plain. intros H. apply andb_true_iff in H as [Hh Hall].
  split; [exact Hh|].
  rewrite <- (string_forallb_rev plain_byte) in Hall.
  destruct s as [|a s]; [discriminate|]. rewrite rev_cons in *.
  destruct (String.rev s) as [|b r].
  - rewrite append_nil_l in *. exact Hh.
  - rewrite append_cons in *. cbn [string_forallb] in Hall.
    apply andb_true_iff in Hall as [Hb _]. exact Hb.
Qed.

Lemma plain_one_line (s : string) : plain s = true -> one_line s = true.
Proof.
  unfold plain, one_line. intros H. apply andb_true_iff in H as [_ H].
  revert H. apply string_forallb_impl. intros c Hc.
  destruct (Ascii.eqb c Go.newline) eqn:E; [|reflexivity].
  apply Ascii.eqb_eq in E. subst c. discriminate Hc.
Qed.

Lemma plain_nonempty (s : string) :
  plain s = true -> String.eqb s EmptyString = false.
Proof. destruct s; [discriminate|reflexivity]. Qed.

(** No white space starts, or ends, with a plain byte. *)
Lemma strip_one_plain (s : string) :
  head_plain s = true ->
  Go.strip_one Go.space_seqs s = None /\
  Go.strip_one (map String.rev Go.space_seqs) s = None.
Proof.
  destruct s as [|c s]; [discriminate|]. cbn [head_plain]. intros Hc.
  split; apply (strip_one_none plain_byte); try exact Hc; reflexivity.
Qed.

Lemma trim_left_none (fuel : nat) (seqs : list string) (s : string) :
  Go.strip_one seqs s = None -> Go.trim_left fuel seqs s = s.
Proof. intros H. destruct fuel; [reflexivity|]. cbn [Go.trim_left]. rewrite H. reflexivity. Qed.

(** [TrimSpace] leaves a string that starts and ends with a plain byte as it
    is. *)
Lemma TrimSpace_id (s : string) :
  head_plain s = true -> head_plain (String.rev s) = true -> Go.TrimSpace s = s.
Proof.
  intros Hh Hr. unfold Go.TrimSpace.
  rewrite (trim_left_none _ _ _ (proj1 (strip_one_plain _ Hh))).
  rewrite (trim_left_none _ _ _ (proj2 (strip_one_plain _ Hr))).
  apply rev_involutive.
Qed.

Lemma trim_left_nl (fuel : nat) (r : string) :
  head_plain r = true ->
  Go.trim_left (S fuel) (map String.rev Go.space_seqs) (nl ++ r) = r.
Proof.
  intros Hr. cbn [Go.trim_left].
  assert (Hstrip : Go.strip_one (map String.rev Go.space_seqs) (nl ++ r) = Some r).
  { unfold Go.space_seqs. cbn [map Go.strip_one].
    change (String.rev (Go.bytes [10%nat])) with (String Go.newline EmptyString).
    change (nl ++ r)%string with (String Go.newline r).
    rewrite prefix_cons, Ascii.eqb_refl, prefix_nil. reflexivity. }
  rewrite Hstrip. apply trim_left_none, strip_one_plain, Hr.
Qed.

(** [TrimSpace] removes the line feed that ends such a string. *)
Lemma TrimSpace_nl (s : string) :
  head_plain s = true -> head_plain (String.rev s) = true ->
  Go.TrimSpace (s ++ nl) = s.
Proof.
  intros Hh Hr. unfold Go.TrimSpace.
  rewrite (trim_left_none _ _ _ (proj1 (strip_one_plain _ (head_plain_app _ nl Hh)))).
  rewrite rev_append. change (String.rev nl) with nl.
  destruct s as [|c s]; [discriminate|].
  rewrite (append_cons c s nl). cbn [String.length].
  rewrite (trim_left_nl _ _ Hr). apply rev_involutive.
Qed.

(** ** The helper: the registry of aliases *)

Lemma registry_text_cons (x : string) (l : list string) :
  registry_text (x :: l) = (x ++ nl ++ registry_text l)%string.
Proof.
  unfold registry_text. destruct l as [|y l].
  - cbn. rewrite append_nil_r. reflexivity.
  - cbn [map String.concat]. rewrite append_nil_l, append_assoc. reflexivity.
Qed.

Lemma registry_text_app (l1 l2 : list string) :
  registry_text (l1 ++ l2) = (registry_text l1 ++ registry_text l2)%string.
Proof.
  induction l1 as [|x l1 IH]; [reflexivity|].
  cbn [app]. rewrite !registry_text_cons, IH, !append_assoc. reflexivity.
Qed.

Lemma Join_cons2 (x y : string) (l : list string) (sep : string) :
  Go.Join (x :: y :: l) sep = (x ++ sep ++ Go.Join (y :: l) sep)%string.
Proof. reflexivity. Qed.

(** The registry text is what [removeAliasFromState] writes. *)
Lemma registry_text_Join (l : list string) :
  registry_text l =
  if (0 <? length l)%nat then (Go.Join l nl ++ nl)%string else Go.Join l nl.
Proof.
  induction l as [|x l IH]; [reflexivity|].
  rewrite registry_text_cons, IH. cbn [length Nat.ltb Nat.leb].
  destruct l as [|y l].
  - cbn. rewrite append_nil_r. reflexivity.
  - cbn [length Nat.ltb Nat.leb]. rewrite Join_cons2, !append_assoc. reflexivity.
Qed.

Lemma Join_ends (x : string) (l : list string) :
  Forall (fun ip => plain ip = true) (x :: l) ->
  head_plain (Go.Join (x :: l) nl) = true /\
  head_plain (String.rev (Go.Join (x :: l) nl)) = true.
Proof.
  revert x. induction l as [|y l IH]; intros x HF;
    inversion HF as [|? ? Hx Hl]; subst.
  - cbn. apply plain_ends, Hx.
  - rewrite Join_cons2. split.
    + apply head_plain_app, plain_ends, Hx.
    + rewrite !rev_append. apply head_plain_app, head_plain_app, (IH y Hl).
Qed.

Lemma map_TrimSpace_plain (l : list string) :
  Forall (fun ip => plain ip = true) l -> map Go.TrimSpace l = l.
Proof.
  induction 1 as [|x l Hx Hl IH]; [reflexivity|].
  cbn [map]. rewrite IH. f_equal.
  destruct (plain_ends _ Hx). apply TrimSpace_id; assumption.
Qed.

(** Reading the registry in the helper's format gives the addresses
    back. *)
Lemma loadAliases_text (w : World) (l : list string) :
  Forall (fun ip => plain ip = true) l ->
  aliasesFile w = Some (registry_text l) ->
  loadAliases w = l.
Proof.
  intros HF Hfile. unfold loadAliases. rewrite Hfile.
  destruct l as [|x l]; [reflexivity|].
  rewrite registry_text_Join. cbn [length Nat.ltb Nat.leb].
  destruct (Join_ends x l HF) as [Hh Hr].
  rewrite (TrimSpace_nl _ Hh Hr).
  rewrite Split_Join; [|discriminate|].
  - rewrite (map_TrimSpace_plain _ HF). apply filter_id.
    intros ip Hin. rewrite Forall_forall in HF. apply list_elem_of_In in Hin.
    rewrite (plain_nonempty _ (HF ip Hin)). reflexivity.
  - eapply Forall_impl; [exact HF|]. intros ip. apply plain_one_line.
Qed.

Lemma registry_lists_load (w : World) (l : list string) :
  registry_lists w l -> loadAliases w = l.
Proof.
  intros (HF & _ & [Hfile|[Hfile ->]]).
  - exact (loadAliases_text w l HF Hfile).
  - unfold loadAliases. rewrite Hfile. reflexivity.
Qed.

Lemma NoDup_snoc {A : Type} (l : list A) (x : A) :
  NoDup l -> ~ In x l -> NoDup (l ++ [x]).
Proof.
  intros Hnd Hx. apply NoDup_app. split; [exact Hnd|]. split.
  - intros y Hy Hin. apply list_elem_of_In in Hin. cbn in Hin.
    destruct Hin as [<-|[]]. apply Hx, list_elem_of_In, Hy.
  - apply NoDup_singleton.
Qed.

Lemma NoDup_filter' {A : Type} (f : A -> bool) (l : list A) :
  NoDup l -> NoDup (List.filter f l).
Proof.
  induction 1 as [|x l Hx Hl IH]; [constructor|].
  cbn. destruct (f x); [|exact IH]. constructor; [|exact IH].
  intros Hin. apply Hx. apply list_elem_of_In in Hin.
  apply filter_In in Hin as [Hin _]. apply list_elem_of_In, Hin.
Qed.

Lemma registry_lists_frame (w w' : World) (l : list string) :
  aliasesFile w' = aliasesFile w -> registry_lists w l -> registry_lists w' l.
Proof. unfold registry_lists. intros ->. exact id. Qed.

(** A registry file that exists is in its directory. *)
Lemma has_stateDir_file (w : World) (c : string) :
  aliasesFile w = Some c -> has_stateDir w = true.
Proof.
  intros H. unfold has_stateDir. rewrite H.
  rewrite bool_decide_eq_true_2 by eauto. apply orb_true_r.
Qed.

Lemma addAliasToState_dir (ip : string) (w : World) :
  has_stateDir w = true ->
  addAliasToState ip w =
  if in_list ip (loadAliases w) then (None, w)
  else (None, set_aliasesFile w
                (Some (default EmptyString (aliasesFile w) ++ ip ++ nl)%string)).
Proof.
  intros H. unfold addAliasToState, ensureStateDir. rewrite H.
  destruct (aliasesFile w); reflexivity.
Qed.

Lemma addAliasToState_no_dir (ip : string) (w : World) :
  has_stateDir w = false ->
  addAliasToState ip w = addAliasToState ip (set_stateDir w true).
Proof.
  intros H. unfold addAliasToState, ensureStateDir. rewrite H. reflexivity.
Qed.

(** [addAliasToState] appends the address to the registry unless it is
    there; the directory of the registry exists afterwards. *)
Lemma addAliasToState_spec (ip : string) (w : World) (l : list string) :
  registry_lists w l -> plain ip = true ->
  exists w',
    addAliasToState ip w = (None, w') /\
    registry_lists w' (if in_list ip l then l else l ++ [ip]) /\
    lo0 w' = lo0 w /\ hostsFile w' = hostsFile w /\ anchorFile w' = anchorFile w /\
    pfConf w' = pfConf w /\ pfLoaded w' = pfLoaded w /\
    has_stateDir w' = true /\
    (has_stateDir w = true -> in_list ip l = true -> w' = w).
Proof.
  assert (Hdir : forall w1, has_stateDir w1 = true -> registry_lists w1 l ->
                 plain ip = true ->
                 exists w',
                   addAliasToState ip w1 = (None, w') /\
                   registry_lists w' (if in_list ip l then l else l ++ [ip]) /\
                   lo0 w' = lo0 w1 /\ hostsFile w' = hostsFile w1 /\
                   anchorFile w' = anchorFile w1 /\
                   pfConf w' = pfConf w1 /\ pfLoaded w' = pfLoaded w1 /\
                   has_stateDir w' = true /\
                   (in_list ip l = true -> w' = w1)).
  { intros w1 Hd Hreg Hip. rewrite (addAliasToState_dir _ _ Hd).
    rewrite (registry_lists_load _ _ Hreg).
    destruct (in_list ip l) eqn:Ein.
    - exists w1. split; [reflexivity|]. split; [exact Hreg|].
      repeat split. exact Hd.
    - eexists. split; [reflexivity|].
      split; [|repeat split; try discriminate;
               eapply has_stateDir_file; reflexivity].
      destruct Hreg as (HF & Hnd & Hfile). split; [|split].
      + apply Forall_app. split; [exact HF|]. constructor; [exact Hip|constructor].
      + apply NoDup_snoc; [exact Hnd|]. intros Hin. apply in_list_In in Hin.
        congruence.
      + left. cbn [aliasesFile set_aliasesFile].
        rewrite registry_text_app, registry_text_cons.
        change (registry_text []) with EmptyString. rewrite append_nil_r.
        destruct Hfile as [->|[-> ->]]; reflexivity. }
  intros Hreg Hip. destruct (has_stateDir w) eqn:Ed.
  - destruct (Hdir w Ed Hreg Hip) as (w' & H1 & H2 & H3 & H4 & H5 & H6 & H7 & H8 & H9).
    exists w'. split; [exact H1|]. split; [exact H2|].
    repeat split; try assumption. intros _. exact H9.
  - rewrite (addAliasToState_no_dir _ _ Ed).
    destruct (Hdir (set_stateDir w true) eq_refl
                (registry_lists_frame _ (set_stateDir w true) _ eq_refl Hreg) Hip)
      as (w' & H1 & H2 & H3 & H4 & H5 & H6 & H7 & H8 & H9).
    exists w'. split; [exact H1|]. split; [exact H2|].
    repeat split; try assumption. discriminate.
Qed.

(** [removeAliasFromState] rewrites the registry without the address; on a
    host without the directory of the registry it fails and changes
    nothing. *)
Lemma removeAliasFromState_spec (ip : string) (w : World) (l : list string) :
  registry_lists w l ->
  exists e w',
    removeAliasFromState ip w = (e, w') /\
    (has_stateDir w = true -> e = None) /\
    (has_stateDir w = false -> w' = w) /\
    registry_lists w' (List.filter (fun a => negb (String.eqb a ip)) l) /\
    lo0 w' = lo0 w /\ hostsFile w' = hostsFile w /\ anchorFile w' = anchorFile w /\
    pfConf w' = pfConf w /\ pfLoaded w' = pfLoaded w.
Proof.
  intros Hreg. pose proof (registry_lists_load _ _ Hreg) as Hload.
  unfold removeAliasFromState. rewrite Hload.
  destruct (has_stateDir w) eqn:Edir.
  - eexists. eexists. split; [reflexivity|]. split; [reflexivity|].
    split; [discriminate|]. split; [|repeat split].
    destruct Hreg as (HF & Hnd & _). split; [|split].
    + apply Forall_filter, HF.
    + apply NoDup_filter', Hnd.
    + left. cbn [aliasesFile set_aliasesFile]. rewrite registry_text_Join.
      reflexivity.
  - eexists. exists w. split; [reflexivity|]. split; [discriminate|].
    split; [reflexivity|]. split; [|repeat split].
    destruct Hreg as (HF & Hnd & [Hfile|[Hfile ->]]).
    + rewrite (has_stateDir_file _ _ Hfile) in Edir. discriminate.
    + split; [constructor|]. split; [constructor|]. right. split; [exact Hfile|].
      reflexivity.
Qed.


Lemma Contains_concat (f : string -> string) (l : list string) (x : string) :
  In x l -> Go.Contains (f x) x = true ->
  Go.Contains (String.concat EmptyString (map f l)) x = true.
Proof.
  intros Hin Hx. induction l as [|y l IH]; [destruct Hin|].
  assert (Hc : String.concat EmptyString (map f (y :: l)) =
               (f y ++ String.concat EmptyString (map f l))%string).
  { destruct l; cbn; [rewrite append_nil_r|]; reflexivity. }
  rewrite Hc. destruct Hin as [->|Hin].
  - apply Contains_app_l, Hx.
  - apply Contains_app_r, IH, Hin.
Qed.

(** [ifconfig lo0] shows every address of the interface. *)
Lemma ifconfig_lo0_shows (w : World) (ip : string) :
  In ip (lo0 w) -> Go.Contains (ifconfig_lo0 w) ip = true.
Proof.
  intros Hin. unfold ifconfig_lo0.
  do 5 apply Contains_app_r. apply Contains_app_l.
  apply Contains_concat; [exact Hin|].
  apply Contains_app_r, Contains_app_r, Contains_here.
Qed.

Section Registry.
Context {platform : Platform}.

(** An IP literal is made of hexadecimal digits, dots and colons:
    [net.ParseIP] accepts no empty string and no string with white space. *)
Hypothesis net_ParseIP_plain :
  forall s ip, net_ParseIP s = Some ip -> plain s = true.

Lemma validateIP_plain (ip : string) : validateIP ip = None -> plain ip = true.
Proof.
  unfold validateIP. destruct (net_ParseIP ip) as [parsed|] eqn:E; [|discriminate].
  intros _. exact (net_ParseIP_plain _ _ E).
Qed.

(** What [helper_main] does to the host is what one of its commands
    does. *)
Lemma helper_main_cases (args : list string) (w : World) :
  let w' := snd (helper_main args w) in
  w' = w \/
  (exists ip, w' = snd (addAlias ip w)) \/
  (exists ip, w' = snd (removeAlias ip w)) \/
  (exists ip hostname, w' = snd (addHost ip hostname w)) \/
  (exists ip hostname, w' = snd (removeHost ip hostname w)) \/
  w' = snd (removeHosts w) \/
  w' = snd (removeAliases w) \/
  (exists ip f t, w' = snd (addPFRedirect ip f t w)) \/
  (exists ip f t, w' = snd (removePFRedirect ip f t w)) \/
  w' = snd (removePFRedirects w).
Proof.
  assert (Hexit : forall r : error * World,
             snd (match r with (None, w') => (0, w') | (Some _, w') => (1, w') end)
             = snd r) by (intros [[e|] w1]; reflexivity).
  cbv zeta. destruct args as [|command rest]; [left; reflexivity|].
  cbn [helper_main]. cbv zeta.
  destruct (String.eqb command "add-alias").
  { destruct rest as [|ip [|]]; [left; reflexivity| |left; reflexivity].
    rewrite Hexit. right. left. exists ip. reflexivity. }
  destruct (String.eqb command "remove-alias").
  { destruct rest as [|ip [|]]; [left; reflexivity| |left; reflexivity].
    rewrite Hexit. right. right. left. exists ip. reflexivity. }
  destruct (String.eqb command "add-host").
  { destruct rest as [|ip [|h [|]]]; try (left; reflexivity).
    rewrite Hexit. do 3 right. left. exists ip, h. reflexivity. }
  destruct (String.eqb command "remove-host").
  { destruct rest as [|ip [|h [|]]]; try (left; reflexivity).
    rewrite Hexit. do 4 right. left. exists ip, h. reflexivity. }
  destruct (String.eqb command "remove-hosts").
  { rewrite Hexit. do 5 right. left. reflexivity. }
  destruct (String.eqb command "remove-aliases").
  { rewrite Hexit. do 6 right. left. reflexivity. }
  destruct (String.eqb command "add-pf-redirect").
  { destruct rest as [|ip [|f [|t [|]]]]; try (left; reflexivity).
    destruct (Go.Sscanf_d f) as [fromPort|]; [|left; reflexivity].
    destruct (Go.Sscanf_d t) as [toPort|]; [|left; reflexivity].
    rewrite Hexit. do 7 right. left. exists ip, fromPort, toPort. reflexivity. }
  destruct (String.eqb command "remove-pf-redirect").
  { destruct rest as [|ip [|f [|t [|]]]]; try (left; reflexivity).
    destruct (Go.Sscanf_d f) as [fromPort|]; [|left; reflexivity].
    destruct (Go.Sscanf_d t) as [toPort|]; [|left; reflexivity].
    rewrite Hexit. do 8 right. left. exists ip, fromPort, toPort. reflexivity. }
  destruct (String.eqb command "remove-pf-redirects").
  { rewrite Hexit. do 9 right. reflexivity. }
  left. reflexivity.
Qed.

Lemma addAlias_registry (ip : string) (w : World) (l : list string) :
  registry_lists w l -> exists l', registry_lists (snd (addAlias ip w)) l'.
Proof.
  intros Hreg. unfold addAlias.
  destruct (validateIP ip) eqn:Hip; [exists l; exact Hreg|].
  pose proof (validateIP_plain _ Hip) as Hplain. unfold addAliasDarwin.
  destruct (Go.Contains (ifconfig_lo0 w) ip).
  - destruct (addAliasToState_spec ip w l Hreg Hplain) as (w' & -> & Hreg' & _).
    eexists. exact Hreg'.
  - assert (Hreg1 : registry_lists (ifconfig_alias ip w) l).
    { apply (registry_lists_frame w); [|exact Hreg].
      unfold ifconfig_alias. destruct (in_list ip (lo0 w)); reflexivity. }
    destruct (addAliasToState_spec ip _ l Hreg1 Hplain) as (w' & -> & Hreg' & _).
    eexists. exact Hreg'.
Qed.

Lemma removeAlias_registry (ip : string) (w : World) (l : list string) :
  registry_lists w l -> exists l', registry_lists (snd (removeAlias ip w)) l'.
Proof.
  intros Hreg. unfold removeAlias.
  destruct (validateIP ip); [exists l; exact Hreg|].
  unfold removeAliasDarwin, ifconfig_unalias.
  destruct (in_list ip (lo0 w)); [|exists l; exact Hreg].
  assert (Hreg1 : registry_lists
                    (set_lo0 w (List.filter (fun a => negb (String.eqb a ip)) (lo0 w))) l)
    by (apply (registry_lists_frame w); [reflexivity|exact Hreg]).
  destruct (removeAliasFromState_spec ip _ l Hreg1)
    as (e & w' & -> & _ & _ & Hreg' & _).
  eexists. destruct e; exact Hreg'.
Qed.

Lemma removeAliases_registry (w : World) (l : list string) :
  registry_lists w l -> exists l', registry_lists (snd (removeAliases w)) l'.
Proof.
  intros Hreg. unfold removeAliases, removeAliasesDarwin.
  destruct (length (loadAliases w) =? 0)%nat; [exists l; exact Hreg|].
  exists []. split; [constructor|]. split; [constructor|]. left. reflexivity.
Qed.

(** X26.  The registry keeps its form through every invocation of the
    helper: if it lists addresses one per line, each once, it still does
    after any command with any arguments, and [loadAliases] reads exactly
    the addresses listed. *)
Theorem registry_invariant (args : list string) (w : World) (aliases : list string) :
  registry_lists w aliases ->
  exists aliases',
    registry_lists (snd (helper_main args w)) aliases' /\
    loadAliases (snd (helper_main args w)) = aliases' /\
    NoDup (loadAliases (snd (helper_main args w))).
Proof.
  intros Hreg.
  assert (H : exists l', registry_lists (snd (helper_main args w)) l').
  { pose proof (helper_main_cases args w) as Hcases. cbv zeta in Hcases.
    assert (Hframe : forall w', aliasesFile w' = aliasesFile w ->
                                exists l', registry_lists w' l').
    { intros w' Hf. exists aliases. exact (registry_lists_frame _ _ _ Hf Hreg). }
    destruct Hcases as [->|[(ip & ->)|[(ip & ->)|[(ip & h & ->)|[(ip & h & ->)|
      [->|[->|[(ip & f & t & ->)|[(ip & f & t & ->)| ->]]]]]]]]].
    - exists aliases. exact Hreg.
    - exact (addAlias_registry ip w aliases Hreg).
    - exact (removeAlias_registry ip w aliases Hreg).
    - apply Hframe. unfold addHost. destruct (validateIP ip); [reflexivity|].
      destruct (validateHostname h); [reflexivity|].
      destruct (existsb _ _); reflexivity.
    - apply Hframe. unfold removeHost. destruct (validateIP ip); [reflexivity|].
      destruct (validateHostname h); reflexivity.
    - apply Hframe. unfold removeHosts. destruct (_ =? _)%nat; reflexivity.
    - exact (removeAliases_registry w aliases Hreg).
    - apply Hframe. unfold addPFRedirect. destruct (validateIP ip); [reflexivity|].
      destruct (_ || _); [reflexivity|]. destruct (Go.Contains _ _); [reflexivity|].
      cbv zeta. destruct (negb _); [|reflexivity].
      destruct (insert_anchor _ _) as [newLines added].
      destruct (negb added); reflexivity.
    - apply Hframe. unfold removePFRedirect. destruct (validateIP ip); [reflexivity|].
      destruct (anchorFile w); reflexivity.
    - apply Hframe. unfold removePFRedirects. destruct (anchorFile w); reflexivity. }
  destruct H as [l' Hl']. exists l'. split; [exact Hl'|].
  pose proof (registry_lists_load _ _ Hl') as Hload. split; [exact Hload|].
  rewrite Hload. destruct Hl' as (_ & Hnd & _). exact Hnd.
Qed.

(** X27.  [add-alias] then [remove-alias] of an address that [ifconfig lo0]
    does not show and the registry does not list: the first adds the address
    to the interface and to the registry, and a second [add-alias] changes
    nothing; the second gives the interface, the addresses of the registry,
    the resolver file and the files of the packet filter back as they
    were. *)
Theorem addAlias_removeAlias (w : World) (ip : string) (aliases : list string) :
  registry_lists w aliases ->
  validateIP ip = None ->
  Go.Contains (ifconfig_lo0 w) ip = false ->
  ~ In ip aliases ->
  exists w1 w2,
    addAlias ip w = (None, w1) /\
    lo0 w1 = lo0 w ++ [ip] /\ loadAliases w1 = aliases ++ [ip] /\
    addAlias ip w1 = (None, w1) /\
    removeAlias ip w1 = (None, w2) /\
    lo0 w2 = lo0 w /\ loadAliases w2 = aliases /\
    hostsFile w2 = hostsFile w /\ anchorFile w2 = anchorFile w /\
    pfConf w2 = pfConf w /\ pfLoaded w2 = pfLoaded w.
Proof.
  intros Hreg Hip Hshow Hnew.
  pose proof (validateIP_plain _ Hip) as Hplain.
  assert (Hlo : in_list ip (lo0 w) = false).
  { destruct (in_list ip (lo0 w)) eqn:E; [|reflexivity].
    apply in_list_In, ifconfig_lo0_shows in E. congruence. }
  assert (Hreg0 : registry_lists (set_lo0 w (lo0 w ++ [ip])) aliases)
    by (apply (registry_lists_frame w); [reflexivity|exact Hreg]).
  destruct (addAliasToState_spec ip _ aliases Hreg0 Hplain)
    as (w1 & Hadd & Hreg1 & Hlo1 & Hh1 & Ha1 & Hc1 & Hl1 & Hdir1 & _).
  assert (Hin : in_list ip aliases = false).
  { destruct (in_list ip aliases) eqn:E; [|reflexivity].
    apply in_list_In in E. contradiction. }
  rewrite Hin in Hreg1. cbn [lo0 set_lo0 hostsFile anchorFile pfConf pfLoaded] in *.
  assert (Hadd1 : addAlias ip w = (None, w1)).
  { unfold addAlias, addAliasDarwin, ifconfig_alias.
    rewrite Hip, Hshow, Hlo, Hadd. reflexivity. }
  assert (Hin1 : in_list ip (lo0 w1) = true).
  { rewrite Hlo1. apply in_list_In, in_or_app. right. left. reflexivity. }
  assert (Hfilter : List.filter (fun a => negb (String.eqb a ip)) (lo0 w1) = lo0 w).
  { rewrite Hlo1, List.filter_app. cbn [List.filter].
    rewrite String.eqb_refl. cbn [negb]. rewrite app_nil_r.
    apply filter_id. intros a Ha. apply negb_true_iff, String.eqb_neq.
    intros ->. apply in_list_In in Ha. congruence. }
  assert (Hreg2 : registry_lists
                    (set_lo0 w1 (List.filter (fun a => negb (String.eqb a ip)) (lo0 w1)))
                    (aliases ++ [ip]))
    by (apply (registry_lists_frame w1); [reflexivity|exact Hreg1]).
  destruct (removeAliasFromState_spec ip _ _ Hreg2)
    as (e2 & w2 & Hrem & He2 & _ & Hreg3 & Hlo2 & Hh2 & Ha2 & Hc2 & Hl2).
  rewrite (He2 Hdir1) in Hrem. clear He2.
  cbn [lo0 set_lo0 hostsFile anchorFile pfConf pfLoaded] in *.
  assert (Hback : List.filter (fun a => negb (String.eqb a ip)) (aliases ++ [ip])
                  = aliases).
  { rewrite List.filter_app. cbn [List.filter].
    rewrite String.eqb_refl. cbn [negb]. rewrite app_nil_r.
    apply filter_id. intros a Ha. apply negb_true_iff, String.eqb_neq.
    intros ->. contradiction. }
  rewrite Hback in Hreg3.
  exists w1, w2. split; [exact Hadd1|]. split; [exact Hlo1|].
  split; [exact (registry_lists_load _ _ Hreg1)|]. split.
  { unfold addAlias, addAliasDarwin. rewrite Hip.
    rewrite (ifconfig_lo0_shows w1 ip) by (apply in_list_In, Hin1).
    rewrite (addAliasToState_dir _ _ Hdir1), (registry_lists_load _ _ Hreg1).
    replace (in_list ip (aliases ++ [ip])) with true; [reflexivity|].
    symmetry. apply in_list_In, in_or_app. right. left. reflexivity. }
  split.
  { unfold removeAlias, removeAliasDarwin, ifconfig_unalias.
    rewrite Hip, Hin1, Hrem. reflexivity. }
  split; [rewrite Hlo2; exact Hfilter|].
  split; [exact (registry_lists_load _ _ Hreg3)|].
  repeat split; congruence.
Qed.

(** X28.  [add-alias] decides that an alias is there by looking for the
    address anywhere in the output of [ifconfig lo0].  When it finds it, it
    leaves the interface alone and still puts the address in the registry;
    [remove-aliases] then removes from the interface every address of the
    registry, this one included if the interface has it, though the helper
    never added it. *)
Theorem addAlias_existing (w : World) (ip : string) (aliases : list string) :
  registry_lists w aliases ->
  validateIP ip = None ->
  Go.Contains (ifconfig_lo0 w) ip = true ->
  exists w1,
    addAlias ip w = (None, w1) /\
    lo0 w1 = lo0 w /\
    In ip (loadAliases w1) /\
    lo0 (snd (removeAliases w1)) =
      List.filter (fun a => negb (in_list a (loadAliases w1))) (lo0 w) /\
    ~ In ip (lo0 (snd (removeAliases w1))).
Proof.
  intros Hreg Hip Hshow.
  pose proof (validateIP_plain _ Hip) as Hplain.
  destruct (addAliasToState_spec ip w aliases Hreg Hplain)
    as (w1 & Hadd & Hreg1 & Hlo1 & _).
  pose proof (registry_lists_load _ _ Hreg1) as Hload.
  assert (Hin : In ip (loadAliases w1)).
  { rewrite Hload. destruct (in_list ip aliases) eqn:E.
    - apply in_list_In, E.
    - apply in_or_app. right. left. reflexivity. }
  assert (Hrem : lo0 (snd (removeAliases w1)) =
                 List.filter (fun a => negb (in_list a (loadAliases w1))) (lo0 w)).
  { unfold removeAliases, removeAliasesDarwin.
    destruct (loadAliases w1) as [|a l] eqn:E; [destruct Hin|].
    cbn [length Nat.eqb snd lo0 set_aliasesFile].
    destruct (unalias_all_spec (a :: l) w1) as (H1 & _). cbv zeta in H1.
    rewrite H1, Hlo1. reflexivity. }
  exists w1. split.
  { unfold addAlias, addAliasDarwin. rewrite Hip, Hshow, Hadd. reflexivity. }
  split; [exact Hlo1|]. split; [exact Hin|]. split; [exact Hrem|].
  rewrite Hrem. intros H. apply filter_In in H as [_ H].
  apply negb_true_iff in H. apply in_list_In in Hin. congruence.
Qed.

End Registry.

Lemma parse_ipv4_plain (s : string) (ip : list Z) :
  parse_ipv4 s = Some ip -> plain s = true.
Proof.
  unfold parse_ipv4.
  destruct (string_forallb _ s) eqn:E; [|discriminate].
  destruct s as [|c s]; [discriminate|]. intros _.
  assert (Hall : string_forallb plain_byte (String c s) = true).
  { revert E. apply string_forallb_impl. intros a Ha.
    apply orb_true_iff in Ha as [Ha|Ha].
    - unfold Go.is_digit in Ha. unfold plain_byte.
      apply andb_true_iff in Ha as [H1 H2].
      apply Nat.leb_le in H1. apply Nat.leb_le in H2.
      apply andb_true_iff. split; apply Nat.leb_le; lia.
    - apply Ascii.eqb_eq in Ha. subst a. reflexivity. }
  unfold plain. rewrite Hall, andb_true_r.
  cbn [string_forallb] in Hall. apply andb_true_iff in Hall as [Hc _]. exact Hc.
Qed.

Lemma example_registry_empty (hosts : string) :
  registry_lists (example_world hosts) [].
Proof. split; [constructor|]. split; [constructor|]. right. split; reflexivity. Qed.

Lemma registry_invariant_witness :
  loadAliases
    (snd (@helper_main example_platform ["add-alias"; "127.0.0.2"]
            (snd (@helper_main example_platform ["add-alias"; "127.0.0.2"]
                    (example_world ("127.0.0.1 localhost" ++ nl))))))
  = ["127.0.0.2"].
Proof.
  destruct (@registry_invariant example_platform parse_ipv4_plain
              ["add-alias"; "127.0.0.2"]
              (example_world ("127.0.0.1 localhost" ++ nl)) []
              (example_registry_empty _)) as (l1 & Hreg1 & _).
  destruct (@registry_invariant example_platform parse_ipv4_plain
              ["add-alias"; "127.0.0.2"] _ l1 Hreg1) as (l2 & _ & Hload & _).
  rewrite Hload. rewrite <- Hload. vm_compute. reflexivity.
Defined.

Lemma addAlias_removeAlias_witness :
  exists w1 w2,
    @addAlias example_platform "127.0.0.2"
      (example_world ("127.0.0.1 localhost" ++ nl)) = (None, w1) /\
    lo0 w1 = ["127.0.0.1"; "127.0.0.2"] /\
    aliasesFile w1 = Some ("127.0.0.2" ++ nl)%string /\
    @removeAlias example_platform "127.0.0.2" w1 = (None, w2) /\
    lo0 w2 = ["127.0.0.1"] /\ loadAliases w2 = [].
Proof.
  destruct (@addAlias_removeAlias example_platform parse_ipv4_plain
              (example_world ("127.0.0.1 localhost" ++ nl)) "127.0.0.2" []
              (example_registry_empty _) eq_refl eq_refl (fun H => H))
    as (w1 & w2 & Hadd & Hlo1 & _ & _ & Hrem & Hlo2 & Hload2 & _).
  exists w1, w2. split; [exact Hadd|]. split; [exact Hlo1|]. split.
  { vm_compute in Hadd. injection Hadd as <-. reflexivity. }
  split; [exact Hrem|]. split; [exact Hlo2|exact Hload2].
Defined.

Lemma addAlias_existing_witness :
  exists w1,
    @addAlias example_platform "127.0.0.1"
      (example_world ("127.0.0.1 localhost" ++ nl)) = (None, w1) /\
    lo0 w1 = ["127.0.0.1"] /\
    loadAliases w1 = ["127.0.0.1"] /\
    lo0 (snd (removeAliases w1)) = [].
Proof.
  destruct (@addAlias_existing example_platform parse_ipv4_plain
              (example_world ("127.0.0.1 localhost" ++ nl)) "127.0.0.1" []
              (example_registry_empty _) eq_refl eq_refl)
    as (w1 & Hadd & Hlo & _ & Hrem & _).
  exists w1. split; [exact Hadd|]. split; [exact Hlo|].
  vm_compute in Hadd. injection Hadd as <-. split; reflexivity.
Defined.

(** ** The bulk cleanup (network.go, helper) *)

Section MoreCleanup.
Context {platform : Platform}.








End MoreCleanup.

(** ** The helper: redirects *)

Lemma Itoa_plain (z : Z) : plain (Go.Itoa z) = true.
Proof.
  assert (Hbyte : forall c, digit_or_minus c = true -> plain_byte c = true).
  { intros c Hc. apply orb_true_iff in Hc as [Hc|Hc].
    - unfold Go.is_digit in Hc. unfold plain_byte.
      apply andb_true_iff in Hc as [H1 H2].
      apply Nat.leb_le in H1. apply Nat.leb_le in H2.
      apply andb_true_iff. split; apply Nat.leb_le; lia.
    - apply Ascii.eqb_eq in Hc. subst c. reflexivity. }
  pose proof (string_forallb_impl _ _ _ Hbyte (Itoa_chars z)) as Hall.
  unfold plain. rewrite Hall, andb_true_r.
  destruct (Go.Itoa z) as [|c s] eqn:E.
  - destruct (Itoa_cases z) as [[_ H]|[(p & _ & H)|(p & _ & H)]];
      rewrite E in H; try discriminate H.
    destruct (uint_string_head p) as (c & s & Hs & _). congruence.
  - cbn [string_forallb] in Hall. apply andb_true_iff in Hall as [Hc _]. exact Hc.
Qed.

(** A redirect rule starts and ends with a plain byte. *)
Lemma pf_rule_ends (ip : string) (fromPort toPort : Z) :
  head_plain (pf_rule ip fromPort toPort) = true /\
  head_plain (String.rev (pf_rule ip fromPort toPort)) = true.
Proof.
  unfold pf_rule. split; [reflexivity|].
  rewrite !rev_append. do 7 apply head_plain_app.
  apply plain_ends, Itoa_plain.
Qed.

Lemma insert_anchor_none (lines : list string) :
  existsb (fun line => Go.Contains line appleRef) lines = false ->
  insert_anchor lines false = (lines, false).
Proof.
  induction lines as [|line rest IH]; [reflexivity|].
  cbn [existsb insert_anchor]. intros H. apply orb_false_iff in H as [Hl Hr].
  rewrite Hl, (IH Hr). reflexivity.
Qed.

Section MoreRedirects.
Context {platform : Platform}.

(** X30.  When [/etc/pf.conf] names neither the anchor of portsmith nor,
    on any line, the [rdr-anchor] of [com.apple] after which to name it,
    [add-pf-redirect] of a new rule fails, but only after it has written the
    rule to the anchor file: nothing is loaded, [/etc/pf.conf] is as it was,
    and the same command run again finds the rule in the file and reports
    success without loading anything. *)
Theorem addPFRedirect_without_anchor (w : World) (ip : string)
  (fromPort toPort : Z) :
  validateIP ip = None ->
  1 <= fromPort <= 65535 -> 1 <= toPort <= 65535 ->
  Go.Contains (default EmptyString (anchorFile w)) (pf_rule ip fromPort toPort)
    = false ->
  Go.Contains (pfConf w) anchorRef = false ->
  existsb (fun line => Go.Contains line appleRef)
          (Go.Split (pfConf w) Go.newline) = false ->
  exists w1,
    addPFRedirect ip fromPort toPort w =
      (Some "could not find appropriate location in /etc/pf.conf to add anchor", w1) /\
    w1 = set_anchorFile w
           (Some (default EmptyString (anchorFile w) ++
                  pf_rule ip fromPort toPort ++ nl)%string) /\
    pfLoaded w1 = pfLoaded w /\ pfConf w1 = pfConf w /\
    addPFRedirect ip fromPort toPort w1 = (None, w1).
Proof.
  intros Hip Hf Ht Hnew Hconf Happle.
  destruct (pf_rule_ends ip fromPort toPort) as [Hh Hr].
  pose proof (TrimSpace_nl _ Hh Hr) as Htrim.
  assert (Hports : (fromPort <? 1) || (65535 <? fromPort) || (toPort <? 1) ||
                   (65535 <? toPort) = false).
  { rewrite !orb_false_iff, !Z.ltb_ge. lia. }
  assert (Hex : match anchorFile w with Some c => c | None => EmptyString end =
                default EmptyString (anchorFile w))
    by (destruct (anchorFile w); reflexivity).
  eexists. split; [|split; [reflexivity|]].
  - unfold addPFRedirect. rewrite Hip, Hports, Hex, Htrim, Hnew. cbv zeta.
    cbn [pfConf set_anchorFile]. rewrite Hconf. cbn [negb].
    rewrite (insert_anchor_none _ Happle). cbn [negb]. reflexivity.
  - cbn [pfLoaded pfConf set_anchorFile]. split; [reflexivity|].
    split; [reflexivity|].
    unfold addPFRedirect. rewrite Hip, Hports, Htrim.
    cbn [anchorFile set_anchorFile].
    rewrite Contains_mid. reflexivity.
Qed.

End MoreRedirects.

Lemma addPFRedirect_without_anchor_witness :
  exists e w1,
    @addPFRedirect example_platform "127.0.0.2" 443 10443 bare_pf_world
      = (Some e, w1) /\
    anchorFile w1 =
      Some ("rdr pass on lo0 inet proto tcp from any to 127.0.0.2 port 443 -> 127.0.0.2 port 10443"
            ++ nl)%string /\
    pfLoaded w1 = EmptyString /\
    @addPFRedirect example_platform "127.0.0.2" 443 10443 w1 = (None, w1).
Proof.
  destruct (@addPFRedirect_without_anchor example_platform bare_pf_world
              "127.0.0.2" 443 10443 eq_refl)
    as (w1 & Hadd & Hw1 & Hl & _ & Hagain); try reflexivity; try lia.
  eexists. exists w1. split; [exact Hadd|].
  split; [rewrite Hw1; reflexivity|]. split; [exact Hl|exact Hagain].
Defined.

(** ** [Start] that fails in its fourth step (forwarder.go) *)

Section StartFailure.
Context {platform : Platform}.

(** [add-pf-redirect] leaves the interface, the registry and the resolver
    file alone, whatever its arguments are. *)
Lemma add_pf_redirect_frame (rest : list string) (w : World) :
  let w' := snd (helper_main ("add-pf-redirect" :: rest) w) in
  lo0 w' = lo0 w /\ aliasesFile w' = aliasesFile w /\ hostsFile w' = hostsFile w.
Proof.
  cbv zeta. cbn [helper_main String.eqb Ascii.eqb Bool.eqb].
  destruct rest as [|ip [|f [|t [|]]]]; try (repeat split; reflexivity).
  destruct (Go.Sscanf_d f) as [fromPort|]; [|repeat split; reflexivity].
  destruct (Go.Sscanf_d t) as [toPort|]; [|repeat split; reflexivity].
  assert (H : let w' := snd (addPFRedirect ip fromPort toPort w) in
              lo0 w' = lo0 w /\ aliasesFile w' = aliasesFile w /\
              hostsFile w' = hostsFile w).
  { cbv zeta. unfold addPFRedirect.
    repeat match goal with
           | |- context [match ?x with _ => _ end] => destruct x
           | |- context [if ?x then _ else _] => destruct x
           end; repeat split; reflexivity. }
  destruct (addPFRedirect ip fromPort toPort w) as [[e|] w1]; exact H.
Qed.

Lemma SetupPFRedirect_frame (ip : string) (fromPort toPort : Z) (s : Sys) :
  let s' := snd (SetupPFRedirect ip fromPort toPort s) in
  lo0 (world s') = lo0 (world s) /\
  aliasesFile (world s') = aliasesFile (world s) /\
  hostsFile (world s') = hostsFile (world s).
Proof.
  cbv zeta. unfold SetupPFRedirect, runHelper.
  pose proof (add_pf_redirect_frame [ip; Go.Itoa fromPort; Go.Itoa toPort] (world s))
    as H. cbv zeta in H.
  destruct (helper_main _ (world s)) as [status w']. cbn [snd] in H.
  destruct (status =? 0); exact H.
Qed.

(** The redirects and the listeners of [Start] leave the interface, the
    registry and the resolver file as they find them. *)
Lemma ports_loop_frame (df : DynamicForwarder) (cfg : HostConfig.t)
  (ports : list Z) (s : Sys) :
  let s' := snd (ports_loop df cfg ports s) in
  lo0 (world s') = lo0 (world s) /\
  aliasesFile (world s') = aliasesFile (world s) /\
  hostsFile (world s') = hostsFile (world s).
Proof.
  cbv zeta. revert df s. induction ports as [|port rest IH]; intros df s.
  - repeat split; reflexivity.
  - cbn [ports_loop]. destruct (NeedsPFRedirect (NewForwardConfig cfg port)).
    + pose proof (SetupPFRedirect_frame
                    (ForwardConfig.LocalIP (NewForwardConfig cfg port))
                    (ForwardConfig.Port (NewForwardConfig cfg port))
                    (ForwardConfig.ListenPort (NewForwardConfig cfg port)) s) as H.
      cbv zeta in H.
      destruct (SetupPFRedirect _ _ _ s) as [[[u|] [e|]] s1]; cbn [snd] in H |- *;
        try exact H.
      destruct (IH (set_cleanup df (cleanup df ++ [u]))
                   (emit (EvListen (NewForwardConfig cfg port)) s1))
        as (H1 & H2 & H3).
      destruct H as (G1 & G2 & G3). cbn [emit world] in H1, H2, H3.
      repeat split; congruence.
    + destruct (IH df (emit (EvListen (NewForwardConfig cfg port)) s))
        as (H1 & H2 & H3). cbn [emit world] in H1, H2, H3.
      repeat split; assumption.
Qed.

Lemma hosts_loop_frame (fuel : nat) (df : DynamicForwarder)
  (cfgs : list HostConfig.t) (s : Sys) :
  let s' := snd (hosts_loop fuel df cfgs s) in
  lo0 (world s') = lo0 (world s) /\
  aliasesFile (world s') = aliasesFile (world s) /\
  hostsFile (world s') = hostsFile (world s).
Proof.
  cbv zeta. revert df s. induction cfgs as [|cfg rest IH]; intros df s.
  - repeat split; reflexivity.
  - cbn [hosts_loop].
    destruct (ExpandPorts fuel cfg) as [[e|ports]|]; try (repeat split; reflexivity).
    destruct (length ports =? 0)%nat; [apply IH|].
    pose proof (ports_loop_frame df cfg ports s) as H. cbv zeta in H.
    destruct (ports_loop df cfg ports s) as [[[e|] df1] s1]; cbn [snd] in H |- *;
      [exact H|].
    destruct (IH df1 s1) as (H1 & H2 & H3). destruct H as (G1 & G2 & G3).
    repeat split; congruence.
Qed.

(** Where the loop over the ports of a host fails: on the first port whose
    redirect the helper refuses; the ports before it have their redirect,
    if they need one, and their listener. *)
Lemma ports_loop_failure (df : DynamicForwarder) (cfg : HostConfig.t)
  (ports : list Z) (s : Sys) (e : StartError) (df' : DynamicForwarder) (s' : Sys) :
  ports_loop df cfg ports s = (Some e, df', s') ->
  exists before port after msg,
    ports = before ++ port :: after /\
    NeedsPFRedirect (NewForwardConfig cfg port) = true /\
    e = RedirectFailed (ForwardConfig.LocalIP (NewForwardConfig cfg port))
                       (ForwardConfig.Port (NewForwardConfig cfg port)) msg /\
    df' = set_cleanup df (cleanup df ++ redirect_undos (endpoints cfg before)) /\
    trace s' = trace s ++ concat (map endpoint_events (endpoints cfg before)) ++
               [EvHelper ["add-pf-redirect";
                          ForwardConfig.LocalIP (NewForwardConfig cfg port);
                          Go.Itoa (ForwardConfig.Port (NewForwardConfig cfg port));
                          Go.Itoa (ForwardConfig.ListenPort (NewForwardConfig cfg port))]].
Proof.
  revert df s. induction ports as [|port rest IH]; intros df s H; [discriminate|].
  cbn [ports_loop] in H.
  destruct (NeedsPFRedirect (NewForwardConfig cfg port)) eqn:Eneed.
  - pose proof (SetupPFRedirect_trace
                  (ForwardConfig.LocalIP (NewForwardConfig cfg port))
                  (ForwardConfig.Port (NewForwardConfig cfg port))
                  (ForwardConfig.ListenPort (NewForwardConfig cfg port)) s) as Ht.
    destruct (SetupPFRedirect _ _ _ s) as [[u e1] s1] eqn:Hpf. cbn [snd] in Ht.
    unfold SetupPFRedirect in Hpf.
    destruct (runHelper _ s) as [[e'|] s1']; injection Hpf as <- <- <-.
    + injection H as <- <- <-.
      exists [], port, rest. eexists. split; [reflexivity|].
      split; [exact Eneed|]. split; [reflexivity|].
      unfold redirect_undos. cbn [endpoints map List.filter concat app].
      rewrite app_nil_r, set_cleanup_id. split; [reflexivity|exact Ht].
    + destruct (IH _ _ H) as (before & p & after & msg & -> & Hneed & -> & -> & Htr).
      exists (port :: before), p, after, msg. split; [reflexivity|].
      split; [exact Hneed|]. split; [reflexivity|].
      unfold redirect_undos, endpoint_events in *.
      cbn [endpoints map List.filter concat]. rewrite Eneed.
      cbn [cleanup set_cleanup trace emit map] in *.
      rewrite Htr, Ht, <- !app_assoc. split; reflexivity.
  - destruct (IH _ _ H) as (before & p & after & msg & -> & Hneed & -> & -> & Htr).
    exists (port :: before), p, after, msg. split; [reflexivity|].
    split; [exact Hneed|]. split; [reflexivity|].
    unfold redirect_undos, endpoint_events in *.
    cbn [endpoints map List.filter concat]. rewrite Eneed.
    cbn [trace emit] in *. rewrite Htr, <- !app_assoc. split; reflexivity.
Qed.

(** Where the fourth step of [Start] fails: on the first host whose port
    list has an error or one of whose redirects is refused; [done] are the
    endpoints set up before, [refused] the invocation that was refused. *)
Lemma hosts_loop_failure (fuel : nat) (df : DynamicForwarder)
  (cfgs : list HostConfig.t) (s : Sys) (e : StartError) (df' : DynamicForwarder)
  (s' : Sys) :
  hosts_loop fuel df cfgs s = (Returns (Some e, df'), s') ->
  exists pre bad post portss done refused,
    cfgs = pre ++ bad :: post /\
    Forall2 (fun cfg ports => ExpandPorts fuel cfg = Some (inr ports)) pre portss /\
    ((exists ce,
        ExpandPorts fuel bad = Some (inl ce) /\
        e = ExpandFailed (displayName bad) ce /\
        done = all_endpoints pre portss /\ refused = []) \/
     (exists before port after msg,
        ExpandPorts fuel bad = Some (inr (before ++ port :: after)) /\
        NeedsPFRedirect (NewForwardConfig bad port) = true /\
        e = RedirectFailed (ForwardConfig.LocalIP (NewForwardConfig bad port))
                           (ForwardConfig.Port (NewForwardConfig bad port)) msg /\
        done = all_endpoints pre portss ++ endpoints bad before /\
        refused =
          [EvHelper ["add-pf-redirect";
                     ForwardConfig.LocalIP (NewForwardConfig bad port);
                     Go.Itoa (ForwardConfig.Port (NewForwardConfig bad port));
                     Go.Itoa (ForwardConfig.ListenPort (NewForwardConfig bad port))]])) /\
    df' = set_cleanup df (cleanup df ++ redirect_undos done) /\
    trace s' = trace s ++ concat (map endpoint_events done) ++ refused.
Proof.
  revert df s. induction cfgs as [|cfg rest IH]; intros df s H; [discriminate|].
  cbn [hosts_loop] in H.
  destruct (ExpandPorts fuel cfg) as [[ce|ports]|] eqn:Eports; try discriminate.
  - injection H as <- <- <-.
    exists [], cfg, rest, [], [], []. split; [reflexivity|].
    split; [constructor|]. split.
    { left. exists ce. split; [exact Eports|]. repeat split; reflexivity. }
    unfold redirect_undos. cbn. rewrite !app_nil_r, set_cleanup_id.
    split; reflexivity.
  - assert (Hstep :
      (exists df1 s1,
          ports_loop df cfg ports s = (None, df1, s1) /\
          hosts_loop fuel df1 rest s1 = (Returns (Some e, df'), s')) \/
      ports_loop df cfg ports s = (Some e, df', s')).
    { destruct (length ports =? 0)%nat eqn:Elen.
      - apply Nat.eqb_eq, length_zero_iff_nil in Elen. subst ports.
        left. exists df, s. split; [reflexivity|exact H].
      - destruct (ports_loop df cfg ports s) as [[[e1|] df1] s1].
        + injection H as <- <- <-. right. reflexivity.
        + left. exists df1, s1. split; [reflexivity|exact H]. }
    destruct Hstep as [(df1 & s1 & Hports & Hrest)|Hfail].
    + destruct (ports_loop_success _ _ _ _ _ _ Hports) as [-> Ht1].
      destruct (IH _ _ Hrest)
        as (pre & bad & post & portss & done & refused & -> & HF & Hcase & -> & Ht).
      exists (cfg :: pre), bad, post, (ports :: portss),
             (endpoints cfg ports ++ done), refused.
      split; [reflexivity|]. split; [constructor; assumption|]. split.
      { unfold all_endpoints in *. cbn [zip_with concat].
        destruct Hcase as [(ce & H1 & H2 & H3 & H4)|
                           (before & port & after & msg & H1 & H2 & H3 & H4 & H5)].
        - left. exists ce. subst done. repeat split; assumption.
        - right. exists before, port, after, msg. subst done.
          rewrite <- app_assoc. repeat split; assumption. }
      rewrite redirect_undos_app, map_app, concat_app, Ht, Ht1.
      cbn [cleanup set_cleanup]. rewrite <- !app_assoc. split; reflexivity.
    + destruct (ports_loop_failure _ _ _ _ _ _ _ Hfail)
        as (before & port & after & msg & -> & Hneed & -> & -> & Ht).
      exists [], cfg, rest, [], (endpoints cfg before). eexists.
      split; [reflexivity|]. split; [constructor|]. split.
      { right. exists before, port, after, msg.
        split; [exact Eports|]. split; [exact Hneed|].
        repeat split; reflexivity. }
      split; [reflexivity|exact Ht].
Qed.

(** C1, as the code has it.  When [Start] fails in its fourth step (some
    host has a malformed or reversed range in its port list, or a redirect
    is refused), the error is returned and no undo is called: after the
    three invocations of the bulk cleanup the call has only set things up.
    [SetupNetwork] has succeeded for every host; the hosts before the
    failing one have all their endpoints, the failing host those of the
    ports before the refused redirect, each with its redirect, if it needs
    one, and its listener.  The engine stays not-running and its cleanup
    stack holds, after what it held, the undos [SetupNetwork] returned and
    then those of the redirects of these endpoints.  The interface, the
    registry and the resolver file are as [SetupNetwork] left them: the
    aliases and resolver entries added by this [Start] are still there. *)
Theorem Start_failure_keeps_setup (df : DynamicForwarder) (src : ConfigSource)
  (fuel : nat) (s : Sys) (e : StartError) (df' : DynamicForwarder) (s' : Sys) :
  Start df src fuel s = (Returns (Some e, df'), s') ->
  (exists name ce, e = ExpandFailed name ce) \/
  (exists ip port msg, e = RedirectFailed ip port msg) ->
  exists hosts tr undos s2 pre bad post portss done refused,
    fst (LoadConfig src) = inr hosts /\
    trace s' = trace s ++ bulk_cleanup_events ++ tr /\
    setup_only tr /\
    order_events tr =
      List.filter (fun ev => match ev with EvListen _ => true | _ => false end) tr /\
    running df' = false /\
    snd (fst (SetupNetwork hosts (snd (Cleanup s)))) = None /\
    cleanup df' =
      cleanup df ++ fst (fst (SetupNetwork hosts (snd (Cleanup s)))) ++ undos /\
    SetupNetwork hosts (snd (Cleanup s)) =
      ((concat (map host_undos hosts), None), s2) /\
    hosts = pre ++ bad :: post /\
    Forall2 (fun cfg ports => ExpandPorts fuel cfg = Some (inr ports)) pre portss /\
    ((exists ce,
        ExpandPorts fuel bad = Some (inl ce) /\
        e = ExpandFailed (displayName bad) ce /\
        done = all_endpoints pre portss /\ refused = []) \/
     (exists before port after msg,
        ExpandPorts fuel bad = Some (inr (before ++ port :: after)) /\
        NeedsPFRedirect (NewForwardConfig bad port) = true /\
        e = RedirectFailed (ForwardConfig.LocalIP (NewForwardConfig bad port))
                           (ForwardConfig.Port (NewForwardConfig bad port)) msg /\
        done = all_endpoints pre portss ++ endpoints bad before /\
        refused =
          [EvHelper ["add-pf-redirect";
                     ForwardConfig.LocalIP (NewForwardConfig bad port);
                     Go.Itoa (ForwardConfig.Port (NewForwardConfig bad port));
                     Go.Itoa (ForwardConfig.ListenPort (NewForwardConfig bad port))]])) /\
    tr = concat (map host_setup_events hosts) ++
         concat (map endpoint_events done) ++ refused /\
    undos = redirect_undos done /\
    listeners (trace s') = listeners (trace s) ++ done /\
    lo0 (world s') = lo0 (world s2) /\
    aliasesFile (world s') = aliasesFile (world s2) /\
    hostsFile (world s') = hostsFile (world s2).
Proof.
  intros HStart He. unfold Start in HStart.
  destruct (running df) eqn:Hrun.
  { injection HStart as <- <- <-. destruct He as [(? & ? & He)|(? & ? & ? & He)];
      discriminate He. }
  unfold reloadConfig in HStart.
  destruct (fst (LoadConfig src)) as [msg|hosts] eqn:Hload.
  { injection HStart as <- <- <-. destruct He as [(? & ? & He)|(? & ? & ? & He)];
      discriminate He. }
  pose proof (Cleanup_trace s) as Hc.
  destruct (Cleanup s) as [ec s1]. cbn [snd] in Hc |- *.
  unfold setupNetwork in HStart. cbn [configs set_configs] in HStart.
  destruct (SetupNetwork hosts s1) as [[undos1 [e1|]] s2] eqn:Hsetup.
  { injection HStart as <- <- <-. destruct He as [(? & ? & He)|(? & ? & ? & He)];
      discriminate He. }
  destruct (setup_loop_success _ _ _ _ _ Hsetup) as [Hu1 Ht1].
  cbn [app] in Hu1. subst undos1.
  cbn [configs set_cleanup set_configs] in HStart.
  pose proof (hosts_loop_frame fuel
                (set_cleanup (set_configs df hosts)
                   (cleanup (set_configs df hosts) ++ concat (map host_undos hosts)))
                hosts s2) as Hframe. cbv zeta in Hframe.
  destruct (hosts_loop fuel _ hosts s2) as [[[[e2|] df2]| |] s3] eqn:Hloop;
    try discriminate HStart.
  2:{ destruct (try_send _ _); discriminate HStart. }
  injection HStart as <- <- <-. cbn [snd] in Hframe.
  destruct (hosts_loop_spec _ _ _ _ _ _ _ Hloop) as (tr2 & H2 & S2 & _).
  destruct (hosts_loop_failure _ _ _ _ _ _ _ Hloop)
    as (pre & bad & post & portss & done & refused & Hsplit & HF & Hcase & Hdf & Ht).
  assert (Htr2 : tr2 = concat (map endpoint_events done) ++ refused).
  { rewrite H2 in Ht. apply app_inv_head in Ht. exact Ht. }
  assert (S1 : setup_only (concat (map host_setup_events hosts))).
  { destruct (setup_loop_trace hosts [] s1) as (tr1 & H1 & S1).
    unfold SetupNetwork in Hsetup. rewrite Hsetup in H1. cbn [snd] in H1.
    rewrite Ht1 in H1. apply app_inv_head in H1. rewrite H1. exact S1. }
  exists hosts, (concat (map host_setup_events hosts) ++ tr2),
         (redirect_undos done), s2, pre, bad, post, portss, done, refused.
  cbn [snd]. rewrite Hsetup. cbn [fst snd].
  split; [reflexivity|]. split.
  { rewrite H2, Ht1, Hc, <- !app_assoc. reflexivity. }
  split; [apply setup_only_app; assumption|]. split.
  { apply setup_only_order, setup_only_app; assumption. }
  split; [rewrite Hdf; exact Hrun|]. split; [reflexivity|]. split.
  { rewrite Hdf. cbn [cleanup set_cleanup set_configs fst].
    rewrite <- app_assoc. reflexivity. }
  split; [reflexivity|]. split; [exact Hsplit|]. split; [exact HF|].
  split; [exact Hcase|]. split; [rewrite Htr2; reflexivity|].
  split; [reflexivity|]. split.
  { rewrite Ht, Ht1, Hc, !listeners_app, listeners_host_setup,
            listeners_endpoint_events.
    assert (Hr : listeners refused = []).
    { destruct Hcase as [(ce & _ & _ & _ & ->)|
                         (before & port & after & msg & _ & _ & _ & _ & ->)];
        reflexivity. }
    rewrite Hr, !app_nil_r. reflexivity. }
  exact Hframe.
Qed.

End StartFailure.

Lemma Start_failure_keeps_setup_witness :
  exists df' s',
    example_start_reversed =
      (Returns (Some (ExpandFailed "db.internal (db.internal)"
                        (ReversedRange "100-50" 100 50)), df'), s') /\
    running df' = false /\
    cleanup df' = [UndoLoopbackAlias "127.0.0.2";
                   UndoHostsEntries "127.0.0.2" ["app.internal.example.com"];
                   UndoLoopbackAlias "127.0.0.3";
                   UndoHostsEntries "127.0.0.3" ["db.internal"];
                   UndoPFRedirect "127.0.0.2" 22 10022] /\
    order_events (trace s') = EvListen <$> listeners (trace s') /\
    ForwardConfig.ListenPort <$> listeners (trace s') = [10022; 8080] /\
    lo0 (world s') = ["127.0.0.1"; "127.0.0.2"; "127.0.0.3"] /\
    hostsFile (world s') =
      ("127.0.0.1 localhost" ++ nl ++
       "127.0.0.2 app.internal.example.com # portsmith-dynamic-forward" ++ nl ++
       "127.0.0.3 db.internal # portsmith-dynamic-forward" ++ nl)%string.
Proof.
  destruct example_start_reversed as [[[[e|] df']| |] s'] eqn:E;
    try (vm_compute in E; discriminate E).
  assert (He : e = ExpandFailed "db.internal (db.internal)"
                     (ReversedRange "100-50" 100 50))
    by (vm_compute in E; congruence).
  unfold example_start_reversed in E.
  destruct (@Start_failure_keeps_setup example_platform _ _ _ _ e df' s' E)
    as (hosts & tr & undos & s2 & pre & bad & post & portss & done & refused &
        Hload & Htr & Hs & Ho & Hrun & Hok & Hcl & _).
  { left. eexists. eexists. exact He. }
  exists df', s'. subst e. split; [reflexivity|]. split; [exact Hrun|].
  vm_compute in E. injection E as <- <-. repeat split; reflexivity.
Defined.

(** C1 as the specification states it fails: with the port list
    [["100-50"]], [Start] returns the error of the reversed range, no undo
    has been called, and the alias and the resolver entry it added are
    still there. *)
Lemma Start_not_atomic :
  exists df' s',
    example_start [PortString "100-50"] =
      (Returns (Some (ExpandFailed
                        "app.internal.example.com (app.internal.example.com)"
                        (ReversedRange "100-50" 100 50)), df'), s') /\
    order_events (trace s') = [] /\
    lo0 (world s') = ["127.0.0.1"; "127.0.0.2"] /\
    hostsFile (world s') =
      ("127.0.0.1 localhost" ++ nl ++
       "127.0.0.2 app.internal.example.com # portsmith-dynamic-forward" ++ nl)%string /\
    world s' <> example_world ("127.0.0.1 localhost" ++ nl).
Proof.
  eexists. eexists. split; [vm_compute; reflexivity|].
  split; [reflexivity|]. split; [reflexivity|]. split; [reflexivity|].
  discriminate.
Qed.
